(** * MineFlow UI: grid indexing, colour mapping, statistics, render-set
      construction, surface meshing and solver-output parsing.

    A shallow embedding of the TypeScript sources

      - [src/lib/fileParser.ts]   (parseDatFile)
      - [src/lib/blockModel.ts]   (getBlockIndex, getBlockCoords, valueToColor,
                                   isBoundaryBlock, calculateStats)
      - [src/components/Visualization3D.tsx] (BlockInstances, SurfaceMesh)
      - [electron/mineflow.ts]    (runMineflow, the part that reads the
                                   solver's output file)

    Conventions of the embedding.

      - Block indices, coordinates, counts and Int32 block values are [Z].
        A JavaScript number that holds an integer is embedded as that
        integer; this is exact below 2^53, which covers every index and
        every sum of Int32 values a model that fits in memory can produce.
      - Numbers that are fractional, infinite or NaN are IEEE binary64
        values: Rocq's primitive [float], which computes exactly what a
        JavaScript engine computes.
      - Typed arrays are lists; an indexed read is [None] where JavaScript yields
        [undefined].
      - Strings are lists of code units below 256. *)

From Stdlib Require Import ZArith List Floats Uint63 String Ascii Lia Bool Sorted
  DecimalString.
From stdpp Require Import base tactics option list list_numbers.

Set Warnings "-inexact-float".
Local Open Scope Z_scope.

(* ===================================================================== *)
(** ** JavaScript values used by the sources *)
(* ===================================================================== *)

Module JS.

(** Indexed read of a typed array: [a[i]].  Outside [0, a.length) the
    read yields [undefined], here [None]. *)
Definition get (a : list Z) (i : Z) : option Z :=
  if i <? 0 then None else a !! Z.to_nat i.

(** [!a[i]]: [undefined] and [0] are falsy, every other element of a
    typed array is truthy. *)
Definition falsy (v : option Z) : bool :=
  match v with
  | None => true
  | Some n => n =? 0
  end.

(** [a[i] === 1]. *)
Definition is_one (v : option Z) : bool :=
  match v with
  | Some n => n =? 1
  | None => false
  end.

(** [a.length]. *)
Definition len {A} (a : list A) : Z := Z.of_nat (length a).

(** The number an integer denotes, as a binary64 value (exact for
    |z| < 2^53, correctly rounded up to 2^63). *)
Definition float_of_Z (z : Z) : float :=
  if z <? 0 then PrimFloat.opp (PrimFloat.of_uint63 (Uint63.of_Z (- z)))
  else PrimFloat.of_uint63 (Uint63.of_Z z).

(** Integer-valued numbers extended with the two infinities, as they
    arise from [Math.min]/[Math.max] folds that start at [±Infinity]. *)
Inductive number : Set :=
| Int (z : Z)
| Infinity
| NegInfinity.

Definition Math_min (a b : number) : number :=
  match a, b with
  | NegInfinity, _ | _, NegInfinity => NegInfinity
  | Infinity, x | x, Infinity => x
  | Int x, Int y => Int (Z.min x y)
  end.

Definition Math_max (a b : number) : number :=
  match a, b with
  | Infinity, _ | _, Infinity => Infinity
  | NegInfinity, x | x, NegInfinity => x
  | Int x, Int y => Int (Z.max x y)
  end.

Definition Math_abs (a : number) : number :=
  match a with
  | Int x => Int (Z.abs x)
  | Infinity | NegInfinity => Infinity
  end.

Definition to_float (a : number) : float :=
  match a with
  | Int x => float_of_Z x
  | Infinity => infinity
  | NegInfinity => neg_infinity
  end.

(** [Math.ceil(a / b)] for integers [a] and [b > 0]. *)
Definition ceil_div (a b : Z) : Z := - ((- a) / b).

(** *** Strings *)

Abbreviation jsstring := (list ascii).

(** The white space and line terminators below 256 that [trim] and
    [parseInt] strip: TAB, LF, VT, FF, CR, SP and NBSP. *)
Definition isWhiteSpace (c : ascii) : bool :=
  let n := N_of_ascii c in
  ((9 <=? n) && (n <=? 13) || (n =? 32) || (n =? 160))%N.

Fixpoint trimStart (s : jsstring) : jsstring :=
  match s with
  | c :: rest => if isWhiteSpace c then trimStart rest else s
  | [] => []
  end.

Definition trimEnd (s : jsstring) : jsstring := rev (trimStart (rev s)).

(** [s.trim()] *)
Definition trim (s : jsstring) : jsstring := trimEnd (trimStart s).

Definition LF : ascii := ascii_of_N 10.

(** [s.split('\n')]: never empty, the empty string splits into one
    empty line. *)
Fixpoint split_lines (s : jsstring) : list jsstring :=
  match s with
  | [] => [[]]
  | c :: rest =>
      if Ascii.eqb c LF then [] :: split_lines rest
      else match split_lines rest with
           | line :: lines => (c :: line) :: lines
           | [] => [[c]]
           end
  end.

Definition digit (c : ascii) : option Z :=
  let n := Z.of_N (N_of_ascii c) in
  if (48 <=? n) && (n <=? 57) then Some (n - 48) else None.

(** The value of the longest prefix of decimal digits, continuing from
    [acc]. *)
Fixpoint digits (s : jsstring) (acc : Z) : Z :=
  match s with
  | c :: rest =>
      match digit c with
      | Some d => digits rest (acc * 10 + d)
      | None => acc
      end
  | [] => acc
  end.

Definition startsWithDigit (s : jsstring) : bool :=
  match s with
  | c :: _ => match digit c with Some _ => true | None => false end
  | [] => false
  end.

(** [parseInt(s, 10)]: leading white space, an optional sign, then the
    longest run of digits; [None] is NaN.  The result is the integer the
    digits denote (an engine rounds it to binary64 once it exceeds
    2^53). *)
Definition parseInt (s : jsstring) : option Z :=
  let s1 := trimStart s in
  let '(sign, s2) :=
    match s1 with
    | c :: rest =>
        if Ascii.eqb c "-"%char then (-1, rest)
        else if Ascii.eqb c "+"%char then (1, rest)
        else (1, s1)
    | [] => (1, s1)
    end in
  if startsWithDigit s2 then Some (sign * digits s2 0) else None.

(** Storing a number into an [Int32Array]: reduction modulo 2^32 into
    [-2^31, 2^31). *)
Definition toInt32 (z : Z) : Z := (z + 2 ^ 31) mod 2 ^ 32 - 2 ^ 31.

(** What a call can complete with: a value, or a thrown error. *)
Inductive Error : Set :=
| BlockCountMismatch (expectedBlocks actual : Z)
| InvalidValue (lineNumber : Z) (line : jsstring)
| RangeError.

Inductive Completion (A : Type) : Type :=
| Normal (a : A)
| Throw (e : Error).
Arguments Normal {A} a.
Arguments Throw {A} e.

End JS.

Export JS.

(* ===================================================================== *)
(** ** types/mineflow.d.ts *)
(* ===================================================================== *)

Record BlockModel : Set := mkBlockModel {
  nx : Z;
  ny : Z;
  nz : Z;
  values : list Z           (* Int32Array *)
}.

(** [minedBlocks?: Uint8Array] *)
Abbreviation MinedBlocks := (list Z).

(* ===================================================================== *)
(** ** lib/blockModel.ts *)
(* ===================================================================== *)

Record Coords : Set := mkCoords { cx : Z; cy : Z; cz : Z }.

(** [x + y * nx + z * nx * ny] *)
Definition getBlockIndex (x y z nx ny : Z) : Z :=
  x + y * nx + z * nx * ny.

(** [index % nx], [Math.floor(index / nx) % ny],
    [Math.floor(index / (nx * ny))].  JavaScript's [%] takes the sign of
    the dividend ([Z.rem]); [Math.floor] of a quotient is [Z.div].  The
    embedding is meant for [nx] and [ny] other than 0, where JavaScript
    stays within the integers. *)
Definition getBlockCoords (index nx ny : Z) : Coords :=
  let x := Z.rem index nx in
  let y := Z.rem (index / nx) ny in
  let z := index / (nx * ny) in
  mkCoords x y z.

(** The six neighbours in the order the source lists them. *)
Definition neighbors (c : Coords) : list Coords :=
  [ mkCoords (cx c - 1) (cy c) (cz c);
    mkCoords (cx c + 1) (cy c) (cz c);
    mkCoords (cx c) (cy c - 1) (cz c);
    mkCoords (cx c) (cy c + 1) (cz c);
    mkCoords (cx c) (cy c) (cz c - 1);
    mkCoords (cx c) (cy c) (cz c + 1) ].

(** The guard of the [continue] in isBoundaryBlock. *)
Definition outOfBounds (n : Coords) (nx ny nz : Z) : bool :=
  (cx n <? 0) || (nx <=? cx n) ||
  (cy n <? 0) || (ny <=? cy n) ||
  (cz n <? 0) || (nz <=? cz n).

(** The [for (const neighbor of neighbors)] loop: [true] at the first
    in-bounds neighbour whose mask entry is falsy, [false] at the end. *)
Fixpoint scanNeighbors (ns : list Coords) (nx ny nz : Z)
         (minedBlocks : MinedBlocks) : bool :=
  match ns with
  | [] => false
  | n :: rest =>
      if outOfBounds n nx ny nz then scanNeighbors rest nx ny nz minedBlocks
      else
        let neighborIndex := getBlockIndex (cx n) (cy n) (cz n) nx ny in
        if falsy (get minedBlocks neighborIndex) then true
        else scanNeighbors rest nx ny nz minedBlocks
  end.

Definition isBoundaryBlock (index : Z) (blockModel : BlockModel)
           (minedBlocks : MinedBlocks) : bool :=
  if falsy (get minedBlocks index) then false
  else
    let coords := getBlockCoords index (nx blockModel) (ny blockModel) in
    scanNeighbors (neighbors coords)
                  (nx blockModel) (ny blockModel) (nz blockModel) minedBlocks.

(** [new THREE.Color(r, g, b)] and [color.setHex(h)].  What the library
    stores for a hex colour depends on its colour management, so a hex
    colour is kept as the hex code. *)
Inductive Color : Set :=
| RGB (r g b : float)
| Hex (h : Z).

Section ValueToColor.
Local Open Scope float_scope.

(** Dark red to bright red: the branch [t < 0.5] of the negative half. *)
Definition darkRedToBrightRed (t : float) : Color :=
  let s := t * 2 in
  RGB (0.5 + s * 0.5) 0.0 0.0.

(** Bright red to orange: the other branch of the negative half. *)
Definition brightRedToOrange (t : float) : Color :=
  let s := (t - 0.5) * 2 in
  RGB 1.0 (s * 0.4) 0.0.

(** Yellow to green: [t < 0.33]. *)
Definition yellowToGreen (t : float) : Color :=
  let s := t / 0.33 in
  RGB (1.0 - s * 0.5) 1.0 0.0.

(** Green to cyan: [t < 0.67]. *)
Definition greenToCyan (t : float) : Color :=
  let s := (t - 0.33) / 0.34 in
  RGB (0.5 - s * 0.5) 1.0 (s * 1.0).

(** Cyan to blue: the last branch. *)
Definition cyanToBlue (t : float) : Color :=
  let s := (t - 0.67) / 0.33 in
  RGB 0.0 (1.0 - s * 0.5) 1.0.

Definition valueToColor (value maxAbsValue : float) : Color :=
  let normalized := value / maxAbsValue in
  if normalized <? 0 then
    let t := abs normalized in
    if t <? 0.5 then darkRedToBrightRed t else brightRedToOrange t
  else
    let t := normalized in
    if t <? 0.33 then yellowToGreen t
    else if t <? 0.67 then greenToCyan t
    else cyanToBlue t.

End ValueToColor.

Record Stats : Set := mkStats {
  minValue : number;
  maxValue : number;
  maxAbsValue : number;
  totalValue : Z;
  averageValue : float;
  positiveCount : Z;
  negativeCount : Z;
  minedValue : Z;
  minedCount : Z
}.

(** The seven [let] variables of calculateStats. *)
Record StatsAcc : Set := mkStatsAcc {
  accMin : number;
  accMax : number;
  accTotal : Z;
  accPositive : Z;
  accNegative : Z;
  accMinedValue : Z;
  accMinedCount : Z
}.

Definition statsInit : StatsAcc :=
  mkStatsAcc Infinity NegInfinity 0 0 0 0 0.

(** [minedBlocks && minedBlocks[i] === 1] *)
Definition minedAt (minedBlocks : option MinedBlocks) (i : Z) : bool :=
  match minedBlocks with
  | Some mb => is_one (get mb i)
  | None => false
  end.

(** One iteration of the loop of calculateStats, at index [i] with
    [value = model.values[i]]. *)
Definition statsStep (minedBlocks : option MinedBlocks) (a : StatsAcc)
           (i value : Z) : StatsAcc :=
  let isMined := minedAt minedBlocks i in
  mkStatsAcc
    (Math_min (accMin a) (Int value))
    (Math_max (accMax a) (Int value))
    (accTotal a + value)
    (if 0 <? value then accPositive a + 1 else accPositive a)
    (if value <? 0 then accNegative a + 1 else accNegative a)
    (if isMined then accMinedValue a + value else accMinedValue a)
    (if isMined then accMinedCount a + 1 else accMinedCount a).

(** [for (let i = 0; i < model.values.length; i++)], entered at index [i]
    with [vs] the values from [i] on. *)
Fixpoint statsLoop (minedBlocks : option MinedBlocks) (vs : list Z) (i : Z)
         (a : StatsAcc) : StatsAcc :=
  match vs with
  | [] => a
  | value :: rest =>
      statsLoop minedBlocks rest (i + 1) (statsStep minedBlocks a i value)
  end.

Definition calculateStats (model : BlockModel)
           (minedBlocks : option MinedBlocks) : Stats :=
  let a := statsLoop minedBlocks (values model) 0 statsInit in
  mkStats
    (accMin a)
    (accMax a)
    (Math_max (Math_abs (accMin a)) (Math_abs (accMax a)))
    (accTotal a)
    (PrimFloat.div (float_of_Z (accTotal a)) (float_of_Z (len (values model))))
    (accPositive a)
    (accNegative a)
    (accMinedValue a)
    (accMinedCount a).

(* ===================================================================== *)
(** ** components/Visualization3D.tsx *)
(* ===================================================================== *)

Inductive ViewMode : Set := ViewAll | ViewMined | ViewUnmined.
Inductive ColorScheme : Set := SchemeValue | SchemeMined.
Inductive SliceDimension : Set := SliceX | SliceY | SliceZ.

(** The props shared by Visualization3D and BlockInstances ([solveCount]
    and [onBlockHover] do not enter the computed render set). *)
Record Props : Set := mkProps {
  blockModel : BlockModel;
  minedBlocks : option MinedBlocks;
  viewMode : ViewMode;
  currentLayer : option Z;              (* number | null *)
  sliceDimension : SliceDimension;
  colorScheme : ColorScheme;
  showWireframe : bool
}.

Definition MAX_BLOCKS_TO_RENDER : Z := 100000.

(** [tempPositions], [tempColors], [indexMapping], [blocksRendered].  One
    entry of [tempColors] stands for the three components pushed. *)
Record Buffers : Set := mkBuffers {
  tempPositions : list float;
  tempColors : list Color;
  indexMapping : list Z;
  blocksRendered : Z
}.

Record RenderSet : Set := mkRenderSet {
  positions : list float;
  colors : list Color;
  count : Z;
  isLimited : bool;
  instanceToBlockIndex : list Z
}.

Definition isFilteredView (p : Props) : bool :=
  match viewMode p with ViewAll => false | _ => true end.

Definition isCrossSection (p : Props) : bool :=
  match currentLayer p with Some _ => true | None => false end.

Definition totalBlocks (p : Props) : Z := len (values (blockModel p)).

Definition skipFactor (p : Props) : Z :=
  if negb (isFilteredView p) && negb (isCrossSection p)
     && (MAX_BLOCKS_TO_RENDER <? totalBlocks p)
  then ceil_div (totalBlocks p) MAX_BLOCKS_TO_RENDER
  else 1.

Definition coordValue (d : SliceDimension) (coords : Coords) : Z :=
  match d with
  | SliceX => cx coords
  | SliceY => cy coords
  | SliceZ => cz coords
  end.

(** The [continue] statements of the loop body, in source order: [true]
    when block [i] is passed over. *)
Definition skipped (p : Props) (i : Z) (coords : Coords) : bool :=
  let layerMiss :=
    match currentLayer p with
    | Some layer => negb (coordValue (sliceDimension p) coords =? layer)
    | None => false
    end in
  if layerMiss then true
  else
    match minedBlocks p with
    | Some mb =>
        let isMined := is_one (get mb i) in
        if showWireframe p && negb isMined then true
        else if (match viewMode p with ViewMined => true | _ => false end)
                && negb isMined then true
        else if (match viewMode p with ViewUnmined => true | _ => false end)
                && isMined then true
        else if showWireframe p && isMined
                && negb (isBoundaryBlock i (blockModel p) mb) then true
        else false
    | None => false
    end.

(** [values[i]] as the number handed to valueToColor ([undefined] becomes
    NaN in the division). *)
Definition valueAt (model : BlockModel) (i : Z) : float :=
  match get (values model) i with
  | Some v => float_of_Z v
  | None => nan
  end.

Definition half (n : Z) : float := PrimFloat.div (float_of_Z n) 2.

Definition blockColor (p : Props) (stats : Stats) (i : Z) : Color :=
  match colorScheme p, minedBlocks p with
  | SchemeMined, Some mb =>
      if is_one (get mb i) then Hex 0x22c55e else Hex 0x3f3f46
  | _, _ =>
      valueToColor (valueAt (blockModel p) i) (to_float (maxAbsValue stats))
  end.

(** The tail of the loop body: position, colour, index mapping, counter. *)
Definition emit (p : Props) (stats : Stats) (i : Z) (coords : Coords)
           (b : Buffers) : Buffers :=
  let x := PrimFloat.sub (float_of_Z (cx coords)) (half (nx (blockModel p))) in
  let y := PrimFloat.sub (float_of_Z (cz coords)) (half (nz (blockModel p))) in
  let z := PrimFloat.sub (float_of_Z (cy coords)) (half (ny (blockModel p))) in
  mkBuffers (tempPositions b ++ [x; y; z])
            (tempColors b ++ [blockColor p stats i])
            (indexMapping b ++ [i])
            (blocksRendered b + 1).

(** [for (let i = 0; i < blockModel.values.length; i += skipFactor)],
    entered at index [i].  [None] only when the fuel runs out. *)
Fixpoint renderLoop (fuel : nat) (p : Props) (stats : Stats) (i : Z)
         (b : Buffers) : option Buffers :=
  if i <? totalBlocks p then
    match fuel with
    | O => None
    | S fuel' =>
        if negb (isCrossSection p)
           && (MAX_BLOCKS_TO_RENDER <=? blocksRendered b)
        then Some b                                          (* break *)
        else
          let coords :=
            getBlockCoords i (nx (blockModel p)) (ny (blockModel p)) in
          if skipped p i coords
          then renderLoop fuel' p stats (i + skipFactor p) b  (* continue *)
          else renderLoop fuel' p stats (i + skipFactor p)
                          (emit p stats i coords b)
    end
  else Some b.

(** The [useMemo] body of BlockInstances.  The loop advances by at least
    one index per iteration, so [totalBlocks] iterations of fuel suffice
    ([BlockInstances_returns] below). *)
Definition BlockInstances (p : Props) : option RenderSet :=
  let stats := calculateStats (blockModel p) (minedBlocks p) in
  match renderLoop (Z.to_nat (totalBlocks p)) p stats 0 (mkBuffers [] [] [] 0) with
  | Some b =>
      Some (mkRenderSet (tempPositions b) (tempColors b) (blocksRendered b)
                        ((1 <? skipFactor p) && negb (isCrossSection p))
                        (indexMapping b))
  | None => None
  end.

(** *** SurfaceMesh *)

Record Face : Set := mkFace {
  dx : Z; dy : Z; dz : Z;
  normal : list Z;
  corners : list (float * float * float)
}.

Section Faces.
Local Open Scope float_scope.

Definition faces : list Face :=
  [ mkFace (-1) 0 0 [-1; 0; 0]%Z
      [(-0.5, -0.5, -0.5); (-0.5, 0.5, -0.5); (-0.5, 0.5, 0.5); (-0.5, -0.5, 0.5)];
    mkFace 1 0 0 [1; 0; 0]%Z
      [(0.5, -0.5, -0.5); (0.5, -0.5, 0.5); (0.5, 0.5, 0.5); (0.5, 0.5, -0.5)];
    mkFace 0 0 (-1) [0; 0; -1]%Z
      [(-0.5, -0.5, -0.5); (-0.5, 0.5, -0.5); (0.5, 0.5, -0.5); (0.5, -0.5, -0.5)];
    mkFace 0 0 1 [0; 0; 1]%Z
      [(-0.5, -0.5, 0.5); (0.5, -0.5, 0.5); (0.5, 0.5, 0.5); (-0.5, 0.5, 0.5)];
    mkFace 0 (-1) 0 [0; -1; 0]%Z
      [(-0.5, -0.5, -0.5); (0.5, -0.5, -0.5); (0.5, -0.5, 0.5); (-0.5, -0.5, 0.5)];
    mkFace 0 1 0 [0; 1; 0]%Z
      [(-0.5, 0.5, -0.5); (-0.5, 0.5, 0.5); (0.5, 0.5, 0.5); (0.5, 0.5, -0.5)] ].

End Faces.

(** [vertices], [indices], [colors], [normals]; one entry of [gColors]
    stands for the three components pushed per vertex. *)
Record Geometry : Set := mkGeometry {
  vertices : list float;
  indices : list Z;
  gColors : list Color;
  normals : list Z
}.

(** The neighbour across a face; the face offsets are in render axes, so
    [dz] moves along the model's y and [dy] along the model's z. *)
Definition faceNeighbor (coords : Coords) (face : Face) : Coords :=
  mkCoords (cx coords + dx face) (cy coords + dz face) (cz coords + dy face).

Definition isExposed (model : BlockModel) (mb : MinedBlocks)
           (coords : Coords) (face : Face) : bool :=
  let n := faceNeighbor coords face in
  if (cx n <? 0) || (nx model <=? cx n) ||
     (cy n <? 0) || (ny model <=? cy n) ||
     (cz n <? 0) || (nz model <=? cz n)
  then false
  else
    let neighborIndex := getBlockIndex (cx n) (cy n) (cz n) (nx model) (ny model) in
    falsy (get mb neighborIndex).

(** [for (const corner of face.corners)] *)
Definition addCorner (bx by_ bz : float) (color : Color) (face : Face)
           (g : Geometry) (corner : float * float * float) : Geometry :=
  let '(c0, c1, c2) := corner in
  mkGeometry
    (vertices g ++ [PrimFloat.add bx c0; PrimFloat.add by_ c1; PrimFloat.add bz c2])
    (indices g)
    (gColors g ++ [color])
    (normals g ++ normal face).

(** The body of [if (isExposed)]: four corners, then two triangles. *)
Definition addQuad (bx by_ bz : float) (color : Color) (face : Face)
           (g : Geometry) : Geometry :=
  let baseIndex := len (vertices g) / 3 in
  let g' := fold_left (addCorner bx by_ bz color face) (corners face) g in
  mkGeometry (vertices g')
             (indices g' ++ [baseIndex; baseIndex + 1; baseIndex + 2]
                         ++ [baseIndex; baseIndex + 2; baseIndex + 3])
             (gColors g')
             (normals g').

(** One iteration of [for (const face of faces)]. *)
Definition addFace (model : BlockModel) (mb : MinedBlocks) (coords : Coords)
           (bx by_ bz : float) (color : Color)
           (g : Geometry) (face : Face) : Geometry :=
  if isExposed model mb coords face then addQuad bx by_ bz color face g else g.

Definition meshColor (model : BlockModel) (scheme : ColorScheme)
           (stats : Stats) (i : Z) : Color :=
  match scheme with
  | SchemeMined => Hex 0x22c55e
  | SchemeValue =>
      valueToColor (valueAt model i) (to_float (maxAbsValue stats))
  end.

(** One iteration of the loop over the blocks. *)
Definition addBlock (model : BlockModel) (mb : MinedBlocks)
           (scheme : ColorScheme) (stats : Stats)
           (g : Geometry) (i : Z) : Geometry :=
  if negb (isBoundaryBlock i model mb) then g
  else
    let coords := getBlockCoords i (nx model) (ny model) in
    let bx := PrimFloat.sub (float_of_Z (cx coords)) (half (nx model)) in
    let by_ := PrimFloat.sub (float_of_Z (cz coords)) (half (nz model)) in
    let bz := PrimFloat.sub (float_of_Z (cy coords)) (half (ny model)) in
    let color := meshColor model scheme stats i in
    fold_left (addFace model mb coords bx by_ bz color) faces g.

(** The [useMemo] body of SurfaceMesh: [for (let i = 0; i <
    blockModel.values.length; i++)] over all block indices. *)
Definition SurfaceMesh (model : BlockModel) (mb : MinedBlocks)
           (scheme : ColorScheme) : Geometry :=
  let stats := calculateStats model (Some mb) in
  fold_left (addBlock model mb scheme stats)
            (seqZ 0 (len (values model)))
            (mkGeometry [] [] [] []).

(** [indices.length / 3], as logged by the component. *)
Definition triangleCount (g : Geometry) : Z := len (indices g) / 3.

(** What Visualization3D mounts: the surface mesh when the wireframe
    toggle is on and a solution exists, the instanced blocks otherwise. *)
Inductive Scene : Set :=
| SurfaceScene (g : Geometry)
| InstancedScene (r : RenderSet).

Definition Visualization3D (p : Props) : option Scene :=
  match showWireframe p, minedBlocks p with
  | true, Some mb =>
      Some (SurfaceScene (SurfaceMesh (blockModel p) mb (colorScheme p)))
  | _, _ =>
      match BlockInstances p with
      | Some r => Some (InstancedScene r)
      | None => None
      end
  end.

(* ===================================================================== *)
(** ** lib/fileParser.ts *)
(* ===================================================================== *)

(** The loop of parseDatFile, entered at index [i] with [lines] the lines
    from [i] on and [values] the array filled so far. *)
Fixpoint parseLines (lines : list jsstring) (i : Z) (values : list Z)
  : Completion (list Z) :=
  match lines with
  | [] => Normal values
  | line :: rest =>
      match parseInt (trim line) with
      | None => Throw (InvalidValue (i + 1) line)
      | Some value =>
          parseLines rest (i + 1) (<[Z.to_nat i := toInt32 value]> values)
      end
  end.

Definition parseDatFile (content : jsstring) (nx ny nz : Z)
  : Completion BlockModel :=
  let lines := split_lines (trim content) in
  let expectedBlocks := nx * ny * nz in
  if negb (len lines =? expectedBlocks) then
    Throw (BlockCountMismatch expectedBlocks (len lines))
  else
    let values := replicate (Z.to_nat expectedBlocks) 0 in
    match parseLines lines 0 values with
    | Throw e => Throw e
    | Normal values => Normal (mkBlockModel nx ny nz values)
    end.

(* ===================================================================== *)
(** ** electron/mineflow.ts *)
(* ===================================================================== *)

(** The two fields of [SolveResult] that are read off the output file
    ([totalValue] comes from the solver's standard output and
    [elapsedSeconds] from the clock). *)
Record SolveResult : Set := mkSolveResult {
  resMinedBlocks : MinedBlocks;
  numBlocksMined : Z
}.

(** One iteration of the loop over the lines of the output file. *)
Definition markLine (numBlocks : Z) (r : SolveResult) (line : jsstring)
  : SolveResult :=
  match parseInt (trim line) with
  | Some blockIndex =>
      if (0 <=? blockIndex) && (blockIndex <? numBlocks) then
        mkSolveResult (<[Z.to_nat blockIndex := 1]> (resMinedBlocks r))
                      (numBlocksMined r + 1)
      else r
  | None => r
  end.

(** runMineflow from the point where the solver has exited with code 0 and
    [outputContent] has been read from the output file.  A negative
    [numBlocks] makes [new Uint8Array(numBlocks)] throw. *)
Definition runMineflow (outputContent : jsstring) (nx ny nz : Z)
  : Completion SolveResult :=
  let lines := split_lines (trim outputContent) in
  let numBlocks := nx * ny * nz in
  if numBlocks <? 0 then Throw RangeError
  else
    let minedBlocks := replicate (Z.to_nat numBlocks) 0 in
    Normal (fold_left (markLine numBlocks) lines (mkSolveResult minedBlocks 0)).

(* ===================================================================== *)
(** ** Vocabulary of the statements *)
(* ===================================================================== *)


(** The grid and mask of the 2x2x1 scenarios. *)
Definition grid221 : BlockModel := mkBlockModel 2 2 1 [10; -5; 3; -1].
Definition mask221 : MinedBlocks := [1; 1; 0; 1].

(** The in-bounds neighbours of a block, as block indices. *)
Definition inBoundsNeighbors (model : BlockModel) (index : Z) : list Z :=
  (fun n => getBlockIndex (cx n) (cy n) (cz n) (nx model) (ny model)) <$>
  filter (fun n => outOfBounds n (nx model) (ny model) (nz model) = false)
         (neighbors (getBlockCoords index (nx model) (ny model))).

(** The largest distance between corresponding channels of two RGB
    colours is at most [tol]. *)
Definition closeColors (tol : float) (c1 c2 : Color) : bool :=
  match c1, c2 with
  | RGB r1 g1 b1, RGB r2 g2 b2 =>
      PrimFloat.leb (PrimFloat.abs (PrimFloat.sub r1 r2)) tol
      && PrimFloat.leb (PrimFloat.abs (PrimFloat.sub g1 g2)) tol
      && PrimFloat.leb (PrimFloat.abs (PrimFloat.sub b1 b2)) tol
  | _, _ => false
  end.


(** [m] is the least (greatest) element of [l]. *)
Definition isMinimum (m : Z) (l : list Z) : Prop :=
  m ∈ l /\ Forall (fun v => m <= v) l.
Definition isMaximum (m : Z) (l : list Z) : Prop :=
  m ∈ l /\ Forall (fun v => v <= m) l.


(** The test isBoundaryBlock applies to one neighbour. *)
Definition unminedInBounds (model : BlockModel) (mb : MinedBlocks)
           (n : Coords) : bool :=
  negb (outOfBounds n (nx model) (ny model) (nz model))
  && falsy (get mb (getBlockIndex (cx n) (cy n) (cz n) (nx model) (ny model))).

(** Number of quads in a geometry: four vertices of three coordinates
    each per quad. *)
Definition quadCount (g : Geometry) : Z := len (vertices g) / 12.

(** Number of quads SurfaceMesh adds for block [i]. *)
Definition blockQuads (model : BlockModel) (mb : MinedBlocks) (i : Z) : Z :=
  if isBoundaryBlock i model mb then
    len (List.filter
           (isExposed model mb (getBlockCoords i (nx model) (ny model)))
           faces)
  else 0.

(** *** Exposed internal faces, following the specification's wording

    "A face is exposed iff the neighbor across that face is in-bounds and
    unmined", over the six directions of 6-connectivity, for the faces of
    mined blocks. *)

Definition spec_inBounds (model : BlockModel) (c : Coords) : bool :=
  (0 <=? cx c) && (cx c <? nx model) &&
  (0 <=? cy c) && (cy c <? ny model) &&
  (0 <=? cz c) && (cz c <? nz model).

Definition spec_mined (mb : MinedBlocks) (i : Z) : bool :=
  negb (falsy (get mb i)).

(** Offsets along the model's x, y and z axes. *)
Definition directions : list (Z * Z * Z) :=
  [ (-1, 0, 0); (1, 0, 0); (0, -1, 0); (0, 1, 0); (0, 0, -1); (0, 0, 1) ].

Definition across (c : Coords) (d : Z * Z * Z) : Coords :=
  let '(a, b, e) := d in mkCoords (cx c + a) (cy c + b) (cz c + e).

Definition spec_exposedFace (model : BlockModel) (mb : MinedBlocks)
           (i : Z) (d : Z * Z * Z) : bool :=
  let n := across (getBlockCoords i (nx model) (ny model)) d in
  spec_mined mb i
  && spec_inBounds model n
  && negb (spec_mined mb (getBlockIndex (cx n) (cy n) (cz n)
                                        (nx model) (ny model))).

Definition spec_exposedInternalFaces (model : BlockModel) (mb : MinedBlocks)
  : list (Z * (Z * Z * Z)) :=
  flat_map (fun i => map (pair i)
                         (List.filter (spec_exposedFace model mb i) directions))
           (seqZ 0 (len (values model))).

(** *** Vocabulary for the render set *)

(** Block [i] passes every [continue] of the loop body. *)
Definition kept (p : Props) (i : Z) : bool :=
  negb (skipped p i (getBlockCoords i (nx (blockModel p)) (ny (blockModel p)))).

(** The indices [start], [start + s], [start + 2 s], ... below [total],
    in ascending order. *)
Definition strided (start total s : Z) : list Z :=
  map (fun k => start + k * s) (seqZ 0 (ceil_div (total - start) s)).

(** The effect of the [break]: outside a cross-section at most [room]
    further instances are emitted. *)
Definition capped (p : Props) (room : Z) (l : list Z) : list Z :=
  if isCrossSection p then l else take (Z.to_nat room) l.

(** A model of 250000 blocks viewed without slice, filter or toggle. *)
Definition props250k : Props :=
  mkProps (mkBlockModel 50 50 100 (replicate (Z.to_nat 250000) 0))
          None ViewAll None SliceZ SchemeValue false.

(** A model of 100001 blocks without a solution, the surface-only toggle
    switched on, no slice, view filter 'all'. *)
Definition propsToggle : Props :=
  mkProps (mkBlockModel 100001 1 1 (replicate (Z.to_nat 100001) 0))
          None ViewAll None SliceZ SchemeValue true.

(** The same model with every block mined, viewed through the
    'mined only' filter, toggle off, no slice. *)
Definition propsMinedOnly : Props :=
  mkProps (mkBlockModel 100001 1 1 (replicate (Z.to_nat 100001) 0))
          (Some (replicate (Z.to_nat 100001) 1))
          ViewMined None SliceZ SchemeValue false.

(** The 2x2x1 grid with its mask, sliced at x = 1. *)
Definition propsSlice : Props :=
  mkProps grid221 (Some mask221) ViewAll (Some 1) SliceX SchemeMined false.

(** *** Vocabulary for the solver output *)

(** The block index a line of the output file contributes, if any: the
    line parses and the index lies in [0, numBlocks). *)
Definition validIndex (numBlocks : Z) (line : jsstring) : option Z :=
  match parseInt (trim line) with
  | Some k => if (0 <=? k) && (k <? numBlocks) then Some k else None
  | None => None
  end.

Definition validIndices (numBlocks : Z) (lines : list jsstring) : list Z :=
  omap (validIndex numBlocks) lines.

(** Number of 1-entries of a mask. *)
Definition ones (mb : MinedBlocks) : Z := len (filter (fun v => v = 1) mb).

(** The mask of [numBlocks] entries that is 1 exactly on [seen]. *)
Definition indicator (numBlocks : Z) (seen : list Z) : MinedBlocks :=
  map (fun k => if bool_decide (k ∈ seen) then 1 else 0) (seqZ 0 numBlocks).

(** An output file naming block 2 twice, with a non-numeric line and two
    out-of-range lines. *)
Definition outputWithDuplicate : jsstring :=
  list_ascii_of_string "0
2
2
abc
17
-1
".

(** *** Vocabulary for the grid input file *)

Definition isSign (c : ascii) : bool :=
  Ascii.eqb c "-"%char || Ascii.eqb c "+"%char.



Definition isDigit (c : ascii) : bool :=
  match digit c with Some _ => true | None => false end.


(* ===================================================================== *)
(** ** Further vocabulary: grid and boundary *)
(* ===================================================================== *)

(** [!minedBlocks[k]] *)
Definition unmined (mb : MinedBlocks) (k : Z) : bool := falsy (get mb k).

(** The empty geometry SurfaceMesh starts from. *)
Definition emptyGeometry : Geometry := mkGeometry [] [] [] [].



(* ===================================================================== *)
(** ** components/Visualization3D.tsx: hover picking *)
(* ===================================================================== *)

(** The three numbers BlockInstances pushes for block [i]: the centred
    position with the model's z as the render y. *)
Definition renderPosition (model : BlockModel) (i : Z) : list float :=
  let coords := getBlockCoords i (nx model) (ny model) in
  [ PrimFloat.sub (float_of_Z (cx coords)) (half (nx model));
    PrimFloat.sub (float_of_Z (cz coords)) (half (nz model));
    PrimFloat.sub (float_of_Z (cy coords)) (half (ny model)) ].

(** A call [onBlockHover(blockIndex, [x, y, z])]. *)
Inductive HoverCall : Set :=
| Hover (blockIndex : option Z) (position : list float).

(** handlePointerMove with a hover callback and a mounted mesh present;
    [instanceId] is [event.instanceId], [None] for [undefined].  The
    result is the call made, if any.  An [undefined] block index turns
    every coordinate into NaN. *)
Definition handlePointerMove (model : BlockModel)
           (instanceToBlockIndex : list Z) (instanceId : option Z)
  : option HoverCall :=
  match instanceId with
  | Some id =>
      if id <? len instanceToBlockIndex then
        match get instanceToBlockIndex id with
        | Some blockIndex =>
            Some (Hover (Some blockIndex) (renderPosition model blockIndex))
        | None => Some (Hover None [nan; nan; nan])
        end
      else None
  | None => None
  end.

(** Entries [3 id], [3 id + 1], [3 id + 2] of a position buffer. *)
Definition positionAt (positions : list float) (id : Z) : list float :=
  take 3 (drop (Z.to_nat (3 * id)) positions).

(** A geometry with [q] quads: four vertices per quad in the vertex,
    colour and normal buffers, six indices per quad, every index naming
    an existing vertex. *)
Definition quadsWellFormed (q : Z) (g : Geometry) : Prop :=
  0 <= q /\
  len (vertices g) = 12 * q /\
  len (normals g) = 12 * q /\
  len (gColors g) = 4 * q /\
  len (indices g) = 6 * q /\
  Forall (fun k => 0 <= k < 4 * q) (indices g).

(* ===================================================================== *)
(** ** lib/fileParser.ts: parseOutputFile and exportToCSV;
       electron/main.ts: the export-results handler *)
(* ===================================================================== *)

(** [String(n)] for an integer [n]: its decimal numeral (integers below
    1e21 are written without exponent). *)
Definition toString (z : Z) : jsstring :=
  list_ascii_of_string (NilZero.string_of_int (Z.to_int z)).

(** A typed-array or array element inside a template literal. *)
Definition showEntry (v : option Z) : jsstring :=
  match v with
  | Some z => toString z
  | None => list_ascii_of_string "undefined"
  end.

(** [lines.join(sep)] *)
Fixpoint join (sep : jsstring) (l : list jsstring) : jsstring :=
  match l with
  | [] => []
  | [a] => a
  | a :: rest => a ++ sep ++ join sep rest
  end.

(** The two errors parseOutputFile throws; [value] is what parseInt
    returned, [None] for NaN. *)
Inductive OutputError : Set :=
| OutputCountMismatch (numBlocks actual : Z)
| InvalidOutputValue (lineNumber : Z) (value : option Z).

(** The loop of parseOutputFile, entered at index [i]. *)
Fixpoint parseFlags (lines : list jsstring) (i : Z) (result : list Z)
  : list Z + OutputError :=
  match lines with
  | [] => inl result
  | line :: rest =>
      let value := parseInt (trim line) in
      match value with
      | Some 0 | Some 1 =>
          parseFlags rest (i + 1)
                     (<[Z.to_nat i := default 0 value]> result)
      | _ => inr (InvalidOutputValue (i + 1) value)
      end
  end.

(** parseOutputFile: the returned array on the left, the thrown error on
    the right. *)
Definition parseOutputFile (content : jsstring) (numBlocks : Z)
  : list Z + OutputError :=
  let lines := split_lines (trim content) in
  if negb (len lines =? numBlocks) then
    inr (OutputCountMismatch numBlocks (len lines))
  else
    parseFlags lines 0 (replicate (Z.to_nat numBlocks) 0).

Definition csvHeader : jsstring := list_ascii_of_string "x,y,z,value,mined".

Definition comma : jsstring := [","%char].

(** [`${x},${y},${z},${value},${mined}`] *)
Definition csvRow (x y z : Z) (value mined : option Z) : jsstring :=
  toString x ++ comma ++ toString y ++ comma ++ toString z ++ comma
  ++ showEntry value ++ comma ++ showEntry mined.

(** The body of the innermost loop of exportToCSV on the state
    [(lines, idx)]. *)
Definition csvX (model : BlockModel) (mb : MinedBlocks) (z y : Z)
           (st : list jsstring * Z) (x : Z) : list jsstring * Z :=
  let '(lines, idx) := st in
  (lines ++ [csvRow x y z (get (values model) idx) (get mb idx)], idx + 1).

(** [for (let x = 0; x < model.nx; x++)] *)
Definition csvY (model : BlockModel) (mb : MinedBlocks) (z : Z)
           (st : list jsstring * Z) (y : Z) : list jsstring * Z :=
  fold_left (csvX model mb z y) (seqZ 0 (nx model)) st.

(** [for (let y = 0; y < model.ny; y++)] *)
Definition csvZ (model : BlockModel) (mb : MinedBlocks)
           (st : list jsstring * Z) (z : Z) : list jsstring * Z :=
  fold_left (csvY model mb z) (seqZ 0 (ny model)) st.

(** The lines exportToCSV collects before joining them. *)
Definition csvLines (model : BlockModel) (mb : MinedBlocks) : list jsstring :=
  fst (fold_left (csvZ model mb) (seqZ 0 (nz model)) ([csvHeader], 0)).

Definition exportToCSV (model : BlockModel) (mb : MinedBlocks) : jsstring :=
  join [LF] (csvLines model mb).

(** The text the export-results handler writes for [data]:
    [Array.from(data).join('\n')]. *)
Definition exportResults (data : list Z) : jsstring :=
  join [LF] (map toString data).

(** The UTF-8 bytes of a string of code units below 256, as
    [new Uint8Array(await blob.arrayBuffer())] yields them. *)
Definition utf8 (s : jsstring) : list Z :=
  flat_map (fun c =>
              let n := Z.of_N (N_of_ascii c) in
              if n <? 128 then [n] else [192 + n / 64; 128 + n mod 64]) s.

(** What handleExportCSV of the results panel has written once a path
    was chosen: the export-results handler applied to the bytes of the
    CSV text. *)
Definition handleExportCSV (model : BlockModel) (mb : MinedBlocks) : jsstring :=
  exportResults (utf8 (exportToCSV model mb)).

(** The data row exportToCSV writes for block [i]. *)
Definition csvRowOf (model : BlockModel) (mb : MinedBlocks) (i : Z) : jsstring :=
  let c := getBlockCoords i (nx model) (ny model) in
  csvRow (cx c) (cy c) (cz c) (get (values model) i) (get mb i).

(** The block indices in the order of the loops z, y, x. *)
Definition gridIndices (nx ny nz : Z) : list Z :=
  flat_map (fun z =>
    flat_map (fun y =>
      flat_map (fun x => [getBlockIndex x y z nx ny]) (seqZ 0 nx))
      (seqZ 0 ny))
    (seqZ 0 nz).

(** A character that is neither white space nor a line feed. *)
Definition plainChar (c : ascii) : Prop :=
  isWhiteSpace c = false /\ c <> LF.

(** What parseInt makes of a line of the output file. *)
Definition flagOf (line : jsstring) : option Z := parseInt (trim line).

Definition isFlag (v : option Z) : Prop := v = Some 0 \/ v = Some 1.

(* ===================================================================== *)
(** ** Further vocabulary: solver output *)
(* ===================================================================== *)

(** Two output files with the same lines in a different order. *)
Definition outputAscending : jsstring :=
  list_ascii_of_string "0
2
3".

Definition outputDescending : jsstring :=
  list_ascii_of_string "3
2
0".

(** The indices of the output file naming block 2 twice, each once. *)
Definition outputWithoutDuplicate : jsstring :=
  list_ascii_of_string "2
0".


(** A 2x2x1 grid with the values 5, -3, 7, -1. *)
Definition grid221values : BlockModel := mkBlockModel 2 2 1 [5; -3; 7; -1].
(* ===================================================================== *)
(** ** components/Controls.tsx *)
(* ===================================================================== *)

(** [getMaxLayer]: the upper end of the layer slider. *)
Definition getMaxLayer (d : SliceDimension) (model : BlockModel) : Z :=
  match d with
  | SliceX => nx model - 1
  | SliceY => ny model - 1
  | SliceZ => nz model - 1
  end.

(** [handleLayerChange] applied to the slider's value: -1 stands for all
    layers. *)
Definition handleLayerChange (value : Z) : option Z :=
  if value =? -1 then None else Some value.

(** *** Vocabulary for cross-sections *)

(** The indices of the blocks of layer [layer] along [d], in ascending
    order. *)
Definition layerIndices (d : SliceDimension) (layer nx ny nz : Z) : list Z :=
  match d with
  | SliceX =>
      flat_map (fun z =>
        map (fun y => getBlockIndex layer y z nx ny) (seqZ 0 ny)) (seqZ 0 nz)
  | SliceY =>
      flat_map (fun z =>
        map (fun x => getBlockIndex x layer z nx ny) (seqZ 0 nx)) (seqZ 0 nz)
  | SliceZ =>
      flat_map (fun y =>
        map (fun x => getBlockIndex x y layer nx ny) (seqZ 0 nx)) (seqZ 0 ny)
  end.

(** The number of blocks of one layer across [d]. *)
Definition layerSize (d : SliceDimension) (model : BlockModel) : Z :=
  match d with
  | SliceX => ny model * nz model
  | SliceY => nx model * nz model
  | SliceZ => nx model * ny model
  end.

(** A 400x300x2 model of 240000 blocks, sliced at layer z = 1 by the
    slider. *)
Definition propsLargeSlice : Props :=
  mkProps (mkBlockModel 400 300 2 (replicate (Z.to_nat 240000) 0))
          None ViewAll (handleLayerChange 1) SliceZ SchemeValue false.

(* ===================================================================== *)
(** ** App.tsx *)
(* ===================================================================== *)

(** The state of the App component and its event handlers.  The two
    asynchronous handlers are split at their [await]: the part up to the
    call, and the part that runs once the promise settles.  [pending]
    is the call in flight, with the arguments its closure captured. *)
Module App.

(** What [setError] is given. *)
Inductive Message : Set :=
| ReadFailure                      (* readFile rejected *)
| ParseFailure (e : Error)         (* the message of parseDatFile's error *)
| NoDataFileLoaded                 (* 'No data file loaded' *)
| SolveFailure                     (* solve rejected *)
| ExportFailure.                   (* saveFile or exportResults rejected *)

Inductive Pending : Set :=
| Idle
| Reading (filePath : jsstring) (nx ny nz : Z)
| Solving (dataPath : jsstring) (nx ny nz : Z).

Record State : Set := mkState {
  blockModel : option BlockModel;
  solveResult : option SolveResult;
  isLoading : bool;
  error : option Message;
  dataFilePath : option jsstring;
  solveCount : Z;
  viewMode : ViewMode;
  currentLayer : option Z;
  sliceDimension : SliceDimension;
  colorScheme : ColorScheme;
  showWireframe : bool;
  pending : Pending
}.

(** The [useState] initial values. *)
Definition initial : State :=
  mkState None None false None None 0 ViewAll None SliceZ SchemeValue false Idle.

Definition setBlockModel (v : option BlockModel) (s : State) : State :=
  mkState v (solveResult s) (isLoading s) (error s) (dataFilePath s)
          (solveCount s) (viewMode s) (currentLayer s) (sliceDimension s)
          (colorScheme s) (showWireframe s) (pending s).

Definition setSolveResult (v : option SolveResult) (s : State) : State :=
  mkState (blockModel s) v (isLoading s) (error s) (dataFilePath s)
          (solveCount s) (viewMode s) (currentLayer s) (sliceDimension s)
          (colorScheme s) (showWireframe s) (pending s).

Definition setIsLoading (v : bool) (s : State) : State :=
  mkState (blockModel s) (solveResult s) v (error s) (dataFilePath s)
          (solveCount s) (viewMode s) (currentLayer s) (sliceDimension s)
          (colorScheme s) (showWireframe s) (pending s).

Definition setError (v : option Message) (s : State) : State :=
  mkState (blockModel s) (solveResult s) (isLoading s) v (dataFilePath s)
          (solveCount s) (viewMode s) (currentLayer s) (sliceDimension s)
          (colorScheme s) (showWireframe s) (pending s).

Definition setDataFilePath (v : option jsstring) (s : State) : State :=
  mkState (blockModel s) (solveResult s) (isLoading s) (error s) v
          (solveCount s) (viewMode s) (currentLayer s) (sliceDimension s)
          (colorScheme s) (showWireframe s) (pending s).

Definition setSolveCount (v : Z) (s : State) : State :=
  mkState (blockModel s) (solveResult s) (isLoading s) (error s)
          (dataFilePath s) v (viewMode s) (currentLayer s) (sliceDimension s)
          (colorScheme s) (showWireframe s) (pending s).

Definition setViewMode (v : ViewMode) (s : State) : State :=
  mkState (blockModel s) (solveResult s) (isLoading s) (error s)
          (dataFilePath s) (solveCount s) v (currentLayer s) (sliceDimension s)
          (colorScheme s) (showWireframe s) (pending s).

Definition setCurrentLayer (v : option Z) (s : State) : State :=
  mkState (blockModel s) (solveResult s) (isLoading s) (error s)
          (dataFilePath s) (solveCount s) (viewMode s) v (sliceDimension s)
          (colorScheme s) (showWireframe s) (pending s).

Definition setSliceDimension (v : SliceDimension) (s : State) : State :=
  mkState (blockModel s) (solveResult s) (isLoading s) (error s)
          (dataFilePath s) (solveCount s) (viewMode s) (currentLayer s) v
          (colorScheme s) (showWireframe s) (pending s).

Definition setColorScheme (v : ColorScheme) (s : State) : State :=
  mkState (blockModel s) (solveResult s) (isLoading s) (error s)
          (dataFilePath s) (solveCount s) (viewMode s) (currentLayer s)
          (sliceDimension s) v (showWireframe s) (pending s).

Definition setShowWireframe (v : bool) (s : State) : State :=
  mkState (blockModel s) (solveResult s) (isLoading s) (error s)
          (dataFilePath s) (solveCount s) (viewMode s) (currentLayer s)
          (sliceDimension s) (colorScheme s) v (pending s).

Definition setPending (v : Pending) (s : State) : State :=
  mkState (blockModel s) (solveResult s) (isLoading s) (error s)
          (dataFilePath s) (solveCount s) (viewMode s) (currentLayer s)
          (sliceDimension s) (colorScheme s) (showWireframe s) v.

(** A string in a condition: the empty string is falsy. *)
Definition truthy (s : jsstring) : bool :=
  match s with [] => false | _ :: _ => true end.

(** How a promise settles. *)
Inductive ReadOutcome : Set :=
| ReadResolved (content : jsstring)
| ReadRejected.

(** [window.mineflow.solve]: the solver ran and left [outputContent] in
    its output file, or the call was rejected before that. *)
Inductive SolveOutcome : Set :=
| SolverExited (outputContent : jsstring)
| SolveRejected.

(** handleFileUpload up to [await window.mineflow.readFile(filePath)]. *)
Definition handleFileUpload_call (filePath : jsstring) (nx ny nz : Z)
           (s : State) : State :=
  setPending (Reading filePath nx ny nz) (setError None (setIsLoading true s)).

(** handleFileUpload from the point where readFile has settled. *)
Definition handleFileUpload_resume (o : ReadOutcome) (filePath : jsstring)
           (nx ny nz : Z) (s : State) : State :=
  setPending Idle
    match o with
    | ReadResolved content =>
        match parseDatFile content nx ny nz with
        | Normal model =>
            setIsLoading false
              (setCurrentLayer None
                 (setSolveResult None
                    (setDataFilePath (Some filePath)
                       (setBlockModel (Some model) s))))
        | Throw e => setIsLoading false (setError (Some (ParseFailure e)) s)
        end
    | ReadRejected => setIsLoading false (setError (Some ReadFailure) s)
    end.

(** FileUpload's handleLoad. *)
Definition handleLoad (selectedFile : jsstring) (nx ny nz : Z) (s : State)
  : State :=
  if truthy selectedFile && (0 <? nx) && (0 <? ny) && (0 <? nz)
  then handleFileUpload_call selectedFile nx ny nz s
  else s.

(** handleSolve up to [await window.mineflow.solve(dataFilePath, params)],
    with the dimensions of [params]. *)
Definition handleSolve_call (nx ny nz : Z) (s : State) : State :=
  match dataFilePath s with
  | Some path =>
      if truthy path
      then setPending (Solving path nx ny nz)
             (setError None (setIsLoading true s))
      else setError (Some NoDataFileLoaded) s
  | None => setError (Some NoDataFileLoaded) s
  end.

(** handleSolve from the point where solve has settled; the main process
    answers with what runMineflow returns. *)
Definition handleSolve_resume (o : SolveOutcome) (nx ny nz : Z) (s : State)
  : State :=
  setPending Idle
    match o with
    | SolverExited outputContent =>
        match runMineflow outputContent nx ny nz with
        | Normal result =>
            setIsLoading false
              (setSolveCount (solveCount s + 1)
                 (setSolveResult (Some result) s))
        | Throw _ => setIsLoading false (setError (Some SolveFailure) s)
        end
    | SolveRejected => setIsLoading false (setError (Some SolveFailure) s)
    end.

(** ParameterPanel's handleSolve, past its own checks: the dimensions of
    [params] are those of the model it was rendered with. *)
Definition panelSolve (s : State) : State :=
  match blockModel s with
  | Some model => handleSolve_call (nx model) (ny model) (nz model) s
  | None => s
  end.

(** Controls' handleDimensionChange. *)
Definition handleDimensionChange (newDim : SliceDimension) (s : State)
  : State :=
  setCurrentLayer None (setSliceDimension newDim s).

(** handleExport when saveFile or exportResults rejects. *)
Definition handleExport_rejected (s : State) : State :=
  match solveResult s with
  | Some _ => setError (Some ExportFailure) s
  | None => s
  end.

(** What can happen to the component. *)
Inductive Event : Set :=
| ClickLoad (selectedFile : jsstring) (nx ny nz : Z)
| ReadSettles (o : ReadOutcome)
| ClickSolve
| SolveSettles (o : SolveOutcome)
| SelectViewMode (mode : ViewMode)
| SelectColorScheme (scheme : ColorScheme)
| CheckWireframe (checked : bool)
| ClickDimension (newDim : SliceDimension)
| MoveLayerSlider (value : Z)
| ExportRejects.

Definition hasModel (s : State) : bool :=
  match blockModel s with Some _ => true | None => false end.

Definition hasSolution (s : State) : bool :=
  match solveResult s with Some _ => true | None => false end.

(** Which events the rendered page can deliver: the load and solve
    buttons are disabled while [isLoading]; ParameterPanel and Controls
    are rendered only with a model, the three view controls and
    ResultsPanel only with a solution; the layer slider ranges from -1 to
    getMaxLayer; a promise settles only when the call is in flight. *)
Definition enabled (s : State) (ev : Event) : bool :=
  match ev with
  | ClickLoad _ _ _ _ => negb (isLoading s)
  | ReadSettles _ =>
      match pending s with Reading _ _ _ _ => true | _ => false end
  | ClickSolve => hasModel s && negb (isLoading s)
  | SolveSettles _ =>
      match pending s with Solving _ _ _ _ => true | _ => false end
  | SelectViewMode _ | SelectColorScheme _ | CheckWireframe _ =>
      hasModel s && hasSolution s
  | ClickDimension _ => hasModel s
  | MoveLayerSlider value =>
      match blockModel s with
      | Some model =>
          (-1 <=? value) && (value <=? getMaxLayer (sliceDimension s) model)
      | None => false
      end
  | ExportRejects => hasModel s && hasSolution s
  end.

Definition handle (ev : Event) (s : State) : State :=
  match ev with
  | ClickLoad selectedFile nx ny nz => handleLoad selectedFile nx ny nz s
  | ReadSettles o =>
      match pending s with
      | Reading filePath nx ny nz => handleFileUpload_resume o filePath nx ny nz s
      | _ => s
      end
  | ClickSolve => panelSolve s
  | SolveSettles o =>
      match pending s with
      | Solving _ nx ny nz => handleSolve_resume o nx ny nz s
      | _ => s
      end
  | SelectViewMode mode => setViewMode mode s
  | SelectColorScheme scheme => setColorScheme scheme s
  | CheckWireframe checked => setShowWireframe checked s
  | ClickDimension newDim => handleDimensionChange newDim s
  | MoveLayerSlider value => setCurrentLayer (handleLayerChange value) s
  | ExportRejects => handleExport_rejected s
  end.

Definition step (s : State) (ev : Event) : option State :=
  if enabled s ev then Some (handle ev s) else None.

(** The state after a sequence of events; [None] when one of them cannot
    be delivered. *)
Fixpoint run (evs : list Event) (s : State) : option State :=
  match evs with
  | [] => Some s
  | ev :: rest =>
      match step s ev with
      | Some s' => run rest s'
      | None => None
      end
  end.

(** The props App passes to Visualization3D, once a model is loaded. *)
Definition props (s : State) : option Props :=
  match blockModel s with
  | Some model =>
      Some (mkProps model
              match solveResult s with
              | Some result => Some (resMinedBlocks result)
              | None => None
              end
              (viewMode s) (currentLayer s) (sliceDimension s)
              (colorScheme s) (showWireframe s))
  | None => None
  end.

(** What the page shows in the main area. *)
Definition scene (s : State) : option Scene :=
  match props s with
  | Some p => Visualization3D p
  | None => None
  end.

(** The model has positive dimensions and one value per block. *)
Definition wellFormed (model : BlockModel) : Prop :=
  0 < nx model /\ 0 < ny model /\ 0 < nz model /\
  len (values model) = nx model * ny model * nz model.

(** The mask has one entry per block, each 0 or 1. *)
Definition fits (model : BlockModel) (result : SolveResult) : Prop :=
  len (resMinedBlocks result) = len (values model) /\
  Forall (fun v => v = 0 \/ v = 1) (resMinedBlocks result).

(** What every handler preserves. *)
Definition invariant (s : State) : Prop :=
  (forall model, blockModel s = Some model -> wellFormed model) /\
  (forall result, solveResult s = Some result ->
     exists model, blockModel s = Some model /\ fits model result) /\
  (blockModel s = None <-> dataFilePath s = None) /\
  (forall path, dataFilePath s = Some path -> truthy path = true) /\
  (forall layer, currentLayer s = Some layer ->
     exists model, blockModel s = Some model /\
       0 <= layer <= getMaxLayer (sliceDimension s) model) /\
  match pending s with
  | Idle => isLoading s = false
  | Reading filePath nx ny nz =>
      isLoading s = true /\ truthy filePath = true /\
      0 < nx /\ 0 < ny /\ 0 < nz
  | Solving _ px py pz =>
      isLoading s = true /\
      exists model, blockModel s = Some model /\
        px = nx model /\ py = ny model /\ pz = nz model
  end.

End App.

(** *** Vocabulary for the App component *)

(** A grid file with the values 5, -3, 7, -1. *)
Definition datFourValues : jsstring :=
  list_ascii_of_string "5
-3
7
-1".

Definition pathOfModel : jsstring := list_ascii_of_string "model.dat".

(** A session: load the 2x2x1 grid, solve it, move the layer slider to
    layer 0. *)
Definition session : list App.Event :=
  [ App.ClickLoad pathOfModel 2 2 1;
    App.ReadSettles (App.ReadResolved datFourValues);
    App.ClickSolve;
    App.SolveSettles (App.SolverExited outputWithDuplicate);
    App.MoveLayerSlider 0 ].

(** The state the session ends in. *)
Definition sessionEnd : App.State :=
  App.mkState (Some grid221values) (Some (mkSolveResult [1; 0; 1; 0] 3))
              false None (Some pathOfModel) 1 ViewAll (Some 0) SliceZ
              SchemeValue false App.Idle.

(** A file chosen in FileUpload together with the dimensions entered and
    the text readFile delivers for it. *)
Record Upload : Set := mkUpload {
  chosenFile : jsstring;
  gridNx : Z; gridNy : Z; gridNz : Z;
  fileContent : jsstring
}.

(** The upload is accepted and gives [model]. *)
Definition loads (u : Upload) (model : BlockModel) : Prop :=
  App.truthy (chosenFile u) = true /\
  0 < gridNx u /\ 0 < gridNy u /\ 0 < gridNz u /\
  parseDatFile (fileContent u) (gridNx u) (gridNy u) (gridNz u) = Normal model.

Definition clickLoad (u : Upload) : App.Event :=
  App.ClickLoad (chosenFile u) (gridNx u) (gridNy u) (gridNz u).

(** A session that loads a model, solves it, picks a view filter and
    loads a second model. *)
Definition reloadSession (first second : Upload) (outputContent : jsstring)
           (mode : ViewMode) : list App.Event :=
  [ clickLoad first;
    App.ReadSettles (App.ReadResolved (fileContent first));
    App.ClickSolve;
    App.SolveSettles (App.SolverExited outputContent);
    App.SelectViewMode mode;
    clickLoad second;
    App.ReadSettles (App.ReadResolved (fileContent second)) ].

Definition uploadFourValues : Upload :=
  mkUpload pathOfModel 2 2 1 datFourValues.

(* ===================================================================== *)
(** ** electron/mineflow.ts: the pit value on standard output *)
(* ===================================================================== *)









(* ===================================================================== *)
(** ** Further vocabulary: the pit surface *)
(* ===================================================================== *)

(** The boundary blocks of the model, in ascending index order. *)
Definition boundaryBlocks (model : BlockModel) (mb : MinedBlocks) : list Z :=
  List.filter (fun i => isBoundaryBlock i model mb)
              (seqZ 0 (len (values model))).
(* ===================================================================== *)
(** ** Further vocabulary: line endings *)
(* ===================================================================== *)

Definition CR : ascii := ascii_of_N 13.

Definition whiteSpace (s : jsstring) : Prop :=
  Forall (fun c => isWhiteSpace c = true) s.

(** The text begins (ends) with a character that is not white space. *)
Definition startsPlain (s : jsstring) : Prop :=
  match s with c :: _ => isWhiteSpace c = false | [] => False end.

Definition endsPlain (s : jsstring) : Prop := startsPlain (rev s).

(** Lines that can be joined into a text and split again: none holds a
    line feed, the first begins and the last ends with a character that
    is not white space. *)
Definition textLines (lines : list jsstring) : Prop :=
  Forall (Forall (fun c => c <> LF)) lines /\
  startsPlain (hd [] lines) /\ endsPlain (List.last lines []).

(** The lines of a text with Windows line ends, as [split('\n')] sees
    them: every line but the last keeps its carriage return. *)
Fixpoint crlfLines (lines : list jsstring) : list jsstring :=
  match lines with
  | [] => []
  | [a] => [a]
  | a :: rest => (a ++ [CR]) :: crlfLines rest
  end.

(** A grid file of three values with Windows line ends and a final line
    end, and the same file with Unix line ends. *)
Definition threeLines : list jsstring :=
  [list_ascii_of_string "5"; list_ascii_of_string "-3"; list_ascii_of_string "7"].

(* ===================================================================== *)
(** ** Further vocabulary: grid input file *)
(* ===================================================================== *)


(* ===================================================================== *)
(** ** Grid indexing *)
(* ===================================================================== *)

Section GridIndex.

Variables nx0 ny0 : Z.
Hypothesis nx_pos : 0 < nx0.
Hypothesis ny_pos : 0 < ny0.

Lemma index_split (x y z : Z) :
  getBlockIndex x y z nx0 ny0 = x + nx0 * (y + ny0 * z).
Proof. unfold getBlockIndex. ring. Qed.

Lemma coords_of_index (x y z : Z) :
  0 <= x < nx0 -> 0 <= y < ny0 -> 0 <= z ->
  getBlockCoords (getBlockIndex x y z nx0 ny0) nx0 ny0 = mkCoords x y z.
Proof using nx_pos ny_pos.
  intros Hx Hy Hz.
  assert (Hq : (x + nx0 * (y + ny0 * z)) / nx0 = y + ny0 * z).
  { replace (x + nx0 * (y + ny0 * z)) with (x + (y + ny0 * z) * nx0) by ring.
    rewrite Z.div_add by lia. rewrite (Z.div_small x nx0) by lia. lia. }
  assert (Hnn : 0 <= x + nx0 * (y + ny0 * z)) by nia.
  unfold getBlockCoords. rewrite index_split, Hq. f_equal.
  - rewrite Z.rem_mod_nonneg by lia.
    replace (x + nx0 * (y + ny0 * z)) with (x + (y + ny0 * z) * nx0) by ring.
    rewrite Z.mod_add by lia. apply Z.mod_small; lia.
  - rewrite Z.rem_mod_nonneg by nia.
    replace (y + ny0 * z) with (y + z * ny0) by ring.
    rewrite Z.mod_add by lia. apply Z.mod_small; lia.
  - rewrite <- Z.div_div by lia. rewrite Hq.
    replace (y + ny0 * z) with (y + z * ny0) by ring.
    rewrite Z.div_add by lia. rewrite (Z.div_small y ny0) by lia. lia.
Qed.

End GridIndex.

(** C1: for a grid with positive dimensions and an in-range coordinate
    [(x,y,z)], [getBlockCoords (getBlockIndex x y z nx ny) nx ny] is exactly
    [(x,y,z)], with [getBlockIndex] computing [x + y*nx + z*nx*ny] and
    [getBlockCoords] computing [(i % nx, floor(i/nx) % ny, floor(i/(nx*ny)))]. *)
Theorem getBlockCoords_getBlockIndex (nx ny nz x y z : Z) :
  0 < nx -> 0 < ny -> 0 < nz ->
  0 <= x < nx -> 0 <= y < ny -> 0 <= z < nz ->
  getBlockIndex x y z nx ny = x + y * nx + z * nx * ny /\
  (forall i, getBlockCoords i nx ny =
             mkCoords (Z.rem i nx) (Z.rem (i / nx) ny) (i / (nx * ny))) /\
  getBlockCoords (getBlockIndex x y z nx ny) nx ny = mkCoords x y z.
Proof.
  intros Hnx Hny Hnz Hx Hy Hz. split; [reflexivity|]. split; [reflexivity|].
  apply coords_of_index; lia.
Qed.

(** The round trip on the 4x5x6 grid at (1, 2, 3). *)
Lemma getBlockCoords_getBlockIndex_witness :
  getBlockIndex 1 2 3 4 5 = 69 /\
  getBlockCoords (getBlockIndex 1 2 3 4 5) 4 5 = mkCoords 1 2 3.
Proof.
  destruct (getBlockCoords_getBlockIndex 4 5 6 1 2 3) as (_ & _ & H);
    [lia | lia | lia | lia | lia | lia |].
  split; [reflexivity | exact H].
Defined.

(* ===================================================================== *)
(** ** Boundary blocks *)
(* ===================================================================== *)

Lemma scanNeighbors_existsb (model : BlockModel) (mb : MinedBlocks) ns :
  scanNeighbors ns (nx model) (ny model) (nz model) mb
  = existsb (unminedInBounds model mb) ns.
Proof.
  induction ns as [|n ns IH]; [reflexivity|].
  cbn [scanNeighbors existsb]. unfold unminedInBounds at 1.
  destruct (outOfBounds n _ _ _); cbn [negb andb orb]; [exact IH|].
  destruct (falsy _); [reflexivity | exact IH].
Qed.

Lemma isBoundaryBlock_existsb (model : BlockModel) (mb : MinedBlocks) i :
  isBoundaryBlock i model mb
  = negb (falsy (get mb i))
    && existsb (unminedInBounds model mb)
               (neighbors (getBlockCoords i (nx model) (ny model))).
Proof.
  unfold isBoundaryBlock. rewrite scanNeighbors_existsb.
  destruct (falsy (get mb i)); reflexivity.
Qed.

(** C4, as the code decides it: on the 2x2x1 grid with mask [1,1,0,1],
    isBoundaryBlock applied to block 1 returns false.  The in-bounds
    neighbours of block 1 are blocks 0 and 3, both mined; the unmined
    block 2 is a neighbour of blocks 0 and 3, and isBoundaryBlock returns
    true for those two. *)
Theorem isBoundaryBlock_grid221 :
  isBoundaryBlock 1 grid221 mask221 = false /\
  inBoundsNeighbors grid221 1 = [0; 3] /\
  get mask221 0 = Some 1 /\ get mask221 3 = Some 1 /\
  get mask221 2 = Some 0 /\
  inBoundsNeighbors grid221 0 = [1; 2] /\
  inBoundsNeighbors grid221 3 = [2; 1] /\
  isBoundaryBlock 0 grid221 mask221 = true /\
  isBoundaryBlock 3 grid221 mask221 = true.
Proof. repeat split; vm_compute; reflexivity. Qed.

(** C4 fails as stated: the call does not return true. *)
Lemma isBoundaryBlock_grid221_block1_not_true :
  isBoundaryBlock 1 grid221 mask221 <> true.
Proof. vm_compute. discriminate. Qed.

(* ===================================================================== *)
(** ** Colour mapping *)
(* ===================================================================== *)

(** C6 at the input where it fails: with [maxAbsValue = 0] the division
    is carried out, [0 / 0] is NaN, every comparison with NaN is false and
    the last branch returns a colour whose green channel is NaN; the
    colour of value 0 on a scale with a non-zero maximum is (1, 1, 0).  An
    all-zero model reaches this call: its statistics have
    [maxAbsValue = 0] and BlockInstances colours its block with that
    colour. *)
Theorem valueToColor_zero_scale :
  PrimFloat.div 0 0 = nan /\
  valueToColor 0 0 = RGB 0 nan 1 /\
  valueToColor 0 1 = RGB 1 1 0 /\
  maxAbsValue (calculateStats (mkBlockModel 1 1 1 [0]) None) = Int 0 /\
  (colors <$> BlockInstances
     (mkProps (mkBlockModel 1 1 1 [0]) None ViewAll None SliceZ SchemeValue false))
  = Some [RGB 0 nan 1].
Proof. repeat split; vm_compute; reflexivity. Qed.

(** C7: the colour mapping has no jump at a segment breakpoint.  At
    magnitude 0.5 of the negative half the dark-red-to-bright-red segment
    ends on the colour the bright-red-to-orange segment starts from, and
    on the positive half the adjacent segments agree at 0.33 and at 0.67;
    the agreement is exact in binary64.  Accordingly valueToColor at the
    last binary64 value before a breakpoint and at the breakpoint differ
    by less than 1e-15 in every channel. *)
Theorem valueToColor_breakpoints :
  darkRedToBrightRed 0.5 = brightRedToOrange 0.5 /\
  yellowToGreen 0.33 = greenToCyan 0.33 /\
  greenToCyan 0.67 = cyanToBlue 0.67 /\
  valueToColor (PrimFloat.next_up (-0.5)) 1
    = darkRedToBrightRed (PrimFloat.next_down 0.5) /\
  valueToColor (-0.5) 1 = brightRedToOrange 0.5 /\
  valueToColor (PrimFloat.next_down 0.33) 1
    = yellowToGreen (PrimFloat.next_down 0.33) /\
  valueToColor 0.33 1 = greenToCyan 0.33 /\
  valueToColor (PrimFloat.next_down 0.67) 1
    = greenToCyan (PrimFloat.next_down 0.67) /\
  valueToColor 0.67 1 = cyanToBlue 0.67 /\
  closeColors 1e-15 (valueToColor (PrimFloat.next_up (-0.5)) 1)
                    (valueToColor (-0.5) 1) = true /\
  closeColors 1e-15 (valueToColor (PrimFloat.next_down 0.33) 1)
                    (valueToColor 0.33 1) = true /\
  closeColors 1e-15 (valueToColor (PrimFloat.next_down 0.67) 1)
                    (valueToColor 0.67 1) = true.
Proof. repeat split; vm_compute; reflexivity. Qed.

(* ===================================================================== *)
(** ** Statistics *)
(* ===================================================================== *)

Section StatsLoop.

Variable mb : option MinedBlocks.




(** Once the running minimum is an integer it stays one, and it is the
    least of its start value and the values seen. *)
Lemma statsLoop_min vs : forall i a m0,
  accMin a = Int m0 ->
  exists m, accMin (statsLoop mb vs i a) = Int m /\
            (m = m0 \/ m ∈ vs) /\ m <= m0 /\ Forall (fun v => m <= v) vs.
Proof.
  induction vs as [|v vs IH]; intros i a m0 Ha; cbn [statsLoop].
  - exists m0. repeat split; [assumption | now left | lia | constructor].
  - destruct (IH (i + 1) (statsStep mb a i v) (Z.min m0 v)) as (m & Hm & Hin & Hle & Hall).
    { cbn [statsStep accMin]. rewrite Ha. reflexivity. }
    exists m. split; [exact Hm|]. split; [|split].
    + rewrite elem_of_cons. destruct Hin as [->|Hin]; [|now right; right].
      destruct (Z.min_spec m0 v) as [[_ ->]|[_ ->]];
        [now left | now right; left].
    + lia.
    + constructor; [lia | exact Hall].
Qed.

Lemma statsLoop_max vs : forall i a m0,
  accMax a = Int m0 ->
  exists m, accMax (statsLoop mb vs i a) = Int m /\
            (m = m0 \/ m ∈ vs) /\ m0 <= m /\ Forall (fun v => v <= m) vs.
Proof.
  induction vs as [|v vs IH]; intros i a m0 Ha; cbn [statsLoop].
  - exists m0. repeat split; [assumption | now left | lia | constructor].
  - destruct (IH (i + 1) (statsStep mb a i v) (Z.max m0 v)) as (m & Hm & Hin & Hle & Hall).
    { cbn [statsStep accMax]. rewrite Ha. reflexivity. }
    exists m. split; [exact Hm|]. split; [|split].
    + rewrite elem_of_cons. destruct Hin as [->|Hin]; [|now right; right].
      destruct (Z.max_spec m0 v) as [[_ ->]|[_ ->]];
        [now right; left | now left].
    + lia.
    + constructor; [lia | exact Hall].
Qed.

Lemma statsLoop_min_nonempty v vs :
  exists m, accMin (statsLoop mb (v :: vs) 0 statsInit) = Int m /\
            isMinimum m (v :: vs).
Proof.
  cbn [statsLoop].
  destruct (statsLoop_min vs (0 + 1) (statsStep mb statsInit 0 v) v eq_refl)
    as (m & Hm & Hin & Hle & Hall).
  exists m. split; [exact Hm|]. split.
  - rewrite elem_of_cons. destruct Hin as [->|Hin]; [now left | now right].
  - constructor; assumption.
Qed.

Lemma statsLoop_max_nonempty v vs :
  exists m, accMax (statsLoop mb (v :: vs) 0 statsInit) = Int m /\
            isMaximum m (v :: vs).
Proof.
  cbn [statsLoop].
  destruct (statsLoop_max vs (0 + 1) (statsStep mb statsInit 0 v) v eq_refl)
    as (m & Hm & Hin & Hle & Hall).
  exists m. split; [exact Hm|]. split.
  - rewrite elem_of_cons. destruct Hin as [->|Hin]; [now left | now right].
  - constructor; assumption.
Qed.

End StatsLoop.




(* ===================================================================== *)
(** ** Surface mesh *)
(* ===================================================================== *)

Lemma len_app {A} (l k : list A) : len (l ++ k) = len l + len k.
Proof. unfold len. rewrite length_app. lia. Qed.

Lemma len_nonneg {A} (l : list A) : 0 <= len l.
Proof. unfold len. lia. Qed.

Lemma len_cons {A} (a : A) (l : list A) : len (a :: l) = 1 + len l.
Proof. unfold len. cbn [length]. lia. Qed.

Lemma len_nil {A} : len (@nil A) = 0.
Proof. reflexivity. Qed.

Lemma len_map {A B} (h : A -> B) (l : list A) : len (map h l) = len l.
Proof. unfold len. now rewrite length_map. Qed.

Lemma filter_map_length {A B} (h : A -> B) (P : B -> bool) (l : list A) :
  length (List.filter P (map h l)) = length (List.filter (fun a => P (h a)) l).
Proof.
  induction l as [|a l IH]; [reflexivity|]. cbn [map List.filter].
  destruct (P (h a)); cbn [length]; now rewrite IH.
Qed.

Lemma filter_existsb_false {A} (P : A -> bool) (l : list A) :
  existsb P l = false -> List.filter P l = [].
Proof.
  induction l as [|a l IH]; [reflexivity|]. cbn [existsb List.filter].
  destruct (P a); cbn [orb]; [discriminate | exact IH].
Qed.

Lemma filter_existsb_true {A} (P : A -> bool) (l : list A) :
  existsb P l = true -> (1 <= length (List.filter P l))%nat.
Proof.
  induction l as [|a l IH]; [discriminate|]. cbn [existsb List.filter].
  destruct (P a); cbn [orb length]; [lia | exact IH].
Qed.

Lemma filter_ext_length {A} (P Q : A -> bool) (l : list A) :
  (forall a, P a = Q a) -> List.filter P l = List.filter Q l.
Proof.
  intros H. induction l as [|a l IH]; [reflexivity|]. cbn [List.filter].
  now rewrite H, IH.
Qed.

Section Mesh.

Variables (model : BlockModel) (mb : MinedBlocks).

(** The face offsets of SurfaceMesh and the neighbour list of
    isBoundaryBlock enumerate the same six positions, in the same
    order, and these are the six directions of the specification. *)
Lemma faceNeighbor_faces c : map (faceNeighbor c) faces = neighbors c.
Proof.
  unfold faces, neighbors, faceNeighbor.
  cbn [map dx dy dz cx cy cz].
  rewrite !Z.add_0_r. reflexivity.
Qed.

Lemma across_directions c : map (across c) directions = neighbors c.
Proof.
  unfold directions, neighbors, across. cbn [map cx cy cz].
  rewrite !Z.add_0_r. reflexivity.
Qed.

Lemma outOfBounds_spec n :
  negb (outOfBounds n (nx model) (ny model) (nz model)) = spec_inBounds model n.
Proof.
  unfold outOfBounds, spec_inBounds.
  rewrite !negb_orb, <- !Z.leb_antisym, <- !Z.ltb_antisym. reflexivity.
Qed.

Lemma isExposed_unminedInBounds c f :
  isExposed model mb c f = unminedInBounds model mb (faceNeighbor c f).
Proof.
  unfold isExposed, unminedInBounds.
  fold (outOfBounds (faceNeighbor c f) (nx model) (ny model) (nz model)).
  destruct (outOfBounds _ _ _ _); reflexivity.
Qed.

Lemma spec_exposedFace_unminedInBounds i d :
  spec_exposedFace model mb i d
  = spec_mined mb i
    && unminedInBounds model mb
         (across (getBlockCoords i (nx model) (ny model)) d).
Proof.
  unfold spec_exposedFace, unminedInBounds, spec_mined.
  rewrite outOfBounds_spec, negb_involutive, andb_assoc. reflexivity.
Qed.

(** Per block, the faces SurfaceMesh emits are the exposed internal
    faces of the specification. *)
Lemma blockQuads_spec i :
  blockQuads model mb i
  = len (List.filter (spec_exposedFace model mb i) directions).
Proof.
  unfold blockQuads, len. set (c := getBlockCoords i (nx model) (ny model)).
  rewrite (filter_ext_length _ _ _ (isExposed_unminedInBounds c)).
  rewrite <- (filter_map_length (faceNeighbor c) (unminedInBounds model mb)).
  rewrite faceNeighbor_faces.
  rewrite (filter_ext_length _ _ _ (spec_exposedFace_unminedInBounds i)).
  fold c. rewrite isBoundaryBlock_existsb. fold c. unfold spec_mined.
  destruct (falsy (get mb i)); cbn [negb andb].
  - reflexivity.
  - rewrite <- (filter_map_length (across c) (unminedInBounds model mb)).
    rewrite across_directions.
    destruct (existsb _ _) eqn:He; [reflexivity|].
    now rewrite (filter_existsb_false _ _ He).
Qed.

Lemma blockQuads_range i : 0 <= blockQuads model mb i <= 6.
Proof.
  unfold blockQuads, len. destruct (isBoundaryBlock i model mb); [|lia].
  pose proof (List.filter_length_le
                (isExposed model mb (getBlockCoords i (nx model) (ny model)))
                faces) as H.
  change (length faces) with 6%nat in H. lia.
Qed.

Lemma blockQuads_boundary i :
  isBoundaryBlock i model mb = true -> 1 <= blockQuads model mb i.
Proof.
  intros Hb. unfold blockQuads, len. rewrite Hb.
  set (c := getBlockCoords i (nx model) (ny model)).
  rewrite (filter_ext_length _ _ _ (isExposed_unminedInBounds c)).
  rewrite <- (filter_map_length (faceNeighbor c) (unminedInBounds model mb)).
  rewrite faceNeighbor_faces.
  rewrite isBoundaryBlock_existsb in Hb. fold c in Hb.
  apply andb_true_iff in Hb as [_ Hb].
  apply filter_existsb_true in Hb. lia.
Qed.

(** A block with an exposed internal face is a boundary block. *)
Lemma exposedFace_boundary i :
  forallb (fun d => implb (spec_exposedFace model mb i d)
                          (isBoundaryBlock i model mb))
          directions = true.
Proof.
  apply forallb_forall. intros d Hd.
  rewrite spec_exposedFace_unminedInBounds, isBoundaryBlock_existsb.
  unfold spec_mined. destruct (falsy (get mb i)); cbn [negb andb]; [reflexivity|].
  destruct (unminedInBounds model mb (across _ d)) eqn:He; [|reflexivity].
  cbn [implb]. apply existsb_exists.
  exists (across (getBlockCoords i (nx model) (ny model)) d).
  split; [|exact He]. rewrite <- across_directions. now apply in_map.
Qed.

Section Block.

Variables (bx by_ bz : float) (color : Color).

Lemma addCorner_fold face cs : forall g,
  let g' := fold_left (addCorner bx by_ bz color face) cs g in
  indices g' = indices g /\
  len (vertices g') = len (vertices g) + 3 * len cs.
Proof.
  induction cs as [|[[c0 c1] c2] cs IH]; intros g; cbn [fold_left].
  - split; [reflexivity | unfold len; cbn [length]; lia].
  - destruct (IH (addCorner bx by_ bz color face g (c0, c1, c2))) as [Hi Hv].
    cbn zeta in Hi, Hv. rewrite Hi, Hv. cbn [addCorner indices vertices].
    split; [reflexivity|]. rewrite len_app. unfold len. cbn [length]. lia.
Qed.

Lemma addQuad_counts face g :
  len (indices (addQuad bx by_ bz color face g)) = len (indices g) + 6 /\
  len (vertices (addQuad bx by_ bz color face g))
  = len (vertices g) + 3 * len (corners face).
Proof.
  unfold addQuad. cbn [indices vertices].
  destruct (addCorner_fold face (corners face) g) as [Hi Hv].
  cbn zeta in Hi, Hv. rewrite !len_app, Hi, Hv.
  split; [unfold len; cbn [length]; lia | reflexivity].
Qed.

Lemma addFace_fold c fs : forall g,
  Forall (fun f => length (corners f) = 4%nat) fs ->
  let g' := fold_left (addFace model mb c bx by_ bz color) fs g in
  len (indices g')
  = len (indices g) + 6 * len (List.filter (isExposed model mb c) fs) /\
  len (vertices g')
  = len (vertices g) + 12 * len (List.filter (isExposed model mb c) fs).
Proof.
  induction fs as [|f fs IH]; intros g Hfs; cbn [fold_left List.filter].
  - unfold len; cbn [length]; lia.
  - inversion Hfs as [|? ? Hf Hfs']; subst.
    destruct (IH (addFace model mb c bx by_ bz color g f) Hfs') as [Hi Hv].
    cbn zeta in Hi, Hv. rewrite Hi, Hv. unfold addFace.
    destruct (isExposed model mb c f).
    + destruct (addQuad_counts f g) as [Hqi Hqv]. rewrite Hqi, Hqv.
      assert (Hc : len (corners f) = 4) by (unfold len; now rewrite Hf).
      rewrite Hc, len_cons. lia.
    + lia.
Qed.

End Block.

Lemma faces_corners : Forall (fun f => length (corners f) = 4%nat) faces.
Proof. repeat constructor. Qed.

Variables (scheme : ColorScheme) (stats : Stats).

Lemma addBlock_counts g i :
  len (indices (addBlock model mb scheme stats g i))
  = len (indices g) + 6 * blockQuads model mb i /\
  len (vertices (addBlock model mb scheme stats g i))
  = len (vertices g) + 12 * blockQuads model mb i.
Proof.
  unfold addBlock, blockQuads.
  destruct (isBoundaryBlock i model mb); cbn [negb]; [|lia].
  apply addFace_fold, faces_corners.
Qed.

Lemma addBlock_fold is_ : forall g,
  let g' := fold_left (addBlock model mb scheme stats) is_ g in
  let n := len (flat_map
                  (fun i => map (pair i)
                     (List.filter (spec_exposedFace model mb i) directions))
                  is_) in
  len (indices g') = len (indices g) + 6 * n /\
  len (vertices g') = len (vertices g) + 12 * n.
Proof.
  induction is_ as [|i is_ IH]; intros g; cbn [fold_left flat_map].
  - unfold len; cbn [length]; lia.
  - destruct (IH (addBlock model mb scheme stats g i)) as [Hi Hv].
    cbn zeta in Hi, Hv. cbn zeta. rewrite Hi, Hv, len_app.
    destruct (addBlock_counts g i) as [Hbi Hbv]. rewrite Hbi, Hbv.
    rewrite blockQuads_spec, len_map. lia.
Qed.

End Mesh.

(** C5, as the code behaves: SurfaceMesh emits one quad, that is two
    triangles, for every exposed internal face (a face of a mined block
    whose neighbour across the face is in bounds and unmined), so the
    number of quads equals the number of exposed internal faces and the
    number of triangles is twice that number; every block contributes
    between 0 and 6 quads; a block with an exposed internal face is a
    boundary block; a face whose neighbour would be out of bounds is
    never emitted. *)
Theorem SurfaceMesh_counts (model : BlockModel) (mb : MinedBlocks)
        (scheme : ColorScheme) :
  let g := SurfaceMesh model mb scheme in
  let exposed := len (spec_exposedInternalFaces model mb) in
  quadCount g = exposed /\
  triangleCount g = 2 * exposed /\
  (forall (stats : Stats) (g0 : Geometry) (i : Z),
     len (indices (addBlock model mb scheme stats g0 i))
     = len (indices g0) + 6 * blockQuads model mb i /\
     len (vertices (addBlock model mb scheme stats g0 i))
     = len (vertices g0) + 12 * blockQuads model mb i) /\
  (forall i, 0 <= blockQuads model mb i <= 6) /\
  (forall i, forallb (fun d => implb (spec_exposedFace model mb i d)
                                     (isBoundaryBlock i model mb))
                     directions = true) /\
  (forall c f,
     isExposed model mb c f
     = spec_inBounds model (faceNeighbor c f)
       && falsy (get mb (getBlockIndex (cx (faceNeighbor c f))
                                       (cy (faceNeighbor c f))
                                       (cz (faceNeighbor c f))
                                       (nx model) (ny model)))).
Proof.
  cbn zeta. unfold SurfaceMesh, spec_exposedInternalFaces, quadCount, triangleCount.
  destruct (addBlock_fold model mb scheme (calculateStats model (Some mb))
              (seqZ 0 (len (values model))) (mkGeometry [] [] [] []))
    as [Hi Hv].
  cbn zeta in Hi, Hv. rewrite Hi, Hv. cbn [indices vertices].
  change (len (@nil Z)) with 0. change (len (@nil float)) with 0.
  repeat split.
  - rewrite Z.add_0_l, Z.mul_comm. apply Z.div_mul. lia.
  - rewrite Z.add_0_l.
    replace (6 * _) with ((2 * len (flat_map
        (fun i => map (pair i)
           (List.filter (spec_exposedFace model mb i) directions))
        (seqZ 0 (len (values model))))) * 3) by lia.
    apply Z.div_mul. lia.
  - apply addBlock_counts.
  - apply addBlock_counts.
  - apply blockQuads_range.
  - apply blockQuads_range.
  - apply exposedFace_boundary.
  - intros c f. rewrite isExposed_unminedInBounds.
    unfold unminedInBounds. now rewrite outOfBounds_spec.
Qed.

(** C5 fails as stated: on the 2x1x1 grid with mask [1,0] there is one
    exposed internal face and SurfaceMesh produces two triangles. *)
Lemma SurfaceMesh_two_triangles_per_face :
  len (spec_exposedInternalFaces (mkBlockModel 2 1 1 [5; -5]) [1; 0]) = 1 /\
  triangleCount (SurfaceMesh (mkBlockModel 2 1 1 [5; -5]) [1; 0] SchemeValue) = 2 /\
  triangleCount (SurfaceMesh (mkBlockModel 2 1 1 [5; -5]) [1; 0] SchemeValue)
  <> len (spec_exposedInternalFaces (mkBlockModel 2 1 1 [5; -5]) [1; 0]).
Proof. repeat split; vm_compute; congruence. Qed.

(* ===================================================================== *)
(** ** Render set *)
(* ===================================================================== *)

Section CeilDiv.

Variable s : Z.
Hypothesis s_pos : 0 < s.

Lemma ceil_div_nonpos a : a <= 0 -> ceil_div a s <= 0.
Proof using s_pos.
  intros Ha. unfold ceil_div.
  assert (0 <= - a / s) by (apply Z.div_pos; lia). lia.
Qed.

Lemma ceil_div_step a : ceil_div a s = 1 + ceil_div (a - s) s.
Proof using s_pos.
  unfold ceil_div. replace (- (a - s)) with (- a + 1 * s) by ring.
  rewrite Z.div_add by lia. lia.
Qed.

Lemma ceil_div_pos a : 0 < a -> 1 <= ceil_div a s.
Proof using s_pos.
  intros Ha. unfold ceil_div.
  assert (- a / s < 0) by (apply Z.div_lt_upper_bound; lia). lia.
Qed.

Lemma ceil_div_le a m : a <= m * s -> ceil_div a s <= m.
Proof using s_pos.
  intros Ha. unfold ceil_div.
  assert (- m <= - a / s) by (apply Z.div_le_lower_bound; nia). lia.
Qed.

Lemma ceil_div_mul_ge a : a <= ceil_div a s * s.
Proof using s_pos.
  unfold ceil_div. pose proof (Z.mul_div_le (- a) s s_pos). nia.
Qed.

Lemma strided_nil start total : total <= start -> strided start total s = [].
Proof using s_pos.
  intros H. unfold strided.
  rewrite seqZ_nil; [reflexivity|]. apply ceil_div_nonpos. lia.
Qed.

Lemma strided_cons start total :
  start < total ->
  strided start total s = start :: strided (start + s) total s.
Proof using s_pos.
  intros H. unfold strided.
  rewrite (ceil_div_step (total - start)).
  replace (total - start - s) with (total - (start + s)) by ring.
  set (n := ceil_div (total - (start + s)) s).
  assert (Hn : 0 <= n).
  { pose proof (ceil_div_pos (total - start) ltac:(lia)) as Hp.
    rewrite ceil_div_step in Hp.
    replace (total - start - s) with (total - (start + s)) in Hp by ring.
    fold n in Hp. lia. }
  rewrite seqZ_cons by lia. cbn [map]. f_equal; [ring|].
  replace (Z.pred (1 + n)) with n by lia.
  change (Z.succ 0) with (1 + 0). rewrite <- fmap_add_seqZ.
  change (Z.add 1 <$> seqZ 0 n) with (map (Z.add 1) (seqZ 0 n)).
  rewrite map_map. apply map_ext. intros k. ring.
Qed.

Lemma strided_length start total :
  length (strided start total s) = Z.to_nat (ceil_div (total - start) s).
Proof. unfold strided. now rewrite length_map, length_seqZ. Qed.

End CeilDiv.

Lemma skipFactor_pos p : 0 < skipFactor p.
Proof.
  unfold skipFactor.
  destruct (negb (isFilteredView p) && negb (isCrossSection p)
            && (MAX_BLOCKS_TO_RENDER <? totalBlocks p)) eqn:E; [|lia].
  apply andb_true_iff in E as [_ E]. apply Z.ltb_lt in E.
  pose proof (ceil_div_pos MAX_BLOCKS_TO_RENDER eq_refl (totalBlocks p)) as H.
  unfold MAX_BLOCKS_TO_RENDER in *. lia.
Qed.

Lemma capped_nil p room : capped p room [] = [].
Proof. unfold capped. destruct (isCrossSection p); [reflexivity | apply take_nil]. Qed.

(** The loop emits, in ascending order, the strided indices that pass the
    filters, up to the cap; and it ends within the fuel it is given. *)
Lemma renderLoop_spec p stats : forall fuel i b,
  (Z.to_nat (totalBlocks p - i) <= fuel)%nat ->
  exists b',
    renderLoop fuel p stats i b = Some b' /\
    indexMapping b'
    = indexMapping b
      ++ capped p (MAX_BLOCKS_TO_RENDER - blocksRendered b)
           (List.filter (kept p) (strided i (totalBlocks p) (skipFactor p))) /\
    blocksRendered b'
    = blocksRendered b
      + len (capped p (MAX_BLOCKS_TO_RENDER - blocksRendered b)
               (List.filter (kept p) (strided i (totalBlocks p) (skipFactor p)))).
Proof.
  pose proof (skipFactor_pos p) as Hs.
  induction fuel as [|fuel IH]; intros i b Hfuel.
  - cbn [renderLoop]. destruct (Z.ltb_spec i (totalBlocks p)); [lia|].
    exists b. rewrite strided_nil by lia. cbn [List.filter].
    rewrite capped_nil, app_nil_r, len_nil. split; [reflexivity | split; [reflexivity | lia]].
  - cbn [renderLoop]. destruct (Z.ltb_spec i (totalBlocks p)) as [Hlt|Hge].
    2:{ exists b. rewrite strided_nil by lia. cbn [List.filter].
        rewrite capped_nil, app_nil_r, len_nil.
        split; [reflexivity | split; [reflexivity | lia]]. }
    rewrite (strided_cons _ Hs) by lia. cbn [List.filter].
    assert (Hk : kept p i = negb (skipped p i
                   (getBlockCoords i (nx (blockModel p)) (ny (blockModel p)))))
      by reflexivity.
    destruct (negb (isCrossSection p)
              && (MAX_BLOCKS_TO_RENDER <=? blocksRendered b)) eqn:Hbreak.
    + apply andb_true_iff in Hbreak as [Hcs Hfull].
      apply negb_true_iff in Hcs. apply Z.leb_le in Hfull.
      exists b. unfold capped. rewrite Hcs.
      replace (Z.to_nat (MAX_BLOCKS_TO_RENDER - blocksRendered b)) with 0%nat by lia.
      rewrite !take_0, app_nil_r, len_nil.
      split; [reflexivity | split; [reflexivity | lia]].
    + destruct (skipped p i _) eqn:Hskip; cbn [negb] in Hk; rewrite Hk.
      * apply IH. lia.
      * destruct (IH (i + skipFactor p)
                     (emit p stats i
                        (getBlockCoords i (nx (blockModel p)) (ny (blockModel p))) b))
          as (b' & Hrun & Hmap & Hcnt); [lia|].
        exists b'. split; [exact Hrun|].
        rewrite Hmap, Hcnt. cbn [emit indexMapping blocksRendered].
        unfold capped. destruct (isCrossSection p) eqn:Hcs.
        -- rewrite <- app_assoc, len_cons. cbn [app]. split; [reflexivity | lia].
        -- cbn [negb andb] in Hbreak. apply Z.leb_gt in Hbreak.
           replace (Z.to_nat (MAX_BLOCKS_TO_RENDER - blocksRendered b))
             with (S (Z.to_nat (MAX_BLOCKS_TO_RENDER - (blocksRendered b + 1))))
             by lia.
           cbn [take]. rewrite <- app_assoc, len_cons. cbn [app].
           split; [reflexivity | lia].
Qed.

(** BlockInstances always returns, and its index mapping is the capped,
    filtered, strided enumeration of the blocks. *)
Lemma BlockInstances_spec p :
  exists rs,
    BlockInstances p = Some rs /\
    instanceToBlockIndex rs
    = capped p MAX_BLOCKS_TO_RENDER
        (List.filter (kept p) (strided 0 (totalBlocks p) (skipFactor p))) /\
    count rs = len (instanceToBlockIndex rs) /\
    isLimited rs = (1 <? skipFactor p) && negb (isCrossSection p).
Proof.
  unfold BlockInstances.
  destruct (renderLoop_spec p (calculateStats (blockModel p) (minedBlocks p))
              (Z.to_nat (totalBlocks p)) 0 (mkBuffers [] [] [] 0))
    as (b & Hrun & Hmap & Hcnt); [lia|].
  rewrite Hrun. eexists. split; [reflexivity|].
  cbn [instanceToBlockIndex count isLimited indexMapping blocksRendered] in *.
  rewrite Z.sub_0_r in Hmap, Hcnt. rewrite Hmap, Hcnt. cbn [app].
  split; [reflexivity | split; [lia | reflexivity]].
Qed.

Lemma BlockInstances_returns p : is_Some (BlockInstances p).
Proof. destruct (BlockInstances_spec p) as (rs & -> & _). now exists rs. Qed.

Lemma filter_all_true {A} (P : A -> bool) (l : list A) :
  (forall a, a ∈ l -> P a = true) -> List.filter P l = l.
Proof.
  induction l as [|a l IH]; intros H; [reflexivity|]. cbn [List.filter].
  rewrite (H a) by (apply elem_of_cons; now left).
  f_equal. apply IH. intros x Hx. apply H, elem_of_cons. now right.
Qed.

Lemma ceil_div_1 a : ceil_div a 1 = a.
Proof. unfold ceil_div. rewrite Z.div_1_r. lia. Qed.

Lemma strided_1 total : strided 0 total 1 = seqZ 0 total.
Proof.
  unfold strided. rewrite Z.sub_0_r, ceil_div_1.
  rewrite <- (map_id (seqZ 0 total)) at 2. apply map_ext. intros k. lia.
Qed.

Lemma totalBlocks_nonneg p : 0 <= totalBlocks p.
Proof. apply len_nonneg. Qed.

(** The stride decision reads the view filter, the slice and the total
    only. *)
Lemma skipFactor_unfiltered p :
  currentLayer p = None -> viewMode p = ViewAll ->
  skipFactor p = if totalBlocks p <=? MAX_BLOCKS_TO_RENDER then 1
                 else ceil_div (totalBlocks p) MAX_BLOCKS_TO_RENDER.
Proof.
  intros Hl Hv. unfold skipFactor, isFilteredView, isCrossSection.
  rewrite Hl, Hv. cbn [negb andb].
  destruct (Z.ltb_spec MAX_BLOCKS_TO_RENDER (totalBlocks p)),
           (Z.leb_spec (totalBlocks p) MAX_BLOCKS_TO_RENDER); try reflexivity; lia.
Qed.

Lemma skipFactor_filtered p :
  isCrossSection p || isFilteredView p = true -> skipFactor p = 1.
Proof.
  intros H. unfold skipFactor.
  destruct (isFilteredView p), (isCrossSection p); cbn in H |- *;
    try reflexivity; discriminate.
Qed.

(** With the stride the code picks, the strided enumeration never has
    more than MAX elements. *)
Lemma strided_within_cap p :
  currentLayer p = None -> viewMode p = ViewAll ->
  ceil_div (totalBlocks p) (skipFactor p) <= MAX_BLOCKS_TO_RENDER.
Proof.
  intros Hl Hv. pose proof (skipFactor_pos p) as Hs.
  apply ceil_div_le; [exact Hs|].
  rewrite skipFactor_unfiltered by assumption.
  destruct (Z.leb_spec (totalBlocks p) MAX_BLOCKS_TO_RENDER) as [Hle|Hgt]; [lia|].
  pose proof (ceil_div_mul_ge MAX_BLOCKS_TO_RENDER eq_refl (totalBlocks p)). lia.
Qed.

Lemma kept_unfiltered p i :
  currentLayer p = None -> viewMode p = ViewAll ->
  showWireframe p = false \/ minedBlocks p = None ->
  kept p i = true.
Proof.
  intros Hl Hv Hw. unfold kept, skipped. rewrite Hl, Hv.
  destruct Hw as [-> | ->]; [|reflexivity].
  destruct (minedBlocks p); reflexivity.
Qed.

(** Without slice and view filter, and with the toggle without effect,
    BlockInstances emits exactly every stride-th block in ascending
    order. *)
Lemma BlockInstances_unfiltered p :
  currentLayer p = None -> viewMode p = ViewAll ->
  showWireframe p = false \/ minedBlocks p = None ->
  exists rs,
    BlockInstances p = Some rs /\
    instanceToBlockIndex rs
    = map (fun k => k * skipFactor p)
          (seqZ 0 (ceil_div (totalBlocks p) (skipFactor p))) /\
    count rs = ceil_div (totalBlocks p) (skipFactor p).
Proof.
  intros Hl Hv Hw. pose proof (skipFactor_pos p) as Hs.
  destruct (BlockInstances_spec p) as (rs & Hrun & Hmap & Hcnt & _).
  exists rs. split; [exact Hrun|].
  assert (Hn : 0 <= ceil_div (totalBlocks p) (skipFactor p)).
  { pose proof (totalBlocks_nonneg p) as Ht.
    destruct (Z.eq_dec (totalBlocks p) 0) as [->|Hne]; [reflexivity|].
    pose proof (ceil_div_pos _ Hs (totalBlocks p)). lia. }
  assert (Hall : instanceToBlockIndex rs
                 = strided 0 (totalBlocks p) (skipFactor p)).
  { rewrite Hmap, filter_all_true
      by (intros a _; now apply kept_unfiltered).
    unfold capped, isCrossSection. rewrite Hl. apply take_ge.
    rewrite strided_length, Z.sub_0_r.
    pose proof (strided_within_cap p Hl Hv). lia. }
  split.
  - rewrite Hall. unfold strided. rewrite Z.sub_0_r. apply map_ext. intros k. lia.
  - rewrite Hcnt, Hall. unfold len. rewrite strided_length, Z.sub_0_r. lia.
Qed.

Lemma Visualization3D_instanced p rs :
  showWireframe p = false \/ minedBlocks p = None ->
  BlockInstances p = Some rs ->
  Visualization3D p = Some (InstancedScene rs).
Proof.
  intros Hw Hrun. unfold Visualization3D. rewrite Hrun.
  destruct Hw as [-> | ->]; [reflexivity|].
  destruct (showWireframe p); reflexivity.
Qed.

(** C2: in the render-set builder, with no layer slice and view filter
    'all', the stride is 1 if the total block count is at most
    MAX = 100000 and ceil(total / MAX) otherwise; for total = 250000 it is
    3.  Visualization3D mounts the builder unless the surface-only toggle
    is on and a mask exists (then it mounts the surface mesh); mounted,
    the builder returns, visits every stride-th block in ascending index
    order and emits each of them, so that for total = 250000 exactly
    83334 instances are emitted. *)
Theorem BlockInstances_unfiltered_stride (p : Props) :
  currentLayer p = None -> viewMode p = ViewAll ->
  MAX_BLOCKS_TO_RENDER = 100000 /\
  skipFactor p = (if totalBlocks p <=? MAX_BLOCKS_TO_RENDER then 1
                  else ceil_div (totalBlocks p) MAX_BLOCKS_TO_RENDER) /\
  (totalBlocks p = 250000 -> skipFactor p = 3) /\
  (showWireframe p = false \/ minedBlocks p = None ->
   exists rs,
     Visualization3D p = Some (InstancedScene rs) /\
     BlockInstances p = Some rs /\
     instanceToBlockIndex rs
     = map (fun k => k * skipFactor p)
           (seqZ 0 (ceil_div (totalBlocks p) (skipFactor p))) /\
     count rs = ceil_div (totalBlocks p) (skipFactor p) /\
     (totalBlocks p = 250000 ->
      count rs = 83334 /\ len (instanceToBlockIndex rs) = 83334)).
Proof.
  intros Hl Hv.
  assert (H3 : totalBlocks p = 250000 -> skipFactor p = 3).
  { intros H250. rewrite skipFactor_unfiltered by assumption.
    rewrite H250. reflexivity. }
  split; [reflexivity|]. split; [now apply skipFactor_unfiltered|].
  split; [exact H3|]. intros Hw.
  destruct (BlockInstances_unfiltered p Hl Hv Hw) as (rs & Hrun & Hmap & Hcnt).
  exists rs. split; [now apply Visualization3D_instanced|].
  split; [exact Hrun|]. split; [exact Hmap|]. split; [exact Hcnt|].
  intros H250. rewrite Hcnt, Hmap. unfold len.
  rewrite length_map, length_seqZ, (H3 H250), H250.
  split; vm_compute; reflexivity.
Qed.

(** The stride and the instances of a 250000-block model, and the render
    set of the 2x2x1 grid. *)
Lemma BlockInstances_unfiltered_stride_witness :
  (skipFactor props250k = 3 /\
   exists rs,
     Visualization3D props250k = Some (InstancedScene rs) /\
     count rs = 83334) /\
  (exists rs,
     Visualization3D
       (mkProps grid221 None ViewAll None SliceZ SchemeMined false)
     = Some (InstancedScene rs) /\
     instanceToBlockIndex rs = [0; 1; 2; 3]).
Proof.
  split.
  - destruct (BlockInstances_unfiltered_stride props250k eq_refl eq_refl)
      as (_ & _ & H3 & Hrs).
    assert (H250 : totalBlocks props250k = 250000) by (vm_compute; reflexivity).
    split; [exact (H3 H250)|].
    destruct (Hrs (or_introl eq_refl)) as (rs & HV & _ & _ & _ & Hc).
    exists rs. split; [exact HV | exact (proj1 (Hc H250))].
  - destruct (BlockInstances_unfiltered_stride
                (mkProps grid221 None ViewAll None SliceZ SchemeMined false)
                eq_refl eq_refl)
      as (_ & _ & _ & Hrs).
    destruct (Hrs (or_introl eq_refl)) as (rs & HV & _ & Hmap & _).
    exists rs. split; [exact HV | exact Hmap].
Defined.

(** C3, as the code behaves: when a layer slice is set or the view filter
    is not 'all', the stride is 1.  With a slice set every block is visited
    and every block that passes the filters is emitted, whatever the
    total.  With only a view filter other than 'all', blocks are taken in
    ascending order with stride 1 until MAX = 100000 instances have been
    emitted.  The surface-only toggle does not enter the stride: with view
    filter 'all' and no slice the stride is 1 up to MAX blocks and
    ceil(total / MAX) beyond, whatever the toggle.  When the toggle is on
    and a mask exists, Visualization3D mounts the surface mesh, whose loop
    runs over every block. *)
Theorem BlockInstances_filtered_enumeration (p : Props) :
  exists rs,
    BlockInstances p = Some rs /\
    (isCrossSection p || isFilteredView p = true -> skipFactor p = 1) /\
    (isCrossSection p = true ->
     instanceToBlockIndex rs
     = List.filter (kept p) (seqZ 0 (totalBlocks p))) /\
    (isCrossSection p = false -> isFilteredView p = true ->
     instanceToBlockIndex rs
     = take (Z.to_nat MAX_BLOCKS_TO_RENDER)
            (List.filter (kept p) (seqZ 0 (totalBlocks p)))) /\
    (isCrossSection p = false -> isFilteredView p = false ->
     skipFactor p = if totalBlocks p <=? MAX_BLOCKS_TO_RENDER then 1
                    else ceil_div (totalBlocks p) MAX_BLOCKS_TO_RENDER) /\
    (forall mb, showWireframe p = true -> minedBlocks p = Some mb ->
     Visualization3D p
     = Some (SurfaceScene
               (fold_left (addBlock (blockModel p) mb (colorScheme p)
                                    (calculateStats (blockModel p) (Some mb)))
                          (seqZ 0 (totalBlocks p))
                          (mkGeometry [] [] [] [])))).
Proof.
  destruct (BlockInstances_spec p) as (rs & Hrun & Hmap & _).
  exists rs. split; [exact Hrun|]. split; [apply skipFactor_filtered|].
  split; [|split; [|split]].
  - intros Hcs. rewrite Hmap, skipFactor_filtered by (rewrite Hcs; reflexivity).
    unfold capped. rewrite Hcs, strided_1. reflexivity.
  - intros Hcs Hf.
    rewrite Hmap, skipFactor_filtered by (rewrite Hf; apply orb_true_r).
    unfold capped. rewrite Hcs, strided_1. reflexivity.
  - unfold isCrossSection, isFilteredView. intros Hcs Hf.
    apply skipFactor_unfiltered.
    + destruct (currentLayer p); [discriminate | reflexivity].
    + destruct (viewMode p); [reflexivity | discriminate | discriminate].
  - intros mb Hw Hmb. unfold Visualization3D. rewrite Hw, Hmb. reflexivity.
Qed.

(** The slice x = 1 of the 2x2x1 grid: stride 1, blocks 1 and 3. *)
Lemma BlockInstances_filtered_enumeration_witness :
  exists rs,
    BlockInstances propsSlice = Some rs /\
    skipFactor propsSlice = 1 /\
    instanceToBlockIndex rs = [1; 3].
Proof.
  destruct (BlockInstances_filtered_enumeration propsSlice)
    as (rs & Hrun & Hs & Hcs & _).
  exists rs. split; [exact Hrun|]. split.
  - apply Hs. reflexivity.
  - rewrite Hcs by reflexivity. reflexivity.
Defined.

Lemma get_replicate n v i :
  0 <= i < n -> get (replicate (Z.to_nat n) v) i = Some v.
Proof.
  intros Hi. unfold get. destruct (Z.ltb_spec i 0); [lia|].
  apply lookup_replicate_2. lia.
Qed.

(** C3 fails as stated.  With the surface-only toggle on, view filter
    'all' and no slice, a model of 100001 blocks is rendered with stride 2
    and only 50001 of its blocks are visited.  With the 'mined only'
    filter and every one of 100001 blocks mined, the stride is 1 but only
    100000 instances are emitted: the enumeration stops at the cap. *)
Lemma toggle_and_filter_do_not_force_full_enumeration :
  (showWireframe propsToggle = true /\
   totalBlocks propsToggle = 100001 /\
   skipFactor propsToggle = 2 /\
   skipFactor propsToggle <> 1 /\
   exists rs, Visualization3D propsToggle = Some (InstancedScene rs) /\
              BlockInstances propsToggle = Some rs /\
              count rs = 50001) /\
  (isFilteredView propsMinedOnly = true /\
   totalBlocks propsMinedOnly = 100001 /\
   (forall i, 0 <= i < 100001 -> kept propsMinedOnly i = true) /\
   skipFactor propsMinedOnly = 1 /\
   exists rs, BlockInstances propsMinedOnly = Some rs /\
              len (instanceToBlockIndex rs) = 100000).
Proof.
  assert (Ht : totalBlocks propsToggle = 100001) by (vm_compute; reflexivity).
  assert (Hm : totalBlocks propsMinedOnly = 100001) by (vm_compute; reflexivity).
  assert (Hs2 : skipFactor propsToggle = 2).
  { rewrite skipFactor_unfiltered by reflexivity. rewrite Ht. reflexivity. }
  split.
  - split; [reflexivity|]. split; [exact Ht|]. split; [exact Hs2|].
    split; [rewrite Hs2; discriminate|].
    destruct (BlockInstances_unfiltered propsToggle eq_refl eq_refl
                (or_intror eq_refl)) as (rs & Hrun & _ & Hcnt).
    exists rs. split; [apply Visualization3D_instanced; [now right | exact Hrun]|].
    split; [exact Hrun|]. rewrite Hcnt, Hs2, Ht. reflexivity.
  - assert (Hk : forall i, 0 <= i < 100001 -> kept propsMinedOnly i = true).
    { intros i Hi. unfold kept, skipped, propsMinedOnly.
      cbn [currentLayer minedBlocks showWireframe viewMode andb].
      rewrite get_replicate by lia. reflexivity. }
    split; [reflexivity|]. split; [exact Hm|]. split; [exact Hk|].
    assert (Hs1 : skipFactor propsMinedOnly = 1)
      by (apply skipFactor_filtered; reflexivity).
    split; [exact Hs1|].
    destruct (BlockInstances_spec propsMinedOnly) as (rs & Hrun & Hmap & _).
    exists rs. split; [exact Hrun|].
    rewrite Hmap, Hs1, strided_1, Hm.
    rewrite filter_all_true
      by (intros a Ha; apply Hk; apply elem_of_seqZ in Ha; lia).
    unfold capped, len. cbn [isCrossSection propsMinedOnly currentLayer].
    rewrite length_take, length_seqZ. vm_compute. reflexivity.
Qed.

(* ===================================================================== *)
(** ** Solver output *)
(* ===================================================================== *)

Lemma remove_dups_length_le (l : list Z) :
  (length (remove_dups l) <= length l)%nat.
Proof.
  induction l as [|x l IH]; [reflexivity|]. cbn [remove_dups].
  destruct (decide_rel elem_of x l); cbn [length]; lia.
Qed.

Lemma remove_dups_length_lt (l : list Z) :
  ~ NoDup l -> (length (remove_dups l) < length l)%nat.
Proof.
  induction l as [|x l IH]; intros Hd.
  - destruct Hd. constructor.
  - cbn [remove_dups]. pose proof (remove_dups_length_le l).
    destruct (decide_rel elem_of x l) as [Hin|Hnin]; cbn [length]; [lia|].
    assert (~ NoDup l) by (intros Hl; apply Hd; now constructor).
    specialize (IH ltac:(assumption)). lia.
Qed.

Section Marks.

Variable numBlocks : Z.

Lemma indicator_lookup seen (j : nat) :
  indicator numBlocks seen !! j
  = if decide (Z.of_nat j < numBlocks)
    then Some (if bool_decide (Z.of_nat j ∈ seen) then 1 else 0)
    else None.
Proof.
  unfold indicator.
  change (map ?f ?l) with (f <$> l). rewrite list_lookup_fmap.
  destruct (decide (Z.of_nat j < numBlocks)).
  - rewrite lookup_seqZ_lt by lia. reflexivity.
  - rewrite lookup_seqZ_ge by lia. reflexivity.
Qed.

Lemma indicator_length seen :
  length (indicator numBlocks seen) = Z.to_nat numBlocks.
Proof. unfold indicator. now rewrite length_map, length_seqZ. Qed.

Lemma indicator_nil :
  replicate (Z.to_nat numBlocks) 0 = indicator numBlocks [].
Proof.
  apply list_eq. intros j. rewrite indicator_lookup.
  destruct (decide (Z.of_nat j < numBlocks)).
  - rewrite lookup_replicate_2 by lia. reflexivity.
  - apply lookup_replicate_None. lia.
Qed.

Lemma indicator_insert seen k :
  0 <= k < numBlocks ->
  <[Z.to_nat k := 1]> (indicator numBlocks seen)
  = indicator numBlocks (seen ++ [k]).
Proof.
  intros Hk. apply list_eq. intros j.
  destruct (decide (j = Z.to_nat k)) as [->|Hne].
  - rewrite list_lookup_insert_eq by (rewrite indicator_length; lia).
    rewrite indicator_lookup, Z2Nat.id by lia.
    rewrite decide_True by lia.
    rewrite bool_decide_eq_true_2; [reflexivity|].
    apply elem_of_app. right. apply elem_of_cons. now left.
  - rewrite list_lookup_insert_ne by congruence.
    rewrite !indicator_lookup.
    destruct (decide (Z.of_nat j < numBlocks)); [|reflexivity].
    f_equal.
    rewrite (bool_decide_ext (Z.of_nat j ∈ seen ++ [k]) (Z.of_nat j ∈ seen));
      [reflexivity|].
    rewrite elem_of_app, elem_of_cons, elem_of_nil. intuition lia.
Qed.

Lemma validIndex_range line k :
  validIndex numBlocks line = Some k -> 0 <= k < numBlocks.
Proof.
  unfold validIndex. destruct (parseInt (trim line)) as [v|]; [|discriminate].
  destruct (Z.leb_spec 0 v), (Z.ltb_spec v numBlocks); cbn [andb];
    intros [= <-]; lia.
Qed.

Lemma markLine_validIndex r line :
  markLine numBlocks r line
  = match validIndex numBlocks line with
    | Some k => mkSolveResult (<[Z.to_nat k := 1]> (resMinedBlocks r))
                              (numBlocksMined r + 1)
    | None => r
    end.
Proof.
  unfold markLine, validIndex.
  destruct (parseInt (trim line)) as [v|]; [|reflexivity].
  destruct ((0 <=? v) && (v <? numBlocks)); reflexivity.
Qed.

(** Every valid line sets its entry and adds one to the count. *)
Lemma markLine_fold lines : forall seen r,
  resMinedBlocks r = indicator numBlocks seen ->
  numBlocksMined r = len seen ->
  let r' := fold_left (markLine numBlocks) lines r in
  resMinedBlocks r' = indicator numBlocks (seen ++ validIndices numBlocks lines) /\
  numBlocksMined r' = len (seen ++ validIndices numBlocks lines).
Proof.
  induction lines as [|line lines IH]; intros seen r Hmb Hn; cbn [fold_left].
  - cbn. rewrite app_nil_r. split; assumption.
  - rewrite markLine_validIndex. unfold validIndices. cbn [omap list_omap].
    change (list_omap ?f ?l) with (omap f l).
    destruct (validIndex numBlocks line) as [k|] eqn:Hk.
    + fold (validIndices numBlocks lines).
      replace (seen ++ k :: validIndices numBlocks lines)
        with ((seen ++ [k]) ++ validIndices numBlocks lines)
        by (now rewrite <- app_assoc).
      apply IH; cbn [resMinedBlocks numBlocksMined].
      * rewrite Hmb. apply indicator_insert. eapply validIndex_range, Hk.
      * rewrite Hn, len_app, len_cons, len_nil. lia.
    + apply IH; assumption.
Qed.

Lemma filter_indicator_length (seen l : list Z) :
  length (filter (fun v => v = 1)
            (map (fun k => if bool_decide (k ∈ seen) then 1 else 0) l))
  = length (filter (fun k => k ∈ seen) l).
Proof.
  induction l as [|k l IH]; [reflexivity|]. cbn [map].
  rewrite !filter_cons. destruct (decide (k ∈ seen)) as [Hin|Hnin].
  - rewrite bool_decide_eq_true_2 by assumption.
    rewrite decide_True by reflexivity. cbn [length]. now rewrite IH.
  - rewrite bool_decide_eq_false_2 by assumption.
    rewrite decide_False by discriminate. exact IH.
Qed.

(** The 1-entries of the indicator are the distinct indices seen. *)
Lemma ones_indicator seen :
  Forall (fun k => 0 <= k < numBlocks) seen ->
  ones (indicator numBlocks seen) = len (remove_dups seen).
Proof.
  intros Hrange. unfold ones, indicator, len. f_equal.
  rewrite filter_indicator_length.
  apply Permutation_length, NoDup_Permutation.
  - apply NoDup_filter, NoDup_seqZ.
  - apply NoDup_remove_dups.
  - intros x. rewrite list_elem_of_filter, elem_of_remove_dups, elem_of_seqZ.
    rewrite Forall_forall in Hrange. split; [tauto|].
    intros Hx. split; [exact Hx|]. specialize (Hrange x Hx). lia.
Qed.

Lemma validIndices_range lines :
  Forall (fun k => 0 <= k < numBlocks) (validIndices numBlocks lines).
Proof.
  apply Forall_forall. intros k Hk.
  apply list_elem_of_omap in Hk as (line & _ & Hv).
  eapply validIndex_range, Hv.
Qed.

End Marks.

(** C9: numBlocksMined is the number of lines of the output file that
    carry an in-range block index, each line counted separately, while
    the 1-entries of minedBlocks are the distinct indices among them; so
    numBlocksMined is never smaller than the number of 1-entries and is
    strictly larger as soon as an index is repeated.  Lines that are not
    numeric or out of range change nothing and raise nothing: the call
    completes normally for every content. *)
Theorem runMineflow_counts_lines (outputContent : jsstring) (nx ny nz : Z) :
  0 <= nx * ny * nz ->
  let lines := split_lines (trim outputContent) in
  let idxs := validIndices (nx * ny * nz) lines in
  exists r,
    runMineflow outputContent nx ny nz = Normal r /\
    numBlocksMined r = len idxs /\
    resMinedBlocks r = indicator (nx * ny * nz) idxs /\
    ones (resMinedBlocks r) = len (remove_dups idxs) /\
    ones (resMinedBlocks r) <= numBlocksMined r /\
    (~ NoDup idxs -> ones (resMinedBlocks r) < numBlocksMined r) /\
    (forall r0 line, validIndex (nx * ny * nz) line = None ->
                     markLine (nx * ny * nz) r0 line = r0).
Proof.
  intros HN lines idxs. unfold runMineflow.
  destruct (Z.ltb_spec (nx * ny * nz) 0) as [|_]; [lia|].
  eexists. split; [reflexivity|].
  destruct (markLine_fold (nx * ny * nz) lines []
              (mkSolveResult (replicate (Z.to_nat (nx * ny * nz)) 0) 0)
              (indicator_nil _) eq_refl) as [Hmb Hn].
  cbn zeta in Hmb, Hn. cbn [app] in Hmb, Hn. fold lines.
  rewrite Hmb, Hn. fold idxs.
  rewrite ones_indicator by apply validIndices_range.
  unfold len. pose proof (remove_dups_length_le idxs).
  repeat split; try lia.
  - intros Hd. apply remove_dups_length_lt in Hd. lia.
  - intros r0 line Hnone. rewrite markLine_validIndex, Hnone. reflexivity.
Qed.

(** An output file that names block 2 twice on the 2x2x1 grid: three
    lines counted, two entries set. *)
Lemma runMineflow_counts_lines_witness :
  exists r,
    runMineflow outputWithDuplicate 2 2 1 = Normal r /\
    validIndices 4 (split_lines (trim outputWithDuplicate)) = [0; 2; 2] /\
    resMinedBlocks r = [1; 0; 1; 0] /\
    numBlocksMined r = 3 /\
    ones (resMinedBlocks r) = 2 /\
    ones (resMinedBlocks r) < numBlocksMined r.
Proof.
  destruct (runMineflow_counts_lines outputWithDuplicate 2 2 1)
    as (r & Hrun & Hn & Hmb & Hones & _ & Hlt & _); [vm_compute; discriminate|].
  exists r. split; [exact Hrun|]. split; [vm_compute; reflexivity|].
  split; [rewrite Hmb; vm_compute; reflexivity|].
  split; [rewrite Hn; vm_compute; reflexivity|].
  split; [rewrite Hones; vm_compute; reflexivity|].
  apply Hlt. vm_compute. intros Hd.
  apply NoDup_cons in Hd as [_ Hd]. apply NoDup_cons in Hd as [Hd _].
  apply Hd. apply elem_of_cons. now left.
Defined.

(* ===================================================================== *)
(** ** Grid input file *)
(* ===================================================================== *)


Lemma sign_not_whitespace c : isSign c = true -> isWhiteSpace c = false.
Proof.
  unfold isSign. intros H. apply orb_true_iff in H as [H|H];
    apply Ascii.eqb_eq in H; subst c; reflexivity.
Qed.


Lemma trimStart_head c rest :
  isWhiteSpace c = false -> trimStart (c :: rest) = c :: rest.
Proof. intros H. cbn [trimStart]. now rewrite H. Qed.






(** Characters after the run of digits do not enter the value. *)
Lemma digits_trailing ds c rest : forall acc,
  Forall (fun a => isDigit a = true) ds -> digit c = None ->
  digits (ds ++ c :: rest) acc = digits ds acc.
Proof.
  induction ds as [|a ds IH]; intros acc Hds Hc; cbn [app digits].
  - now rewrite Hc.
  - inversion Hds as [|? ? Ha Hds']; subst. unfold isDigit in Ha.
    destruct (digit a); [|discriminate]. now apply IH.
Qed.




Lemma parseLines_length lines : forall i values vs,
  parseLines lines i values = Normal vs -> length vs = length values.
Proof.
  induction lines as [|line lines IH]; intros i values vs H; cbn [parseLines] in H.
  - now injection H as <-.
  - destruct (parseInt (trim line)); [|discriminate].
    apply IH in H. now rewrite length_insert in H.
Qed.





(* ===================================================================== *)
(** ** Grid indexing, the other way round *)
(* ===================================================================== *)

Section GridInverse.

Variables nx0 ny0 : Z.
Hypothesis nx_pos : 0 < nx0.
Hypothesis ny_pos : 0 < ny0.

Lemma coords_range i :
  0 <= i ->
  0 <= cx (getBlockCoords i nx0 ny0) < nx0 /\
  0 <= cy (getBlockCoords i nx0 ny0) < ny0 /\
  0 <= cz (getBlockCoords i nx0 ny0).
Proof using nx_pos ny_pos.
  intros Hi. unfold getBlockCoords. cbn [cx cy cz].
  assert (0 <= i / nx0) by (apply Z.div_pos; lia).
  rewrite !Z.rem_mod_nonneg by lia.
  pose proof (Z.mod_pos_bound i nx0 nx_pos).
  pose proof (Z.mod_pos_bound (i / nx0) ny0 ny_pos).
  assert (0 <= i / (nx0 * ny0)) by (apply Z.div_pos; nia).
  lia.
Qed.

Lemma index_of_coords i :
  0 <= i ->
  getBlockIndex (cx (getBlockCoords i nx0 ny0)) (cy (getBlockCoords i nx0 ny0))
                (cz (getBlockCoords i nx0 ny0)) nx0 ny0 = i.
Proof using nx_pos ny_pos.
  intros Hi. unfold getBlockCoords, getBlockIndex. cbn [cx cy cz].
  assert (0 <= i / nx0) by (apply Z.div_pos; lia).
  rewrite !Z.rem_mod_nonneg by lia.
  rewrite <- Z.div_div by lia.
  pose proof (Z.div_mod i nx0 ltac:(lia)) as H1.
  pose proof (Z.div_mod (i / nx0) ny0 ltac:(lia)) as H2.
  nia.
Qed.

Lemma coords_z_below i nz0 :
  0 <= i < nx0 * ny0 * nz0 -> cz (getBlockCoords i nx0 ny0) < nz0.
Proof using nx_pos ny_pos.
  intros Hi. unfold getBlockCoords. cbn [cz].
  apply Z.div_lt_upper_bound; nia.
Qed.

Lemma index_range x y z nz0 :
  0 <= x < nx0 -> 0 <= y < ny0 -> 0 <= z < nz0 ->
  0 <= getBlockIndex x y z nx0 ny0 < nx0 * ny0 * nz0.
Proof using nx_pos ny_pos.
  intros Hx Hy Hz. unfold getBlockIndex.
  assert (y * nx0 <= (ny0 - 1) * nx0) by nia.
  assert (z * nx0 * ny0 <= (nz0 - 1) * nx0 * ny0) by nia.
  assert (0 <= y * nx0) by nia. assert (0 <= z * nx0 * ny0) by nia.
  nia.
Qed.

End GridInverse.

(** X1: on a grid with positive nx and ny, getBlockCoords of a
    non-negative index yields coordinates with 0 <= x < nx, 0 <= y < ny
    and 0 <= z, getBlockIndex of these coordinates is the index again, and
    z < nz when the index is below nx*ny*nz. *)
Theorem getBlockIndex_getBlockCoords (nx ny i : Z) :
  0 < nx -> 0 < ny -> 0 <= i ->
  let c := getBlockCoords i nx ny in
  getBlockIndex (cx c) (cy c) (cz c) nx ny = i /\
  0 <= cx c < nx /\ 0 <= cy c < ny /\ 0 <= cz c /\
  (forall nz, i < nx * ny * nz -> cz c < nz).
Proof.
  intros Hnx Hny Hi c. subst c.
  pose proof (coords_range nx ny Hnx Hny i Hi) as (Hx & Hy & Hz).
  split; [now apply index_of_coords|].
  repeat split; try lia.
  intros nz Hlt. apply coords_z_below; lia.
Qed.

(** Block 69 of the 4x5x6 grid. *)
Lemma getBlockIndex_getBlockCoords_witness :
  getBlockCoords 69 4 5 = mkCoords 1 2 3 /\
  getBlockIndex 1 2 3 4 5 = 69.
Proof.
  destruct (getBlockIndex_getBlockCoords 4 5 69) as (H & _); [lia | lia | lia |].
  split; [reflexivity | exact H].
Defined.

(** X2: on a grid with positive dimensions, getBlockIndex maps in-range
    coordinates into [0, nx*ny*nz), and two in-range coordinates with the
    same index are the same coordinate. *)
Theorem getBlockIndex_range_injective (nx ny nz x y z x' y' z' : Z) :
  0 < nx -> 0 < ny ->
  0 <= x < nx -> 0 <= y < ny -> 0 <= z < nz ->
  0 <= x' < nx -> 0 <= y' < ny -> 0 <= z' < nz ->
  0 <= getBlockIndex x y z nx ny < nx * ny * nz /\
  (getBlockIndex x y z nx ny = getBlockIndex x' y' z' nx ny ->
   x = x' /\ y = y' /\ z = z').
Proof.
  intros Hnx Hny Hx Hy Hz Hx' Hy' Hz'.
  split; [now apply index_range|]. intros Heq.
  pose proof (coords_of_index nx ny Hnx Hny x y z Hx Hy ltac:(lia)) as H1.
  pose proof (coords_of_index nx ny Hnx Hny x' y' z' Hx' Hy' ltac:(lia)) as H2.
  rewrite Heq, H2 in H1. injection H1 as -> -> ->. auto.
Qed.

Lemma getBlockIndex_range_injective_witness :
  0 <= getBlockIndex 3 4 5 4 5 < 4 * 5 * 6 /\
  (getBlockIndex 3 4 5 4 5 = getBlockIndex 3 4 5 4 5 ->
   3 = 3 /\ 4 = 4 /\ 5 = 5).
Proof.
  apply (getBlockIndex_range_injective 4 5 6 3 4 5 3 4 5); lia.
Defined.

(* ===================================================================== *)
(** ** Boundary blocks in terms of indices *)
(* ===================================================================== *)

Ltac settle_comparisons :=
  repeat match goal with
         | |- context [?a <? ?b] =>
             first [ rewrite (proj2 (Z.ltb_lt a b)) by lia
                   | rewrite (proj2 (Z.ltb_ge a b)) by lia ]
         | |- context [?a <=? ?b] =>
             first [ rewrite (proj2 (Z.leb_le a b)) by lia
                   | rewrite (proj2 (Z.leb_gt a b)) by lia ]
         end.

(** X3: for a block index within a grid of positive dimensions,
    isBoundaryBlock holds exactly when the block's mask entry is truthy and
    one of the existing neighbours at index - 1, index + 1, index - nx,
    index + nx, index - nx*ny, index + nx*ny has a falsy mask entry; a
    neighbour exists when the block is not on the corresponding face of
    the grid. *)
Theorem isBoundaryBlock_index_neighbors (model : BlockModel)
        (mb : MinedBlocks) (i : Z) :
  0 < nx model -> 0 < ny model ->
  0 <= i < nx model * ny model * nz model ->
  let c := getBlockCoords i (nx model) (ny model) in
  isBoundaryBlock i model mb
  = negb (unmined mb i)
    && ((0 <? cx c) && unmined mb (i - 1)
        || (cx c + 1 <? nx model) && unmined mb (i + 1)
        || (0 <? cy c) && unmined mb (i - nx model)
        || (cy c + 1 <? ny model) && unmined mb (i + nx model)
        || (0 <? cz c) && unmined mb (i - nx model * ny model)
        || (cz c + 1 <? nz model) && unmined mb (i + nx model * ny model)).
Proof.
  intros Hnx Hny Hi c.
  pose proof (coords_range _ _ Hnx Hny i ltac:(lia)) as (Hx & Hy & Hz).
  pose proof (coords_z_below _ _ Hnx Hny i (nz model) Hi) as Hz'.
  pose proof (index_of_coords _ _ Hnx Hny i ltac:(lia)) as Hidx.
  fold c in Hx, Hy, Hz, Hz', Hidx. unfold getBlockIndex in Hidx.
  rewrite isBoundaryBlock_existsb. fold c. unfold unmined. f_equal.
  unfold neighbors, existsb, unminedInBounds, outOfBounds, getBlockIndex.
  cbn [cx cy cz].
  replace (cx c - 1 + cy c * nx model + cz c * nx model * ny model)
    with (i - 1) by lia.
  replace (cx c + 1 + cy c * nx model + cz c * nx model * ny model)
    with (i + 1) by lia.
  replace (cx c + (cy c - 1) * nx model + cz c * nx model * ny model)
    with (i - nx model) by lia.
  replace (cx c + (cy c + 1) * nx model + cz c * nx model * ny model)
    with (i + nx model) by lia.
  replace (cx c + cy c * nx model + (cz c - 1) * nx model * ny model)
    with (i - nx model * ny model) by lia.
  replace (cx c + cy c * nx model + (cz c + 1) * nx model * ny model)
    with (i + nx model * ny model) by lia.
  settle_comparisons. cbn [orb negb andb].
  rewrite !orb_false_r.
  rewrite <- !Z.ltb_antisym, <- !Z.leb_antisym.
  replace (0 <=? cx c - 1) with (0 <? cx c)
    by (destruct (Z.leb_spec 0 (cx c - 1)), (Z.ltb_spec 0 (cx c)); try reflexivity; lia).
  replace (0 <=? cy c - 1) with (0 <? cy c)
    by (destruct (Z.leb_spec 0 (cy c - 1)), (Z.ltb_spec 0 (cy c)); try reflexivity; lia).
  replace (0 <=? cz c - 1) with (0 <? cz c)
    by (destruct (Z.leb_spec 0 (cz c - 1)), (Z.ltb_spec 0 (cz c)); try reflexivity; lia).
  rewrite !orb_assoc. reflexivity.
Qed.

Lemma isBoundaryBlock_index_neighbors_witness :
  isBoundaryBlock 0 grid221 mask221 = true /\
  isBoundaryBlock 1 grid221 mask221 = false.
Proof.
  split.
  - rewrite (isBoundaryBlock_index_neighbors grid221 mask221 0);
      [reflexivity | reflexivity | reflexivity | vm_compute; intuition discriminate].
  - rewrite (isBoundaryBlock_index_neighbors grid221 mask221 1);
      [reflexivity | reflexivity | reflexivity | vm_compute; intuition discriminate].
Defined.

(* ===================================================================== *)
(** ** Meshes without surface *)
(* ===================================================================== *)

Lemma existsb_all_false {A} (P : A -> bool) (l : list A) :
  (forall a, P a = false) -> existsb P l = false.
Proof.
  intros H. induction l as [|a l IH]; [reflexivity|].
  cbn [existsb]. now rewrite H, IH.
Qed.

Lemma fold_left_unchanged {A B} (f : A -> B -> A) (l : list B) (a : A) :
  (forall b, b ∈ l -> forall a', f a' b = a') -> fold_left f l a = a.
Proof.
  revert a. induction l as [|b l IH]; intros a H; [reflexivity|].
  cbn [fold_left]. rewrite (H b) by (apply elem_of_cons; now left).
  apply IH. intros b' Hb'. apply H, elem_of_cons. now right.
Qed.

Lemma unminedInBounds_all_mined (model : BlockModel) (mb : MinedBlocks) n :
  0 < nx model -> 0 < ny model ->
  (forall k, 0 <= k < nx model * ny model * nz model -> unmined mb k = false) ->
  unminedInBounds model mb n = false.
Proof.
  intros Hnx Hny Hall. unfold unminedInBounds.
  rewrite outOfBounds_spec. unfold spec_inBounds.
  destruct (Z.leb_spec 0 (cx n)); [|reflexivity].
  destruct (Z.ltb_spec (cx n) (nx model)); [|reflexivity].
  destruct (Z.leb_spec 0 (cy n)); [|reflexivity].
  destruct (Z.ltb_spec (cy n) (ny model)); [|reflexivity].
  destruct (Z.leb_spec 0 (cz n)); [|reflexivity].
  destruct (Z.ltb_spec (cz n) (nz model)); [|reflexivity].
  cbn [andb]. apply Hall. apply index_range; lia.
Qed.

Lemma addBlock_not_boundary model mb scheme stats g i :
  isBoundaryBlock i model mb = false ->
  addBlock model mb scheme stats g i = g.
Proof. intros H. unfold addBlock. now rewrite H. Qed.

(** X4: SurfaceMesh returns the empty geometry when no block of the model
    is mined, and also when every block of a grid with positive nx and ny
    is mined: the outer shell of the model is never drawn, so a model
    mined out completely has no surface. *)
Theorem SurfaceMesh_empty (model : BlockModel) (mb : MinedBlocks)
        (scheme : ColorScheme) :
  (forall i, 0 <= i < len (values model) -> unmined mb i = true) \/
  (0 < nx model /\ 0 < ny model /\
   forall k, 0 <= k < nx model * ny model * nz model -> unmined mb k = false) ->
  SurfaceMesh model mb scheme = emptyGeometry /\
  triangleCount (SurfaceMesh model mb scheme) = 0.
Proof.
  intros H.
  assert (Hg : SurfaceMesh model mb scheme = emptyGeometry).
  { unfold SurfaceMesh. apply fold_left_unchanged. intros i Hi g.
    apply addBlock_not_boundary. destruct H as [Hnone | (Hnx & Hny & Hall)].
    - apply elem_of_seqZ in Hi. unfold isBoundaryBlock.
      unfold unmined in Hnone. now rewrite Hnone by lia.
    - rewrite isBoundaryBlock_existsb, existsb_all_false; [apply andb_false_r|].
      intros n. now apply unminedInBounds_all_mined. }
  split; [exact Hg|]. rewrite Hg. reflexivity.
Qed.

(** The 2x2x1 grid with no block mined and with every block mined. *)
Lemma SurfaceMesh_empty_witness :
  SurfaceMesh grid221 [0; 0; 0; 0] SchemeValue = emptyGeometry /\
  SurfaceMesh grid221 [1; 1; 1; 1] SchemeValue = emptyGeometry.
Proof.
  split.
  - apply (SurfaceMesh_empty grid221 [0; 0; 0; 0] SchemeValue). left.
    intros i Hi. change (len (values grid221)) with 4 in Hi.
    assert (i = 0 \/ i = 1 \/ i = 2 \/ i = 3) as [->|[->|[->| ->]]] by lia;
      reflexivity.
  - apply (SurfaceMesh_empty grid221 [1; 1; 1; 1] SchemeValue). right.
    split; [reflexivity|]. split; [reflexivity|].
    intros k Hk. change (nx grid221 * ny grid221 * nz grid221) with 4 in Hk.
    assert (k = 0 \/ k = 1 \/ k = 2 \/ k = 3) as [->|[->|[->| ->]]] by lia;
      reflexivity.
Defined.

(* ===================================================================== *)
(** ** Statistics: value range and mined totals *)
(* ===================================================================== *)

(** X5: for a model with at least one value, maxAbsValue is a
    non-negative integer M that bounds every value, -M <= v <= M, and is
    attained by the absolute value of some value; it is 0 exactly when all
    values are 0. *)
Theorem calculateStats_value_range (model : BlockModel)
        (mb : option MinedBlocks) :
  values model <> [] ->
  exists M,
    maxAbsValue (calculateStats model mb) = Int M /\
    0 <= M /\
    Forall (fun v => - M <= v <= M) (values model) /\
    (exists v, v ∈ values model /\ Z.abs v = M) /\
    (M = 0 <-> Forall (fun v => v = 0) (values model)).
Proof.
  intros Hne. unfold calculateStats. cbn [maxAbsValue].
  destruct (values model) as [|v vs] eqn:Hvs; [congruence|].
  destruct (statsLoop_min_nonempty mb v vs) as (lo & Hlo & Hlin & Hlall).
  destruct (statsLoop_max_nonempty mb v vs) as (hi & Hhi & Hhin & Hhall).
  rewrite Hlo, Hhi. cbn [Math_abs Math_max].
  exists (Z.max (Z.abs lo) (Z.abs hi)). split; [reflexivity|].
  rewrite Forall_forall in Hlall, Hhall.
  split; [lia|]. split; [|split].
  - apply Forall_forall. intros w Hw.
    specialize (Hlall w Hw). specialize (Hhall w Hw). lia.
  - destruct (Z.max_spec (Z.abs lo) (Z.abs hi)) as [[_ ->]|[_ ->]];
      [now exists hi | now exists lo].
  - split.
    + intros H0. apply Forall_forall. intros w Hw.
      specialize (Hlall w Hw). specialize (Hhall w Hw). lia.
    + intros Hz. rewrite Forall_forall in Hz.
      rewrite (Hz lo Hlin), (Hz hi Hhin). reflexivity.
Qed.

(** The 2x2x1 grid has maxAbsValue 10. *)
Lemma calculateStats_value_range_witness :
  exists M,
    maxAbsValue (calculateStats grid221 None) = Int M /\
    0 <= M /\ Forall (fun v => - M <= v <= M) (values grid221).
Proof.
  destruct (calculateStats_value_range grid221 None) as (M & HM & H0 & Hall & _);
    [discriminate|].
  exists M. repeat split; assumption.
Defined.

Section MinedTotals.

Variable mb : option MinedBlocks.



End MinedTotals.


(* ===================================================================== *)
(** ** Render set: buffers, order and picking *)
(* ===================================================================== *)

Lemma emit_renderPosition p stats i b :
  emit p stats i (getBlockCoords i (nx (blockModel p)) (ny (blockModel p))) b
  = mkBuffers (tempPositions b ++ renderPosition (blockModel p) i)
              (tempColors b ++ [blockColor p stats i])
              (indexMapping b ++ [i])
              (blocksRendered b + 1).
Proof. reflexivity. Qed.

(** Whatever the loop returns extends the buffers it was given by one
    position, one colour and one index per emitted block. *)
Lemma renderLoop_buffers p stats : forall fuel i b b',
  renderLoop fuel p stats i b = Some b' ->
  exists emitted,
    indexMapping b' = indexMapping b ++ emitted /\
    tempPositions b'
    = tempPositions b ++ flat_map (renderPosition (blockModel p)) emitted /\
    tempColors b' = tempColors b ++ map (blockColor p stats) emitted /\
    blocksRendered b' = blocksRendered b + len emitted.
Proof.
  induction fuel as [|fuel IH]; intros i b b' Hrun; cbn [renderLoop] in Hrun.
  - destruct (i <? totalBlocks p); [discriminate|]. injection Hrun as <-.
    exists []. cbn [flat_map map]. rewrite !app_nil_r, (@len_nil Z).
    repeat split; lia.
  - destruct (i <? totalBlocks p).
    2:{ injection Hrun as <-. exists []. cbn [flat_map map].
        rewrite !app_nil_r, (@len_nil Z). repeat split; lia. }
    destruct (negb (isCrossSection p)
              && (MAX_BLOCKS_TO_RENDER <=? blocksRendered b)).
    { injection Hrun as <-. exists []. cbn [flat_map map].
      rewrite !app_nil_r, (@len_nil Z). repeat split; lia. }
    destruct (skipped p i _); [now apply IH in Hrun|].
    apply IH in Hrun as (emitted & Hm & Hp & Hc & Hn).
    rewrite emit_renderPosition in Hm, Hp, Hc, Hn.
    cbn [indexMapping tempPositions tempColors blocksRendered] in Hm, Hp, Hc, Hn.
    exists (i :: emitted). cbn [flat_map map].
    rewrite Hm, Hp, Hc, Hn, <- !app_assoc, len_cons. cbn [app].
    repeat split; lia.
Qed.

Lemma flat_map_length3 {A B} (f : A -> list B) (l : list A) :
  (forall a, length (f a) = 3%nat) ->
  length (flat_map f l) = (3 * length l)%nat.
Proof.
  intros Hf. induction l as [|a l IH]; [reflexivity|].
  cbn [flat_map]. rewrite length_app, Hf, IH. cbn [length]. lia.
Qed.

Lemma flat_map_chunk {A B} (f : A -> list B) (l : list A) (n : nat) a :
  (forall x, length (f x) = 3%nat) ->
  l !! n = Some a ->
  take 3 (drop (3 * n) (flat_map f l)) = f a.
Proof.
  intros Hf. revert n. induction l as [|x l IH]; intros n Hn; [discriminate|].
  cbn [flat_map]. destruct n as [|n].
  - injection Hn as ->. change (3 * 0)%nat with 0%nat. rewrite drop_0.
    rewrite take_app_length' by (now rewrite Hf). reflexivity.
  - cbn in Hn. replace (3 * S n)%nat with (length (f x) + 3 * n)%nat
      by (rewrite Hf; lia).
    rewrite drop_app_add. now apply IH.
Qed.

(** The strided enumeration is strictly ascending and stays within the
    blocks. *)
Lemma seqZ_map_sorted (f : Z -> Z) :
  (forall a b, a < b -> f a < f b) ->
  forall (n : nat) m, StronglySorted Z.lt (map f (seqZ m (Z.of_nat n))).
Proof.
  intros Hf. induction n as [|n IH]; intros m.
  - rewrite seqZ_nil by lia. constructor.
  - rewrite seqZ_cons by lia. cbn [map].
    replace (Z.pred (Z.of_nat (S n))) with (Z.of_nat n) by lia.
    constructor; [apply IH|].
    apply Forall_forall. intros y Hy.
    apply list_elem_of_In, in_map_iff in Hy as (k & <- & Hk).
    apply list_elem_of_In, elem_of_seqZ in Hk. apply Hf. lia.
Qed.

Lemma strided_sorted total s :
  0 < s -> StronglySorted Z.lt (strided 0 total s).
Proof.
  intros Hs. unfold strided.
  destruct (Z_le_gt_dec (ceil_div (total - 0) s) 0) as [Hle|Hgt].
  - rewrite seqZ_nil by lia. constructor.
  - rewrite <- (Z2Nat.id (ceil_div (total - 0) s)) by lia.
    apply seqZ_map_sorted. intros a b Hab. nia.
Qed.

Lemma strided_elements total s i :
  0 < s -> i ∈ strided 0 total s -> 0 <= i < total /\ i mod s = 0.
Proof.
  intros Hs Hi. unfold strided in Hi.
  apply list_elem_of_In, in_map_iff in Hi as (k & <- & Hk).
  apply list_elem_of_In, elem_of_seqZ in Hk. rewrite Z.sub_0_r in Hk.
  rewrite Z.add_0_l. split; [|apply Z.mod_mul; lia].
  split; [nia|].
  (* k < ceil(total / s) means k * s < total *)
  unfold ceil_div in Hk.
  destruct (Z_lt_ge_dec (k * s) total) as [Hlt|Hge]; [lia|].
  assert (- k <= - total / s) by (apply Z.div_le_lower_bound; nia).
  lia.
Qed.

Lemma filter_sorted (P : Z -> bool) (l : list Z) :
  StronglySorted Z.lt l -> StronglySorted Z.lt (List.filter P l).
Proof.
  induction 1 as [|a l Hl IH Ha]; [constructor|]. cbn [List.filter].
  destruct (P a); [|exact IH]. constructor; [exact IH|].
  rewrite Forall_forall in Ha |- *. intros x Hx.
  apply Ha. apply list_elem_of_In. apply list_elem_of_In, filter_In in Hx. tauto.
Qed.

Lemma take_sorted (n : nat) (l : list Z) :
  StronglySorted Z.lt l -> StronglySorted Z.lt (take n l).
Proof.
  intros Hl. revert n. induction Hl as [|a l Hl IH Ha]; intros [|n];
    cbn [take]; try constructor; [apply IH|].
  rewrite Forall_forall in Ha |- *. intros x Hx.
  apply Ha. apply elem_of_take in Hx as (j & Hj & _).
  now apply list_elem_of_lookup_2 in Hj.
Qed.

Lemma capped_elements p room l i : i ∈ capped p room l -> i ∈ l.
Proof.
  unfold capped. destruct (isCrossSection p); [trivial|].
  intros Hi. apply elem_of_take in Hi as (j & Hj & _).
  now apply list_elem_of_lookup_2 in Hj.
Qed.

Lemma capped_length p room (l : list Z) :
  (length (capped p room l) <= length l)%nat /\
  (isCrossSection p = false -> 0 <= room ->
   len (capped p room l) <= room).
Proof.
  unfold capped, len. destruct (isCrossSection p).
  - split; [lia | discriminate].
  - rewrite length_take. split; [lia|]. intros _ Hr. lia.
Qed.

(** X7: the buffers BlockInstances returns fit together and are bounded:
    there are three position entries and one colour per instance, the
    index mapping has one entry per instance, the instance count is at
    most the number of blocks, and outside a cross-section it is at most
    MAX = 100000. *)
Theorem BlockInstances_buffers (p : Props) (rs : RenderSet) :
  BlockInstances p = Some rs ->
  positions rs
  = flat_map (renderPosition (blockModel p)) (instanceToBlockIndex rs) /\
  len (positions rs) = 3 * count rs /\
  len (colors rs) = count rs /\
  len (instanceToBlockIndex rs) = count rs /\
  0 <= count rs <= totalBlocks p /\
  (currentLayer p = None -> count rs <= MAX_BLOCKS_TO_RENDER).
Proof.
  intros Hrun.
  destruct (BlockInstances_spec p) as (rs' & Hrun' & Hmap & Hcnt & _).
  rewrite Hrun in Hrun'. injection Hrun' as <-.
  unfold BlockInstances in Hrun.
  destruct (renderLoop _ p _ 0 _) as [b|] eqn:Hloop; [|discriminate].
  injection Hrun as <-.
  apply renderLoop_buffers in Hloop as (emitted & Hm & Hp & Hc & Hn).
  cbn [indexMapping tempPositions tempColors blocksRendered app] in Hm, Hp, Hc, Hn.
  cbn [positions colors count instanceToBlockIndex] in *.
  rewrite Hm, Hp, Hc, Hn in *. clear Hcnt.
  split; [reflexivity|]. unfold len at 1 3.
  rewrite (flat_map_length3 (renderPosition (blockModel p)) _ (fun _ => eq_refl)),
    length_map.
  split; [unfold len; lia|]. split; [unfold len; lia|].
  split; [unfold len; lia|].
  pose proof (skipFactor_pos p) as Hs.
  destruct (capped_length p MAX_BLOCKS_TO_RENDER
              (List.filter (kept p) (strided 0 (totalBlocks p) (skipFactor p))))
    as [Hlen Hcap].
  rewrite <- Hmap in Hlen, Hcap.
  pose proof (List.filter_length_le (kept p)
                (strided 0 (totalBlocks p) (skipFactor p))) as Hf.
  rewrite strided_length, Z.sub_0_r in Hf.
  pose proof (totalBlocks_nonneg p) as Ht.
  assert (ceil_div (totalBlocks p) (skipFactor p) <= totalBlocks p)
    by (apply ceil_div_le; [exact Hs | nia]).
  split; [unfold len; lia|].
  intros Hl. apply Hcap; [|unfold MAX_BLOCKS_TO_RENDER; lia].
  unfold isCrossSection. now rewrite Hl.
Qed.

(** The render set of the 2x2x1 grid. *)
Lemma BlockInstances_buffers_witness :
  exists rs,
    BlockInstances (mkProps grid221 None ViewAll None SliceZ SchemeValue false)
    = Some rs /\
    len (positions rs) = 3 * count rs /\ count rs = 4.
Proof.
  eexists. split; [vm_compute; reflexivity|].
  match goal with
  | |- len (positions ?r) = _ /\ _ =>
      destruct (BlockInstances_buffers
                  (mkProps grid221 None ViewAll None SliceZ SchemeValue false) r)
        as (_ & H3 & _); [vm_compute; reflexivity|]
  end.
  split; [exact H3 | reflexivity].
Defined.

(** X8: the index mapping of BlockInstances is strictly ascending, so no
    block is rendered twice; every mapped index is a block index, a
    multiple of the stride, and passes the active filters: it lies on the
    selected layer, it is mined under 'mined only' and not mined under
    'unmined only' when a mask exists. *)
Theorem BlockInstances_mapping (p : Props) (rs : RenderSet) :
  BlockInstances p = Some rs ->
  StronglySorted Z.lt (instanceToBlockIndex rs) /\
  forall i, i ∈ instanceToBlockIndex rs ->
    0 <= i < totalBlocks p /\
    i mod skipFactor p = 0 /\
    (forall layer, currentLayer p = Some layer ->
       coordValue (sliceDimension p)
                  (getBlockCoords i (nx (blockModel p)) (ny (blockModel p)))
       = layer) /\
    (forall mb, minedBlocks p = Some mb -> viewMode p = ViewMined ->
       get mb i = Some 1) /\
    (forall mb, minedBlocks p = Some mb -> viewMode p = ViewUnmined ->
       get mb i <> Some 1).
Proof.
  intros Hrun.
  destruct (BlockInstances_spec p) as (rs' & Hrun' & Hmap & _).
  rewrite Hrun in Hrun'. injection Hrun' as <-.
  pose proof (skipFactor_pos p) as Hs. rewrite Hmap. split.
  - unfold capped. destruct (isCrossSection p).
    + apply filter_sorted, strided_sorted, Hs.
    + apply take_sorted, filter_sorted, strided_sorted, Hs.
  - intros i Hi. apply capped_elements in Hi.
    apply list_elem_of_In, filter_In in Hi as [Hi Hk].
    apply list_elem_of_In, strided_elements in Hi as [Hr Hm]; [|exact Hs].
    split; [exact Hr|]. split; [exact Hm|].
    unfold kept, skipped in Hk. apply negb_true_iff in Hk.
    split; [|split].
    + intros layer Hl. rewrite Hl in Hk.
      destruct (coordValue _ _ =? layer) eqn:He; [now apply Z.eqb_eq in He|].
      discriminate.
    + intros mb Hmb Hv. rewrite Hmb, Hv in Hk.
      destruct (match currentLayer p with Some _ => _ | None => _ end);
        [discriminate|].
      unfold is_one in Hk. destruct (get mb i) as [v|].
      * destruct (Z.eqb_spec v 1) as [He|He]; [now rewrite He|].
        cbn [negb andb] in Hk. destruct (showWireframe p); discriminate.
      * cbn [negb andb] in Hk. destruct (showWireframe p); discriminate.
    + intros mb Hmb Hv. rewrite Hmb, Hv in Hk.
      destruct (match currentLayer p with Some _ => _ | None => _ end);
        [discriminate|].
      intros Hone. rewrite Hone in Hk. cbn in Hk.
      destruct (showWireframe p); cbn in Hk; discriminate.
Qed.

(** The slice x = 1 of the 2x2x1 grid under 'mined only'. *)
Lemma BlockInstances_mapping_witness :
  exists rs,
    BlockInstances
      (mkProps grid221 (Some mask221) ViewMined (Some 1) SliceX SchemeMined false)
    = Some rs /\
    StronglySorted Z.lt (instanceToBlockIndex rs) /\
    instanceToBlockIndex rs = [1; 3].
Proof.
  eexists. split; [vm_compute; reflexivity|].
  match goal with
  | |- StronglySorted _ (instanceToBlockIndex ?r) /\ _ =>
      destruct (BlockInstances_mapping
                  (mkProps grid221 (Some mask221) ViewMined (Some 1) SliceX
                           SchemeMined false) r)
        as (Hs & _); [vm_compute; reflexivity|]
  end.
  split; [exact Hs | reflexivity].
Defined.

(** The position buffer holds the positions of the mapped blocks, and
    the mapping has one entry per instance. *)
Lemma BlockInstances_positions (p : Props) (rs : RenderSet) :
  BlockInstances p = Some rs ->
  positions rs
  = flat_map (renderPosition (blockModel p)) (instanceToBlockIndex rs) /\
  len (instanceToBlockIndex rs) = count rs.
Proof.
  intros Hrun. unfold BlockInstances in Hrun.
  destruct (renderLoop _ p _ 0 _) as [b|] eqn:Hloop; [|discriminate].
  injection Hrun as <-.
  apply renderLoop_buffers in Hloop as (emitted & Hm & Hp & _ & Hn).
  cbn [indexMapping tempPositions blocksRendered app] in Hm, Hp, Hn.
  cbn [positions count instanceToBlockIndex].
  rewrite Hm, Hp, Hn. split; [reflexivity | lia].
Qed.

(** Every mapped index is a block index. *)
Lemma BlockInstances_index_range (p : Props) (rs : RenderSet) (i : Z) :
  BlockInstances p = Some rs -> i ∈ instanceToBlockIndex rs ->
  0 <= i < totalBlocks p.
Proof.
  intros Hrun Hi.
  destruct (BlockInstances_spec p) as (rs' & Hrun' & Hmap & _).
  rewrite Hrun in Hrun'. injection Hrun' as <-.
  rewrite Hmap in Hi. apply capped_elements in Hi.
  apply list_elem_of_In, filter_In in Hi as [Hi _].
  apply list_elem_of_In, strided_elements in Hi as [Hr _];
    [exact Hr | apply skipFactor_pos].
Qed.

(** X9: hovering an instance reports the block that was rendered there:
    for an instance id below the instance count, handlePointerMove calls
    the hover callback with the block index the mapping holds for that
    instance and with exactly the position stored for it in the position
    buffer; for an undefined id or an id at or beyond the count it makes
    no call. *)
Theorem handlePointerMove_matches_render (p : Props) (rs : RenderSet) (id : Z) :
  BlockInstances p = Some rs ->
  (0 <= id < count rs ->
   exists i,
     get (instanceToBlockIndex rs) id = Some i /\
     0 <= i < totalBlocks p /\
     handlePointerMove (blockModel p) (instanceToBlockIndex rs) (Some id)
     = Some (Hover (Some i) (positionAt (positions rs) id))) /\
  (count rs <= id ->
   handlePointerMove (blockModel p) (instanceToBlockIndex rs) (Some id) = None) /\
  handlePointerMove (blockModel p) (instanceToBlockIndex rs) None = None.
Proof.
  intros Hrun.
  destruct (BlockInstances_positions p rs Hrun) as (Hpos & Hlen).
  split; [|split; [|reflexivity]].
  - intros Hid. unfold handlePointerMove, get.
    rewrite Hlen. destruct (Z.ltb_spec id (count rs)); [|lia].
    destruct (Z.ltb_spec id 0); [lia|].
    destruct (instanceToBlockIndex rs !! Z.to_nat id) as [i|] eqn:Hi.
    2:{ apply lookup_ge_None in Hi. unfold len in Hlen. lia. }
    exists i. split; [reflexivity|]. split.
    { apply (BlockInstances_index_range p rs i Hrun).
      now apply list_elem_of_lookup_2 in Hi. }
    do 2 f_equal. unfold positionAt. rewrite Hpos.
    replace (Z.to_nat (3 * id)) with (3 * Z.to_nat id)%nat by lia.
    symmetry. now apply flat_map_chunk.
  - intros Hid. unfold handlePointerMove. rewrite Hlen.
    destruct (Z.ltb_spec id (count rs)); [lia | reflexivity].
Qed.

(** Hovering instance 1 of the slice x = 1 of the 2x2x1 grid reports
    block 3. *)
Lemma handlePointerMove_matches_render_witness :
  exists rs,
    BlockInstances propsSlice = Some rs /\
    handlePointerMove grid221 (instanceToBlockIndex rs) (Some 1)
    = Some (Hover (Some 3) (positionAt (positions rs) 1)) /\
    handlePointerMove grid221 (instanceToBlockIndex rs) (Some 2) = None.
Proof.
  eexists. split; [vm_compute; reflexivity|].
  match goal with
  | |- handlePointerMove _ (instanceToBlockIndex ?r) _ = _ /\ _ =>
      pose proof (handlePointerMove_matches_render propsSlice r 1
                    ltac:(vm_compute; reflexivity)) as (H1 & _);
      pose proof (handlePointerMove_matches_render propsSlice r 2
                    ltac:(vm_compute; reflexivity)) as (_ & H2 & _)
  end.
  split.
  - destruct H1 as (i & Hi & _ & Hh); [vm_compute; intuition discriminate|].
    vm_compute in Hi. injection Hi as <-. exact Hh.
  - apply H2. vm_compute. discriminate.
Defined.

(* ===================================================================== *)
(** ** Surface mesh: buffers and indices *)
(* ===================================================================== *)

Lemma faces_shape :
  Forall (fun f => length (corners f) = 4%nat /\ length (normal f) = 3%nat) faces.
Proof. repeat constructor. Qed.

Lemma addQuad_wellFormed bx by_ bz color face q g :
  length (corners face) = 4%nat -> length (normal face) = 3%nat ->
  quadsWellFormed q g ->
  quadsWellFormed (q + 1) (addQuad bx by_ bz color face g) /\
  gColors (addQuad bx by_ bz color face g)
  = gColors g ++ [color; color; color; color].
Proof.
  intros Hc Hn (Hq & Hv & Hno & Hco & Hi & Hall).
  destruct (corners face) as [|[[a1 a2] a3] [|[[b1 b2] b3] [|[[c1 c2] c3]
    [|[[d1 d2] d3] [|]]]]] eqn:Hcs; try discriminate.
  unfold addQuad. rewrite Hcs. cbn [fold_left addCorner vertices indices
                                    gColors normals].
  rewrite Hv. replace (12 * q / 3) with (4 * q)
    by (replace (12 * q) with (4 * q * 3) by lia; now rewrite Z.div_mul).
  unfold quadsWellFormed. cbn [vertices indices gColors normals].
  rewrite <- !app_assoc. cbn [app].
  assert (Hn' : len (normal face) = 3) by (unfold len; now rewrite Hn).
  rewrite !len_app, Hv, Hno, Hco, Hi, !Hn', !len_cons, !(@len_nil float),
    !(@len_nil Z), (@len_nil Color).
  split; [|reflexivity].
  split; [lia|]. split; [lia|]. split; [lia|]. split; [lia|]. split; [lia|].
  apply Forall_app. split.
  - eapply Forall_impl; [exact Hall|]. cbn. intros k Hk. lia.
  - repeat constructor; lia.
Qed.

Lemma addFace_fold_wellFormed model mb coords bx by_ bz color fs :
  Forall (fun f => length (corners f) = 4%nat /\ length (normal f) = 3%nat) fs ->
  forall q g,
    quadsWellFormed q g ->
    exists q',
      quadsWellFormed q'
        (fold_left (addFace model mb coords bx by_ bz color) fs g) /\
      exists k : nat,
        gColors (fold_left (addFace model mb coords bx by_ bz color) fs g)
        = gColors g ++ replicate k color.
Proof.
  induction 1 as [|f fs [Hc Hn] Hfs IH]; intros q g Hwf; cbn [fold_left].
  - exists q. split; [exact Hwf|]. exists 0%nat. cbn. now rewrite app_nil_r.
  - unfold addFace at 2 4. destruct (isExposed model mb coords f).
    + destruct (addQuad_wellFormed bx by_ bz color f q g Hc Hn Hwf) as [Hwf' Hcol].
      destruct (IH _ _ Hwf') as (q' & Hq' & k & Hk).
      exists q'. split; [exact Hq'|]. exists (4 + k)%nat.
      rewrite Hk, Hcol, <- app_assoc. reflexivity.
    + exact (IH q g Hwf).
Qed.

Lemma addBlock_wellFormed model mb scheme stats q g i :
  quadsWellFormed q g ->
  exists q',
    quadsWellFormed q' (addBlock model mb scheme stats g i) /\
    exists k : nat,
      gColors (addBlock model mb scheme stats g i)
      = gColors g ++ replicate k (meshColor model scheme stats i).
Proof.
  intros Hwf. unfold addBlock.
  destruct (isBoundaryBlock i model mb); cbn [negb].
  - apply (addFace_fold_wellFormed _ _ _ _ _ _ _ faces faces_shape q g Hwf).
  - exists q. split; [exact Hwf|]. exists 0%nat. cbn. now rewrite app_nil_r.
Qed.

Lemma addBlock_fold_wellFormed model mb scheme stats (P : Color -> Prop) is_ :
  (forall i, P (meshColor model scheme stats i)) ->
  forall q g,
    quadsWellFormed q g -> Forall P (gColors g) ->
    exists q',
      quadsWellFormed q' (fold_left (addBlock model mb scheme stats) is_ g) /\
      Forall P (gColors (fold_left (addBlock model mb scheme stats) is_ g)).
Proof.
  intros HP. induction is_ as [|i is_ IH]; intros q g Hwf Hcol; cbn [fold_left].
  - now exists q.
  - destruct (addBlock_wellFormed model mb scheme stats q g i Hwf)
      as (q' & Hq' & k & Hk).
    apply (IH q' _ Hq'). rewrite Hk. apply Forall_app. split; [exact Hcol|].
    apply Forall_replicate. apply HP.
Qed.

(** X10: the geometry SurfaceMesh returns is well formed: the vertex and
    normal buffers hold three numbers and the colour buffer one colour per
    vertex, there are four vertices and six indices per quad, and every
    index names an existing vertex.  Under the mined colour scheme every
    vertex has the one green of mined blocks. *)
Theorem SurfaceMesh_wellFormed (model : BlockModel) (mb : MinedBlocks)
        (scheme : ColorScheme) :
  let g := SurfaceMesh model mb scheme in
  quadsWellFormed (quadCount g) g /\
  len (vertices g) = 3 * len (gColors g) /\
  len (normals g) = len (vertices g) /\
  len (indices g) = 3 * triangleCount g /\
  Forall (fun k => 0 <= k < len (gColors g)) (indices g) /\
  Forall (fun c => c = Hex 0x22c55e)
         (gColors (SurfaceMesh model mb SchemeMined)).
Proof.
  cbn zeta.
  assert (Hempty : quadsWellFormed 0 (mkGeometry [] [] [] [])).
  { unfold quadsWellFormed. cbn. repeat split; try reflexivity; constructor. }
  assert (Hwf : forall sch,
            exists q, quadsWellFormed q (SurfaceMesh model mb sch) /\
                      Forall (fun c => sch = SchemeMined -> c = Hex 0x22c55e)
                             (gColors (SurfaceMesh model mb sch))).
  { intros sch. unfold SurfaceMesh.
    apply (addBlock_fold_wellFormed model mb sch _
             (fun c => sch = SchemeMined -> c = Hex 0x22c55e) _
             ltac:(intros i ->; reflexivity) 0 _ Hempty).
    constructor. }
  destruct (Hwf scheme) as (q & Hq & _).
  assert (Hqc : quadCount (SurfaceMesh model mb scheme) = q).
  { unfold quadCount. destruct Hq as (_ & -> & _).
    rewrite Z.mul_comm. apply Z.div_mul. lia. }
  rewrite Hqc. split; [exact Hq|].
  destruct Hq as (Hq0 & Hv & Hn & Hc & Hi & Hall).
  rewrite Hv, Hn, Hc, Hi. split; [lia|]. split; [lia|]. split.
  { unfold triangleCount. rewrite Hi.
    replace (6 * q) with (2 * q * 3) by lia. rewrite Z.div_mul by lia. lia. }
  split; [exact Hall|].
  destruct (Hwf SchemeMined) as (q' & _ & Hcol).
  eapply Forall_impl; [exact Hcol|]. cbn. intros c Hc'. now apply Hc'.
Qed.

(* ===================================================================== *)
(** ** Loop order and block indices *)
(* ===================================================================== *)

Lemma flat_map_ext_elem {A B} (f g : A -> list B) (l : list A) :
  (forall a, a ∈ l -> f a = g a) -> flat_map f l = flat_map g l.
Proof.
  induction l as [|a l IH]; intros H; [reflexivity|]. cbn [flat_map].
  rewrite (H a) by (apply elem_of_cons; now left).
  f_equal. apply IH. intros x Hx. apply H, elem_of_cons. now right.
Qed.

Lemma flat_map_singleton {A B} (f : A -> B) (l : list A) :
  flat_map (fun a => [f a]) l = map f l.
Proof. induction l as [|a l IH]; [reflexivity|]. cbn. now rewrite IH. Qed.

(** Consecutive blocks of [w] indices make one run. *)
Lemma flat_map_runs (w : Z) :
  0 <= w ->
  forall (n : nat) start,
    flat_map (fun k => seqZ (start + k * w) w) (seqZ 0 (Z.of_nat n))
    = seqZ start (Z.of_nat n * w).
Proof.
  intros Hw. induction n as [|n IH]; intros start.
  - rewrite seqZ_nil by lia. cbn [flat_map]. symmetry. apply seqZ_nil. lia.
  - rewrite seqZ_S, flat_map_app, IH. cbn [flat_map]. rewrite app_nil_r.
    replace (Z.of_nat (S n) * w) with (Z.of_nat n * w + w) by lia.
    rewrite seqZ_app by nia. reflexivity.
Qed.

Lemma flat_map_runs_Z (w n start : Z) :
  0 <= w ->
  flat_map (fun k => seqZ (start + k * w) w) (seqZ 0 n) = seqZ start (n * w).
Proof.
  intros Hw. destruct (Z_le_gt_dec n 0) as [Hn|Hn].
  - rewrite seqZ_nil by lia. cbn [flat_map]. symmetry. apply seqZ_nil. nia.
  - rewrite <- (Z2Nat.id n) by lia. now apply flat_map_runs.
Qed.

Lemma gridIndices_seqZ nx ny nz :
  0 <= nx -> 0 <= ny -> gridIndices nx ny nz = seqZ 0 (nx * ny * nz).
Proof.
  intros Hnx Hny. unfold gridIndices.
  assert (Hx : forall y z,
            flat_map (fun x => [getBlockIndex x y z nx ny]) (seqZ 0 nx)
            = seqZ (y * nx + z * (nx * ny)) nx).
  { intros y z. rewrite flat_map_singleton.
    rewrite <- (Z.add_0_r (y * nx + z * (nx * ny))), <- fmap_add_seqZ.
    apply map_ext. intros x. unfold getBlockIndex. ring. }
  assert (Hy : forall z,
            flat_map (fun y =>
              flat_map (fun x => [getBlockIndex x y z nx ny]) (seqZ 0 nx))
              (seqZ 0 ny)
            = seqZ (z * (nx * ny)) (nx * ny)).
  { intros z. rewrite (flat_map_ext _ (fun y => seqZ (z * (nx * ny) + y * nx) nx)).
    - rewrite flat_map_runs_Z by lia. f_equal. ring.
    - intros y. rewrite Hx. f_equal. ring. }
  rewrite (flat_map_ext _ (fun z => seqZ (0 + z * (nx * ny)) (nx * ny)))
    by (intros z; now rewrite Hy).
  rewrite flat_map_runs_Z by nia. f_equal. ring.
Qed.

(* ===================================================================== *)
(** ** Text of numbers, joining and splitting *)
(* ===================================================================== *)

Lemma string_of_uint_plain d :
  Forall plainChar (list_ascii_of_string (NilEmpty.string_of_uint d)).
Proof.
  induction d; cbn; constructor; try assumption;
    (split; [reflexivity | discriminate]).
Qed.

Lemma toString_plain z : Forall plainChar (toString z) /\ toString z <> [].
Proof.
  unfold toString.
  assert (Hu : forall d, Forall plainChar
                           (list_ascii_of_string (NilZero.string_of_uint d)) /\
                         list_ascii_of_string (NilZero.string_of_uint d) <> []).
  { intros d. split.
    - destruct d; try apply string_of_uint_plain.
      cbn. constructor; [split; [reflexivity | discriminate] | constructor].
    - destruct d; cbn; discriminate. }
  destruct (Z.to_int z) as [d|d]; cbn [NilZero.string_of_int].
  - apply Hu.
  - cbn [list_ascii_of_string]. split; [|discriminate].
    constructor; [split; [reflexivity | discriminate] | apply Hu].
Qed.

Lemma split_lines_plain s :
  Forall (fun c => c <> LF) s -> split_lines s = [s].
Proof.
  induction 1 as [|c s Hc Hs IH]; [reflexivity|]. cbn [split_lines].
  destruct (Ascii.eqb_spec c LF); [contradiction|]. now rewrite IH.
Qed.

Lemma split_lines_app_LF a s :
  Forall (fun c => c <> LF) a ->
  split_lines (a ++ LF :: s) = a :: split_lines s.
Proof.
  induction 1 as [|c a Hc Ha IH]; cbn [app split_lines].
  - reflexivity.
  - destruct (Ascii.eqb_spec c LF); [contradiction|]. now rewrite IH.
Qed.

(** Joining lines without line feeds and splitting again gives the lines
    back. *)
Lemma split_lines_join l :
  l <> [] -> Forall (Forall (fun c => c <> LF)) l ->
  split_lines (join [LF] l) = l.
Proof.
  intros Hne Hall. induction Hall as [|a l Ha Hl IH]; [congruence|].
  destruct l as [|b l]; [now apply split_lines_plain|].
  change (join [LF] (a :: b :: l)) with (a ++ LF :: join [LF] (b :: l)).
  rewrite split_lines_app_LF by assumption. f_equal. apply IH. discriminate.
Qed.

(** A text that begins and ends with a character other than white space
    is its own trim. *)
Lemma trim_plain_ends s :
  match s with c :: _ => isWhiteSpace c = false | [] => True end ->
  match rev s with d :: _ => isWhiteSpace d = false | [] => True end ->
  trim s = s.
Proof.
  intros Hfirst Hlast. unfold trim, trimEnd.
  destruct s as [|c r]; [reflexivity|].
  rewrite (trimStart_head c r Hfirst).
  destruct (rev (c :: r)) as [|d r'] eqn:E.
  - apply (f_equal (@rev ascii)) in E. rewrite rev_involutive in E. discriminate.
  - rewrite (trimStart_head d r' Hlast), <- E. apply rev_involutive.
Qed.

Lemma join_cons2 sep a b (l : list jsstring) :
  join sep (a :: b :: l) = a ++ sep ++ join sep (b :: l).
Proof. reflexivity. Qed.

Lemma join_head sep a (l : list jsstring) :
  exists tail, join sep (a :: l) = a ++ tail.
Proof.
  destruct l as [|b l].
  - exists []. cbn. now rewrite app_nil_r.
  - exists (sep ++ join sep (b :: l)). reflexivity.
Qed.

Lemma join_last_plain (l : list jsstring) :
  l <> [] -> Forall (fun a => Forall plainChar a /\ a <> []) l ->
  exists d r, rev (join [LF] l) = d :: r /\ isWhiteSpace d = false.
Proof.
  intros Hne Hall. induction Hall as [|a l [Ha Hane] Hl IH]; [congruence|].
  destruct l as [|b l].
  - cbn [join]. destruct (rev a) as [|d r] eqn:E.
    + apply (f_equal (@rev ascii)) in E. rewrite rev_involutive in E.
      cbn in E. congruence.
    + exists d, r. split; [reflexivity|].
      assert (Hd : d ∈ a).
      { apply list_elem_of_In, in_rev. rewrite E. now left. }
      rewrite Forall_forall in Ha. now apply Ha.
  - destruct (IH ltac:(discriminate)) as (d & r & Hr & Hd).
    rewrite join_cons2, !rev_app_distr, Hr.
    exists d, (r ++ rev [LF] ++ rev a). split; [|exact Hd].
    cbn [app]. now rewrite <- app_assoc.
Qed.

(** Joined lines of plain characters are not changed by trim. *)
Lemma trim_join (l : list jsstring) :
  l <> [] -> Forall (fun a => Forall plainChar a /\ a <> []) l ->
  trim (join [LF] l) = join [LF] l.
Proof.
  intros Hne Hall. apply trim_plain_ends.
  - destruct l as [|a l]; [congruence|].
    inversion Hall as [|? ? [Ha Hane] _]; subst.
    destruct (join_head [LF] a l) as (tail & ->).
    destruct a as [|c a]; [congruence|]. cbn [app].
    inversion Ha as [|? ? [Hc _] _]; now subst.
  - destruct (join_last_plain l Hne Hall) as (d & r & -> & Hd). exact Hd.
Qed.

Lemma plain_no_LF (a : jsstring) :
  Forall plainChar a -> Forall (fun c => c <> LF) a.
Proof. intros H. eapply Forall_impl; [exact H|]. now intros c [_ Hc]. Qed.

(* ===================================================================== *)
(** ** parseOutputFile *)
(* ===================================================================== *)

Lemma isFlag_cases (v : option Z) :
  isFlag v \/ (v <> Some 0 /\ v <> Some 1).
Proof.
  unfold isFlag. destruct v as [[|[]|]|]; auto; right; split; discriminate.
Qed.

Lemma parseFlags_step line rest i result :
  parseFlags (line :: rest) i result
  = match flagOf line with
    | Some v =>
        if (v =? 0) || (v =? 1)
        then parseFlags rest (i + 1) (<[Z.to_nat i := v]> result)
        else inr (InvalidOutputValue (i + 1) (Some v))
    | None => inr (InvalidOutputValue (i + 1) None)
    end.
Proof.
  cbn [parseFlags]. unfold flagOf.
  destruct (parseInt (trim line)) as [[|[]|]|]; reflexivity.
Qed.

Lemma parseFlags_accepts lines : forall i result,
  Forall (fun line => isFlag (flagOf line)) lines ->
  0 <= i -> length result = (Z.to_nat i + length lines)%nat ->
  parseFlags lines i result
  = inl (take (Z.to_nat i) result
         ++ map (fun line => default 0 (flagOf line)) lines).
Proof.
  induction lines as [|line lines IH]; intros i result Hall Hi Hlen.
  - cbn [parseFlags map]. rewrite app_nil_r, take_ge by (cbn [length] in Hlen; lia).
    reflexivity.
  - inversion Hall as [|? ? Hline Hall']; subst. cbn [length] in Hlen.
    rewrite parseFlags_step.
    assert (Hv : exists v, flagOf line = Some v /\ (v =? 0) || (v =? 1) = true).
    { destruct Hline as [-> | ->]; eexists; split; reflexivity. }
    destruct Hv as (v & Hv & Hb). rewrite Hv, Hb.
    rewrite IH; [|assumption|lia|rewrite length_insert; lia].
    f_equal. replace (Z.to_nat (i + 1)) with (S (Z.to_nat i)) by lia.
    rewrite (take_S_r _ _ v) by (apply list_lookup_insert_eq; lia).
    rewrite take_insert_ge by lia. cbn [map]. rewrite Hv. cbn [default].
    now rewrite <- app_assoc.
Qed.

Lemma parseFlags_returns lines : forall i result r,
  parseFlags lines i result = inl r ->
  Forall (fun line => isFlag (flagOf line)) lines.
Proof.
  induction lines as [|line lines IH]; intros i result r H; [constructor|].
  rewrite parseFlags_step in H.
  destruct (flagOf line) as [v|] eqn:Hv; [|discriminate].
  destruct ((v =? 0) || (v =? 1)) eqn:Hb; [|discriminate].
  constructor; [|eapply IH, H].
  unfold isFlag. rewrite Hv. apply orb_true_iff in Hb as [Hb|Hb];
    apply Z.eqb_eq in Hb; subst; auto.
Qed.


(** parseOutputFile returns exactly for the right number of lines, all of
    them 0 or 1 to parseInt. *)
Lemma parseOutputFile_returns (content : jsstring) (numBlocks : Z) :
  let lines := split_lines (trim content) in
  forall r,
    parseOutputFile content numBlocks = inl r <->
    len lines = numBlocks /\
    Forall (fun line => isFlag (flagOf line)) lines /\
    r = map (fun line => default 0 (flagOf line)) lines.
Proof.
  intros lines r. unfold parseOutputFile. fold lines.
  destruct (Z.eqb_spec (len lines) numBlocks) as [Hlen|Hlen]; cbn [negb].
  - split.
    + intros H. pose proof (parseFlags_returns _ _ _ _ H) as Hall.
      rewrite parseFlags_accepts in H;
        [|exact Hall|lia|rewrite length_replicate; unfold len in Hlen; lia].
      injection H as <-. auto.
    + intros (_ & Hall & ->).
      rewrite parseFlags_accepts;
        [reflexivity|exact Hall|lia
         |rewrite length_replicate; unfold len in Hlen; lia].
  - split; [discriminate | intros (? & _); contradiction].
Qed.



(* ===================================================================== *)
(** ** Exporting a mask and reading it back *)
(* ===================================================================== *)

Lemma flag_text v :
  v = 0 \/ v = 1 ->
  flagOf (toString v) = Some v /\
  Forall plainChar (toString v) /\ toString v <> [].
Proof.
  intros Hv. split; [destruct Hv as [-> | ->]; reflexivity | apply toString_plain].
Qed.

(** X12: a mask written by the export-results handler is read back by
    parseOutputFile: for a non-empty mask whose entries are 0 or 1,
    parsing the exported text with the mask's length returns the mask.
    The empty mask does not survive: its export is the empty text, which
    parseOutputFile counts as one line. *)
Theorem parseOutputFile_exportResults (mask : list Z) :
  mask <> [] -> Forall (fun v => v = 0 \/ v = 1) mask ->
  split_lines (trim (exportResults mask)) = map toString mask /\
  parseOutputFile (exportResults mask) (len mask) = inl mask /\
  parseOutputFile (exportResults []) 0 = inr (OutputCountMismatch 0 1).
Proof.
  intros Hne Hall.
  assert (Hplain : Forall (fun a => Forall plainChar a /\ a <> [])
                          (map toString mask)).
  { apply Forall_forall. intros a Ha.
    apply list_elem_of_In, in_map_iff in Ha as (v & <- & _). apply toString_plain. }
  assert (Hne' : map toString mask <> [])
    by (destruct mask; [congruence | discriminate]).
  assert (Hlines : split_lines (trim (exportResults mask)) = map toString mask).
  { unfold exportResults. rewrite trim_join by assumption.
    apply split_lines_join; [exact Hne'|].
    eapply Forall_impl; [exact Hplain|]. cbn. intros a [Ha _].
    now apply plain_no_LF. }
  split; [exact Hlines|]. split; [|reflexivity].
  apply (parseOutputFile_returns (exportResults mask) (len mask)).
  rewrite Hlines, len_map. split; [reflexivity|].
  rewrite Forall_forall in Hall. split.
  - apply Forall_forall. intros a Ha.
    apply list_elem_of_In, in_map_iff in Ha as (v & <- & Hv).
    destruct (flag_text v (Hall v (proj2 (list_elem_of_In _ _) Hv))) as (-> & _).
    destruct (Hall v (proj2 (list_elem_of_In _ _) Hv)) as [-> | ->];
      [now left | now right].
  - rewrite map_map. rewrite <- (map_id mask) at 1. apply map_ext_in.
    intros v Hv.
    destruct (flag_text v (Hall v (proj2 (list_elem_of_In _ _) Hv))) as (-> & _).
    reflexivity.
Qed.

(** The mask of the 2x2x1 scenario survives export and parsing. *)
Lemma parseOutputFile_exportResults_witness :
  exportResults mask221 = list_ascii_of_string "1
1
0
1" /\
  parseOutputFile (exportResults mask221) 4 = inl mask221.
Proof.
  split; [reflexivity|].
  apply (parseOutputFile_exportResults mask221); [discriminate|].
  repeat (constructor; [auto|]). constructor.
Defined.

(* ===================================================================== *)
(** ** exportToCSV *)
(* ===================================================================== *)

(** A loop over [a0, a0 + n) whose body appends [g a idx] and advances the
    counter by [w]. *)
Lemma fold_counter {A} (step : list A * Z -> Z -> list A * Z)
      (g : Z -> Z -> list A) (w : Z) :
  (forall lines idx a, step (lines, idx) a = (lines ++ g a idx, idx + w)) ->
  forall (n : nat) a0 lines idx,
    fold_left step (seqZ a0 (Z.of_nat n)) (lines, idx)
    = (lines ++ flat_map (fun a => g a (idx + (a - a0) * w))
                         (seqZ a0 (Z.of_nat n)),
       idx + Z.of_nat n * w).
Proof.
  intros Hstep. induction n as [|n IH]; intros a0 lines idx.
  - rewrite seqZ_nil by lia. cbn [fold_left flat_map].
    rewrite app_nil_r. f_equal. lia.
  - rewrite seqZ_cons by lia.
    replace (Z.pred (Z.of_nat (S n))) with (Z.of_nat n) by lia.
    cbn [fold_left flat_map]. rewrite Hstep, IH, <- app_assoc.
    f_equal; [|lia]. f_equal.
    replace (idx + (a0 - a0) * w) with idx by lia. f_equal.
    apply flat_map_ext. intros a. f_equal. lia.
Qed.

Lemma fold_counter_Z {A} (step : list A * Z -> Z -> list A * Z)
      (g : Z -> Z -> list A) (w n : Z) lines idx :
  (forall lines idx a, step (lines, idx) a = (lines ++ g a idx, idx + w)) ->
  0 <= n ->
  fold_left step (seqZ 0 n) (lines, idx)
  = (lines ++ flat_map (fun a => g a (idx + a * w)) (seqZ 0 n), idx + n * w).
Proof.
  intros Hstep Hn. rewrite <- (Z2Nat.id n) at 1 2 by lia.
  rewrite (fold_counter step g w Hstep). rewrite Z2Nat.id by lia.
  f_equal. f_equal. apply flat_map_ext. intros a. f_equal. lia.
Qed.

Lemma map_flat_map_comm {A B C} (f : B -> C) (g : A -> list B) (l : list A) :
  map f (flat_map g l) = flat_map (fun a => map f (g a)) l.
Proof.
  induction l as [|a l IH]; [reflexivity|]. cbn [flat_map].
  now rewrite map_app, IH.
Qed.

Section CsvLoops.

Variables (model : BlockModel) (mb : MinedBlocks).
Hypothesis nx_pos : 0 < nx model.
Hypothesis ny_pos : 0 < ny model.

Let entry (x y z idx : Z) : jsstring :=
  csvRow x y z (get (values model) idx) (get mb idx).

Lemma csvY_counter z lines idx y :
  csvY model mb z (lines, idx) y
  = (lines ++ flat_map (fun x => [entry x y z (idx + x * 1)])
                       (seqZ 0 (nx model)),
     idx + nx model * 1).
Proof using nx_pos.
  unfold csvY.
  apply (fold_counter_Z (csvX model mb z y)
           (fun x idx => [entry x y z idx]) 1); [reflexivity | lia].
Qed.

Lemma csvZ_counter lines idx z :
  csvZ model mb (lines, idx) z
  = (lines ++ flat_map (fun y =>
                flat_map (fun x => [entry x y z (idx + y * (nx model * 1) + x * 1)])
                         (seqZ 0 (nx model)))
              (seqZ 0 (ny model)),
     idx + ny model * (nx model * 1)).
Proof using nx_pos ny_pos.
  unfold csvZ.
  apply (fold_counter_Z (csvY model mb z)
           (fun y idx => flat_map (fun x => [entry x y z (idx + x * 1)])
                                  (seqZ 0 (nx model)))
           (nx model * 1)); [|lia].
  intros l i y. apply csvY_counter.
Qed.

Lemma csvLines_nested :
  0 <= nz model ->
  csvLines model mb
  = csvHeader ::
    flat_map (fun z =>
      flat_map (fun y =>
        flat_map (fun x => [entry x y z (getBlockIndex x y z (nx model) (ny model))])
                 (seqZ 0 (nx model)))
        (seqZ 0 (ny model)))
      (seqZ 0 (nz model)).
Proof using nx_pos ny_pos.
  intros Hnz. unfold csvLines.
  rewrite (fold_counter_Z (csvZ model mb)
             (fun z idx =>
                flat_map (fun y =>
                  flat_map (fun x => [entry x y z (idx + y * (nx model * 1) + x * 1)])
                           (seqZ 0 (nx model)))
                  (seqZ 0 (ny model)))
             (ny model * (nx model * 1)) (nz model) [csvHeader] 0
             csvZ_counter Hnz).
  cbn [fst app]. f_equal.
  apply flat_map_ext. intros z. apply flat_map_ext. intros y.
  apply flat_map_ext. intros x. do 2 f_equal. unfold getBlockIndex. ring.
Qed.

Lemma entry_csvRowOf x y z :
  0 <= x < nx model -> 0 <= y < ny model -> 0 <= z ->
  entry x y z (getBlockIndex x y z (nx model) (ny model))
  = csvRowOf model mb (getBlockIndex x y z (nx model) (ny model)).
Proof using nx_pos ny_pos.
  intros Hx Hy Hz. unfold csvRowOf, entry.
  now rewrite (coords_of_index _ _ nx_pos ny_pos x y z Hx Hy Hz).
Qed.

Lemma csvLines_rows :
  csvLines model mb
  = csvHeader :: map (csvRowOf model mb)
                     (seqZ 0 (nx model * ny model * nz model)).
Proof using nx_pos ny_pos.
  destruct (Z_lt_ge_dec (nz model) 0) as [Hneg|Hnz].
  - unfold csvLines. rewrite !seqZ_nil by nia. reflexivity.
  - rewrite csvLines_nested by lia. f_equal.
    rewrite <- gridIndices_seqZ by lia. unfold gridIndices.
    rewrite map_flat_map_comm. apply flat_map_ext_elem. intros z Hz.
    rewrite map_flat_map_comm. apply flat_map_ext_elem. intros y Hy.
    rewrite map_flat_map_comm. apply flat_map_ext_elem. intros x Hx.
    apply elem_of_seqZ in Hx, Hy, Hz. cbn [map]. f_equal.
    apply entry_csvRowOf; lia.
Qed.

End CsvLoops.

Lemma csvRow_plain x y z value mined :
  Forall (fun c => c <> LF) (csvRow x y z value mined).
Proof.
  assert (Hs : forall v, Forall (fun c => c <> LF) (showEntry v)).
  { intros [v|]; [apply plain_no_LF, toString_plain|].
    cbn. repeat constructor; discriminate. }
  unfold csvRow, comma. repeat apply Forall_app_2;
    try apply Hs; try (apply plain_no_LF, toString_plain);
    repeat constructor; discriminate.
Qed.

(** X13: on a grid with positive nx and ny, exportToCSV writes the header
    and then one row per block index 0, 1, ..., nx*ny*nz - 1, in this
    order: the row of index i carries the coordinates getBlockCoords
    gives for i, the value at i and the mask entry at i, so the running
    counter of the three nested loops agrees with getBlockIndex.
    Splitting the text at line feeds gives these lines back. *)
Theorem exportToCSV_rows (model : BlockModel) (mb : MinedBlocks) :
  0 < nx model -> 0 < ny model ->
  split_lines (exportToCSV model mb)
  = csvHeader :: map (csvRowOf model mb)
                     (seqZ 0 (nx model * ny model * nz model)) /\
  len (split_lines (exportToCSV model mb))
  = 1 + Z.max 0 (nx model * ny model * nz model) /\
  (forall x y z,
     0 <= x < nx model -> 0 <= y < ny model -> 0 <= z < nz model ->
     split_lines (exportToCSV model mb)
       !! Z.to_nat (1 + getBlockIndex x y z (nx model) (ny model))
     = Some (csvRow x y z
               (get (values model) (getBlockIndex x y z (nx model) (ny model)))
               (get mb (getBlockIndex x y z (nx model) (ny model))))).
Proof.
  intros Hnx Hny.
  assert (Hlines : split_lines (exportToCSV model mb)
                   = csvHeader :: map (csvRowOf model mb)
                       (seqZ 0 (nx model * ny model * nz model))).
  { unfold exportToCSV. rewrite (csvLines_rows model mb Hnx Hny).
    apply split_lines_join; [discriminate|]. constructor.
    - cbn. repeat constructor; discriminate.
    - apply Forall_forall. intros a Ha.
      apply list_elem_of_In, in_map_iff in Ha as (i & <- & _).
      apply csvRow_plain. }
  split; [exact Hlines|]. rewrite Hlines. split.
  - rewrite len_cons, len_map. unfold len. rewrite length_seqZ. lia.
  - intros x y z Hx Hy Hz.
    pose proof (index_range _ _ Hnx Hny x y z (nz model) Hx Hy Hz) as Hr.
    replace (Z.to_nat (1 + getBlockIndex x y z (nx model) (ny model)))
      with (S (Z.to_nat (getBlockIndex x y z (nx model) (ny model)))) by lia.
    assert (Htl : forall (h : jsstring) l (n : nat), (h :: l) !! S n = l !! n)
      by reflexivity.
    rewrite Htl. change (map ?f ?l) with (f <$> l).
    rewrite list_lookup_fmap, lookup_seqZ_lt by lia. cbn [fmap option_fmap option_map].
    rewrite Z.add_0_l, Z2Nat.id by lia. f_equal.
    unfold csvRowOf.
    now rewrite (coords_of_index _ _ Hnx Hny x y z Hx Hy ltac:(lia)).
Qed.

(** The CSV of the 2x2x1 grid with its mask. *)
Lemma exportToCSV_rows_witness :
  exportToCSV grid221 mask221 = list_ascii_of_string "x,y,z,value,mined
0,0,0,10,1
1,0,0,-5,1
0,1,0,3,0
1,1,0,-1,1" /\
  len (split_lines (exportToCSV grid221 mask221)) = 5.
Proof.
  split; [vm_compute; reflexivity|].
  destruct (exportToCSV_rows grid221 mask221) as (_ & H & _);
    [reflexivity | reflexivity | exact H].
Defined.

(* ===================================================================== *)
(** ** What the CSV export writes *)
(* ===================================================================== *)

Lemma fold_left_appends {A S} (step : list A * S -> Z -> list A * S) (l : list Z) :
  (forall st a, exists e, fst (step st a) = fst st ++ e) ->
  forall st, exists e, fst (fold_left step l st) = fst st ++ e.
Proof.
  intros Hstep. induction l as [|a l IH]; intros st; cbn [fold_left].
  - exists []. now rewrite app_nil_r.
  - destruct (IH (step st a)) as (e & He). destruct (Hstep st a) as (e' & He').
    exists (e' ++ e). now rewrite He, He', app_assoc.
Qed.

Lemma csvLines_header model mb :
  exists rows, csvLines model mb = csvHeader :: rows.
Proof.
  unfold csvLines.
  destruct (fold_left_appends (csvZ model mb) (seqZ 0 (nz model))) with
    (st := ([csvHeader], 0)) as (e & He); [|now exists e].
  intros st z. unfold csvZ. apply fold_left_appends.
  intros st' y. unfold csvY. apply fold_left_appends.
  intros [lines idx] x. cbn [csvX fst]. now eexists.
Qed.

Lemma utf8_app a b : utf8 (a ++ b) = utf8 a ++ utf8 b.
Proof. unfold utf8. apply flat_map_app. Qed.

Lemma utf8_bytes s : Forall (fun b => 0 <= b < 256) (utf8 s).
Proof.
  unfold utf8. induction s as [|c s IH]; cbn [flat_map]; [constructor|].
  apply Forall_app. split; [|exact IH].
  pose proof (N_ascii_bounded c) as Hc.
  set (n := Z.of_N (N_of_ascii c)). assert (0 <= n < 256) by (subst n; lia).
  destruct (Z.ltb_spec n 128).
  - repeat constructor; lia.
  - assert (n / 64 < 4) by (apply Z.div_lt_upper_bound; lia).
    assert (0 <= n / 64) by (apply Z.div_pos; lia).
    pose proof (Z.mod_pos_bound n 64 ltac:(lia)).
    repeat constructor; lia.
Qed.

(** X14: the "Export as CSV" action does not write the CSV text.  It hands
    the UTF-8 bytes of the text to the export-results handler, which
    writes every byte as a decimal number on a line of its own: the file
    consists of numbers between 0 and 255, one per byte of the CSV text,
    and begins with the line 120 (the byte of the letter x) where the CSV
    text begins with the header x,y,z,value,mined. *)
Theorem handleExportCSV_writes_bytes (model : BlockModel) (mb : MinedBlocks) :
  let csv := exportToCSV model mb in
  let written := handleExportCSV model mb in
  (exists t, csv = csvHeader ++ t) /\
  split_lines written = map toString (utf8 csv) /\
  Forall (fun b => 0 <= b < 256) (utf8 csv) /\
  (exists t, written = toString 120 ++ LF :: t) /\
  written <> csv.
Proof.
  cbn zeta.
  destruct (csvLines_header model mb) as (rows & Hrows).
  assert (Hcsv : exists t, exportToCSV model mb = csvHeader ++ t).
  { unfold exportToCSV. rewrite Hrows. apply join_head. }
  destruct Hcsv as (t & Hcsv).
  assert (Hbytes : exists bs, utf8 (exportToCSV model mb) = 120 :: 44 :: bs).
  { rewrite Hcsv, utf8_app.
    change (utf8 csvHeader)
      with [120; 44; 121; 44; 122; 44; 118; 97; 108; 117; 101; 44;
            109; 105; 110; 101; 100].
    cbn [app]. eexists. reflexivity. }
  destruct Hbytes as (bs & Hbytes).
  assert (Hwritten : handleExportCSV model mb
                     = toString 120 ++ LF :: join [LF] (map toString (44 :: bs))).
  { unfold handleExportCSV, exportResults. rewrite Hbytes. reflexivity. }
  split; [now exists t|]. split; [|split; [apply utf8_bytes|split]].
  - unfold handleExportCSV, exportResults.
    apply split_lines_join; [rewrite Hbytes; discriminate|].
    apply Forall_forall. intros a Ha.
    apply list_elem_of_In, in_map_iff in Ha as (b & <- & _).
    apply plain_no_LF, toString_plain.
  - eexists. exact Hwritten.
  - rewrite Hwritten, Hcsv. discriminate.
Qed.

(* ===================================================================== *)
(** ** Solver output: order of the lines, and the statistics of the result *)
(* ===================================================================== *)

Lemma indicator_ext numBlocks (s1 s2 : list Z) :
  (forall k, 0 <= k < numBlocks -> k ∈ s1 <-> k ∈ s2) ->
  indicator numBlocks s1 = indicator numBlocks s2.
Proof.
  intros H. unfold indicator. apply map_ext_in. intros k Hk.
  apply list_elem_of_In, elem_of_seqZ in Hk.
  rewrite (bool_decide_ext (k ∈ s1) (k ∈ s2)); [reflexivity|].
  apply H. lia.
Qed.

Lemma runMineflow_indicator outputContent nx ny nz :
  0 <= nx * ny * nz ->
  let idxs := validIndices (nx * ny * nz)
                (split_lines (trim outputContent)) in
  runMineflow outputContent nx ny nz
  = Normal (mkSolveResult (indicator (nx * ny * nz) idxs) (len idxs)).
Proof.
  intros HN idxs. unfold runMineflow.
  destruct (Z.ltb_spec (nx * ny * nz) 0) as [|_]; [lia|].
  destruct (markLine_fold (nx * ny * nz) (split_lines (trim outputContent)) []
              (mkSolveResult (replicate (Z.to_nat (nx * ny * nz)) 0) 0)
              (indicator_nil _) eq_refl) as [Hmb Hn].
  cbn zeta in Hmb, Hn. cbn [app] in Hmb, Hn. fold idxs in Hmb, Hn.
  destruct (fold_left _ _ _) as [mb n]. cbn in Hmb, Hn. now subst.
Qed.

(** X15: the result of runMineflow does not depend on the order of the
    lines of the output file: two files whose lines are permutations of
    each other give the same mask and the same count.  The mask alone
    depends only on which in-range indices occur, not on how often. *)
Theorem runMineflow_order_independent (content1 content2 : jsstring)
        (nx ny nz : Z) :
  let idxs1 := validIndices (nx * ny * nz) (split_lines (trim content1)) in
  let idxs2 := validIndices (nx * ny * nz) (split_lines (trim content2)) in
  (split_lines (trim content1) ≡ₚ split_lines (trim content2) ->
   runMineflow content1 nx ny nz = runMineflow content2 nx ny nz) /\
  ((forall k, k ∈ idxs1 <-> k ∈ idxs2) ->
   forall r1 r2,
     runMineflow content1 nx ny nz = Normal r1 ->
     runMineflow content2 nx ny nz = Normal r2 ->
     resMinedBlocks r1 = resMinedBlocks r2).
Proof.
  intros idxs1 idxs2. split.
  - intros Hperm. destruct (Z.ltb_spec (nx * ny * nz) 0) as [Hneg|HN].
    + unfold runMineflow. apply Z.ltb_lt in Hneg. now rewrite Hneg.
    + rewrite !runMineflow_indicator by assumption. cbn zeta.
      assert (Hidx : idxs1 ≡ₚ idxs2).
      { unfold idxs1, idxs2, validIndices. now rewrite Hperm. }
      fold idxs1 idxs2. do 2 f_equal.
      * apply indicator_ext. intros k _. now rewrite Hidx.
      * unfold len. f_equal. now apply Permutation_length.
  - intros Hsame r1 r2 H1 H2.
    destruct (Z.ltb_spec (nx * ny * nz) 0) as [Hneg|HN].
    + unfold runMineflow in H1. apply Z.ltb_lt in Hneg.
      rewrite Hneg in H1. discriminate.
    + rewrite runMineflow_indicator in H1, H2 by assumption.
      injection H1 as <-. injection H2 as <-. cbn [resMinedBlocks].
      apply indicator_ext. intros k _. apply Hsame.
Qed.

(** The lines 0, 2, 3 in ascending and in descending order on the 2x2x1
    grid; and the file naming block 2 twice against the file naming
    blocks 2 and 0 once: the same mask, counts 3 and 2. *)
Lemma runMineflow_order_independent_witness :
  (split_lines (trim outputAscending) ≡ₚ split_lines (trim outputDescending) /\
   outputAscending <> outputDescending /\
   runMineflow outputAscending 2 2 1 = runMineflow outputDescending 2 2 1 /\
   runMineflow outputAscending 2 2 1
   = Normal (mkSolveResult [1; 0; 1; 1] 3)) /\
  (forall r1 r2,
     runMineflow outputWithDuplicate 2 2 1 = Normal r1 ->
     runMineflow outputWithoutDuplicate 2 2 1 = Normal r2 ->
     resMinedBlocks r1 = resMinedBlocks r2 /\
     numBlocksMined r1 = 3 /\ numBlocksMined r2 = 2).
Proof.
  assert (Hperm : split_lines (trim outputAscending)
                  ≡ₚ split_lines (trim outputDescending)).
  { vm_compute. etransitivity; [apply Permutation_swap|].
    etransitivity; [apply Permutation_skip, Permutation_swap|].
    apply Permutation_swap. }
  split.
  - split; [exact Hperm|]. split; [vm_compute; discriminate|].
    split; [|vm_compute; reflexivity].
    apply (runMineflow_order_independent outputAscending outputDescending 2 2 1).
    exact Hperm.
  - intros r1 r2 H1 H2. split.
    + apply (proj2 (runMineflow_order_independent
                      outputWithDuplicate outputWithoutDuplicate 2 2 1));
        [|exact H1 | exact H2].
      assert (E1 : validIndices (2 * 2 * 1)
                     (split_lines (trim outputWithDuplicate)) = [0; 2; 2])
        by (vm_compute; reflexivity).
      assert (E2 : validIndices (2 * 2 * 1)
                     (split_lines (trim outputWithoutDuplicate)) = [2; 0])
        by (vm_compute; reflexivity).
      intros k. rewrite E1, E2, !elem_of_cons, !elem_of_nil. tauto.
    + vm_compute in H1, H2. injection H1 as <-. injection H2 as <-.
      split; reflexivity.
Defined.








(* ===================================================================== *)
(** ** Grid input file: what an accepted model looks like *)
(* ===================================================================== *)





(* ===================================================================== *)
(** ** Cross-sections *)
(* ===================================================================== *)

Lemma filter_flat_map {A B} (P : B -> bool) (f : A -> list B) (l : list A) :
  List.filter P (flat_map f l) = flat_map (fun a => List.filter P (f a)) l.
Proof.
  induction l as [|a l IH]; [reflexivity|]. cbn [flat_map].
  now rewrite List.filter_app, IH.
Qed.

Lemma flat_map_nil_elem {A B} (f : A -> list B) (l : list A) :
  (forall a, a ∈ l -> f a = []) -> flat_map f l = [].
Proof.
  induction l as [|a l IH]; intros H; [reflexivity|]. cbn [flat_map].
  rewrite (H a) by (apply elem_of_cons; now left).
  apply IH. intros x Hx. apply H, elem_of_cons. now right.
Qed.

(** Of a loop whose body acts at one counter value only, that one body
    remains. *)
Lemma flat_map_pick {B} (g : Z -> list B) (n layer : Z) :
  0 <= layer < n ->
  flat_map (fun k => if k =? layer then g k else []) (seqZ 0 n) = g layer.
Proof.
  intros H. replace n with (layer + (1 + (n - layer - 1))) by lia.
  rewrite seqZ_app, (seqZ_cons (0 + layer)) by lia.
  rewrite flat_map_app. cbn [flat_map]. rewrite Z.add_0_l, Z.eqb_refl.
  rewrite !flat_map_nil_elem; [now rewrite app_nil_r | |];
    intros k Hk; apply elem_of_seqZ in Hk;
    destruct (Z.eqb_spec k layer); [lia | reflexivity | lia | reflexivity].
Qed.

Lemma flat_map_const_length {A B} (f : A -> list B) (l : list A) (m : nat) :
  (forall a, length (f a) = m) ->
  length (flat_map f l) = (length l * m)%nat.
Proof.
  intros Hf. induction l as [|a l IH]; [reflexivity|].
  cbn [flat_map length]. rewrite length_app, Hf, IH. lia.
Qed.

Lemma layer_filter d layer nx ny nz :
  0 < nx -> 0 < ny ->
  0 <= layer < match d with SliceX => nx | SliceY => ny | SliceZ => nz end ->
  List.filter (fun i => coordValue d (getBlockCoords i nx ny) =? layer)
              (gridIndices nx ny nz)
  = layerIndices d layer nx ny nz.
Proof.
  intros Hnx Hny Hlayer.
  assert (H : List.filter
                (fun i => coordValue d (getBlockCoords i nx ny) =? layer)
                (gridIndices nx ny nz)
              = flat_map (fun z =>
                  flat_map (fun y =>
                    flat_map (fun x =>
                      if coordValue d (mkCoords x y z) =? layer
                      then [getBlockIndex x y z nx ny] else [])
                      (seqZ 0 nx))
                    (seqZ 0 ny))
                  (seqZ 0 nz)).
  { unfold gridIndices. rewrite filter_flat_map.
    apply flat_map_ext_elem. intros z Hz. apply elem_of_seqZ in Hz.
    rewrite filter_flat_map.
    apply flat_map_ext_elem. intros y Hy. apply elem_of_seqZ in Hy.
    rewrite filter_flat_map.
    apply flat_map_ext_elem. intros x Hx. apply elem_of_seqZ in Hx.
    cbn [List.filter]. rewrite coords_of_index by lia. reflexivity. }
  rewrite H. clear H. destruct d; cbn [coordValue cx cy cz layerIndices].
  - apply flat_map_ext_elem. intros z _.
    rewrite <- flat_map_singleton.
    apply flat_map_ext_elem. intros y _.
    apply (flat_map_pick (fun x => [getBlockIndex x y z nx ny])). exact Hlayer.
  - apply flat_map_ext_elem. intros z _.
    rewrite <- (flat_map_pick
                  (fun y => map (fun x => getBlockIndex x y z nx ny) (seqZ 0 nx))
                  ny layer Hlayer).
    apply flat_map_ext_elem. intros y _.
    destruct (y =? layer); [apply flat_map_singleton|].
    apply flat_map_nil_elem. reflexivity.
  - rewrite <- (flat_map_pick
                  (fun z => flat_map (fun y =>
                     map (fun x => getBlockIndex x y z nx ny) (seqZ 0 nx))
                     (seqZ 0 ny))
                  nz layer Hlayer).
    apply flat_map_ext_elem. intros z _.
    destruct (z =? layer).
    + apply flat_map_ext_elem. intros y _. apply flat_map_singleton.
    + apply flat_map_nil_elem. intros y _. apply flat_map_nil_elem. reflexivity.
Qed.

Lemma layerIndices_length d layer (model : BlockModel) :
  0 <= nx model -> 0 <= ny model -> 0 <= nz model ->
  len (layerIndices d layer (nx model) (ny model) (nz model))
  = layerSize d model.
Proof.
  intros Hx Hy Hz. unfold len, layerIndices, layerSize.
  destruct d.
  - rewrite (flat_map_const_length _ _ (Z.to_nat (ny model)))
      by (intros; now rewrite length_map, length_seqZ).
    rewrite length_seqZ. nia.
  - rewrite (flat_map_const_length _ _ (Z.to_nat (nx model)))
      by (intros; now rewrite length_map, length_seqZ).
    rewrite length_seqZ. nia.
  - rewrite (flat_map_const_length _ _ (Z.to_nat (nx model)))
      by (intros; now rewrite length_map, length_seqZ).
    rewrite length_seqZ. nia.
Qed.

Lemma kept_layer p layer i :
  currentLayer p = Some layer ->
  minedBlocks p = None \/ (viewMode p = ViewAll /\ showWireframe p = false) ->
  kept p i
  = (coordValue (sliceDimension p)
       (getBlockCoords i (nx (blockModel p)) (ny (blockModel p))) =? layer).
Proof.
  intros Hl Hm. unfold kept, skipped. rewrite Hl.
  destruct (coordValue _ _ =? layer); cbn [negb]; [|reflexivity].
  destruct Hm as [-> | [-> ->]]; [reflexivity|].
  destruct (minedBlocks p); reflexivity.
Qed.

(** X18: a cross-section of a model with positive dimensions and one
    value per block, at a layer the slider can deliver (0 up to
    getMaxLayer), viewed without a solution or with view filter 'all' and
    the surface toggle off: BlockInstances renders exactly the blocks of
    that layer, in ascending index order.  Their number is the product of
    the other two dimensions, however large (the 100000 cap does not
    apply), and the result is never flagged as limited. *)
Theorem BlockInstances_cross_section (p : Props) (layer : Z) :
  let model := blockModel p in
  0 < nx model -> 0 < ny model -> 0 < nz model ->
  len (values model) = nx model * ny model * nz model ->
  currentLayer p = Some layer ->
  0 <= layer <= getMaxLayer (sliceDimension p) model ->
  minedBlocks p = None \/ (viewMode p = ViewAll /\ showWireframe p = false) ->
  exists rs,
    BlockInstances p = Some rs /\
    instanceToBlockIndex rs
    = layerIndices (sliceDimension p) layer (nx model) (ny model) (nz model) /\
    count rs = layerSize (sliceDimension p) model /\
    isLimited rs = false.
Proof.
  intros model Hnx Hny Hnz Hlen Hl Hlayer Hm.
  destruct (BlockInstances_spec p) as (rs & Hrun & Hmap & Hcnt & Hlim).
  exists rs. split; [exact Hrun|].
  assert (Hcs : isCrossSection p = true) by (unfold isCrossSection; now rewrite Hl).
  assert (Hidx : instanceToBlockIndex rs
                 = layerIndices (sliceDimension p) layer
                     (nx model) (ny model) (nz model)).
  { rewrite Hmap. unfold capped. rewrite Hcs.
    rewrite skipFactor_filtered by (rewrite Hcs; reflexivity).
    rewrite strided_1. unfold totalBlocks. fold model. rewrite Hlen.
    rewrite <- gridIndices_seqZ by lia.
    rewrite <- layer_filter by
      (try assumption; unfold getMaxLayer in Hlayer;
       destruct (sliceDimension p); lia).
    apply List.filter_ext. intros i. now apply kept_layer. }
  split; [exact Hidx|]. split.
  - rewrite Hcnt, Hidx. apply layerIndices_length; lia.
  - rewrite Hlim, Hcs. apply andb_false_r.
Qed.

(** Layer z = 1 of the 400x300x2 model: all 120000 blocks of the layer
    are rendered, more than the cap. *)
Lemma BlockInstances_cross_section_witness :
  exists rs,
    BlockInstances propsLargeSlice = Some rs /\
    count rs = 120000 /\
    isLimited rs = false /\
    MAX_BLOCKS_TO_RENDER < count rs.
Proof.
  assert (Hlen : len (values (blockModel propsLargeSlice))
                 = nx (blockModel propsLargeSlice)
                   * ny (blockModel propsLargeSlice)
                   * nz (blockModel propsLargeSlice))
    by (vm_compute; reflexivity).
  assert (Hlayer : 0 <= 1 <= getMaxLayer (sliceDimension propsLargeSlice)
                                         (blockModel propsLargeSlice))
    by (vm_compute; split; discriminate).
  destruct (BlockInstances_cross_section propsLargeSlice 1
              eq_refl eq_refl eq_refl Hlen eq_refl Hlayer (or_introl eq_refl))
    as (rs & Hrun & _ & Hcnt & Hlim).
  exists rs. split; [exact Hrun|]. rewrite Hcnt.
  split; [vm_compute; reflexivity|]. split; [exact Hlim|].
  vm_compute. reflexivity.
Defined.

(* ===================================================================== *)
(** ** The App component: what every reachable state satisfies *)
(* ===================================================================== *)

Lemma parseDatFile_dims content nx0 ny0 nz0 model :
  parseDatFile content nx0 ny0 nz0 = Normal model ->
  nx model = nx0 /\ ny model = ny0 /\ nz model = nz0 /\
  len (values model) = nx0 * ny0 * nz0.
Proof.
  unfold parseDatFile. set (lines := split_lines (trim content)).
  destruct (Z.eqb_spec (len lines) (nx0 * ny0 * nz0)) as [Hlen|]; cbn [negb];
    [|discriminate].
  destruct (parseLines lines 0 _) as [vs|] eqn:Hp; [|discriminate].
  intros [= <-]. cbn [nx ny nz values]. repeat split.
  apply parseLines_length in Hp. rewrite length_replicate in Hp.
  unfold len in *. lia.
Qed.

Lemma indicator_flags numBlocks (seen : list Z) :
  Forall (fun v => v = 0 \/ v = 1) (indicator numBlocks seen).
Proof.
  apply Forall_forall. intros v Hv. unfold indicator in Hv.
  apply list_elem_of_fmap in Hv as (k & -> & _).
  destruct (bool_decide (k ∈ seen)); [now right | now left].
Qed.

Lemma runMineflow_fits outputContent (model : BlockModel) result :
  App.wellFormed model ->
  runMineflow outputContent (nx model) (ny model) (nz model) = Normal result ->
  App.fits model result.
Proof.
  intros (Hx & Hy & Hz & Hlen) Hrun.
  rewrite runMineflow_indicator in Hrun by nia. injection Hrun as <-.
  unfold App.fits. cbn [resMinedBlocks]. split.
  - unfold len at 1. rewrite indicator_length, Hlen. nia.
  - apply indicator_flags.
Qed.

Lemma invariant_initial : App.invariant App.initial.
Proof.
  unfold App.invariant, App.initial. cbn.
  repeat split; try discriminate; intros; discriminate.
Qed.

Lemma invariant_idle s :
  App.invariant s -> App.isLoading s = false -> App.pending s = App.Idle.
Proof.
  intros (_ & _ & _ & _ & _ & Hp) Hl.
  destruct (App.pending s); [reflexivity| |]; destruct Hp as [Hp _]; congruence.
Qed.

Lemma invariant_handle s ev :
  App.invariant s -> App.enabled s ev = true -> App.invariant (App.handle ev s).
Proof.
  intros Hinv Hen. pose proof (invariant_idle s Hinv) as Hidle.
  pose proof Hinv as (Hwf & Hfit & Hpath & Htruthy & Hlayer & Hpend).
  destruct ev as [selectedFile nx ny nz | o | | o | mode | scheme | checked
                  | newDim | value | ];
    cbn [App.enabled App.handle] in *.
  - (* ClickLoad *)
    apply negb_true_iff in Hen. specialize (Hidle Hen).
    unfold App.handleLoad.
    destruct (App.truthy selectedFile) eqn:Ht; cbn [andb]; [|exact Hinv].
    destruct (Z.ltb_spec 0 nx), (Z.ltb_spec 0 ny), (Z.ltb_spec 0 nz);
      cbn [andb]; try exact Hinv.
    unfold App.invariant, App.handleFileUpload_call. cbn.
    refine (conj Hwf (conj Hfit (conj Hpath (conj Htruthy (conj Hlayer _))))).
    repeat split; assumption.
  - (* ReadSettles *)
    destruct (App.pending s) as [|filePath nx ny nz|] eqn:Ep; try discriminate.
    destruct Hpend as (_ & Ht & Hx & Hy & Hz).
    unfold App.handleFileUpload_resume.
    destruct o as [content|].
    + destruct (parseDatFile content nx ny nz) as [model|e] eqn:Hparse.
      * apply parseDatFile_dims in Hparse as (Enx & Eny & Enz & Elen).
        unfold App.invariant. cbn.
        split. { intros m [= <-]. unfold App.wellFormed. rewrite Enx, Eny, Enz.
                 repeat split; assumption. }
        split. { intros r [=]. }
        split. { split; discriminate. }
        split. { intros p [= <-]. exact Ht. }
        split. { intros l [=]. }
        reflexivity.
      * unfold App.invariant. cbn.
        exact (conj Hwf (conj Hfit (conj Hpath (conj Htruthy (conj Hlayer eq_refl))))).
    + unfold App.invariant. cbn.
      exact (conj Hwf (conj Hfit (conj Hpath (conj Htruthy (conj Hlayer eq_refl))))).
  - (* ClickSolve *)
    apply andb_true_iff in Hen as [Hm Hl]. apply negb_true_iff in Hl.
    specialize (Hidle Hl). unfold App.panelSolve, App.hasModel in *.
    destruct (App.blockModel s) as [model|] eqn:Em; [|discriminate].
    unfold App.handleSolve_call.
    assert (Herr : App.invariant (App.setError (Some App.NoDataFileLoaded) s)).
    { unfold App.invariant. cbn. rewrite Em.
      exact (conj Hwf (conj Hfit (conj Hpath (conj Htruthy (conj Hlayer Hpend))))). }
    destruct (App.dataFilePath s) as [path|] eqn:Ed; [|exact Herr].
    destruct (App.truthy path); [|exact Herr].
    unfold App.invariant. cbn. rewrite Em, Ed.
    refine (conj Hwf (conj Hfit (conj Hpath (conj Htruthy (conj Hlayer _))))).
    split; [reflexivity|]. exists model. repeat split.
  - (* SolveSettles *)
    destruct (App.pending s) as [| |dataPath px py pz] eqn:Ep; try discriminate.
    destruct Hpend as (_ & model & Em & -> & -> & ->).
    unfold App.handleSolve_resume.
    destruct o as [outputContent|].
    + destruct (runMineflow outputContent (nx model) (ny model) (nz model))
        as [result|e] eqn:Hrun.
      * apply runMineflow_fits in Hrun; [|now apply Hwf].
        unfold App.invariant. cbn.
        split; [exact Hwf|].
        split. { intros r [= <-]. now exists model. }
        exact (conj Hpath (conj Htruthy (conj Hlayer eq_refl))).
      * unfold App.invariant. cbn.
        exact (conj Hwf (conj Hfit (conj Hpath (conj Htruthy (conj Hlayer eq_refl))))).
    + unfold App.invariant. cbn.
      exact (conj Hwf (conj Hfit (conj Hpath (conj Htruthy (conj Hlayer eq_refl))))).
  - exact Hinv.
  - exact Hinv.
  - exact Hinv.
  - (* ClickDimension *)
    unfold App.invariant, App.handleDimensionChange. cbn.
    refine (conj Hwf (conj Hfit (conj Hpath (conj Htruthy (conj _ Hpend))))).
    intros l [=].
  - (* MoveLayerSlider *)
    destruct (App.blockModel s) as [model|] eqn:Em; [|discriminate].
    apply andb_true_iff in Hen as [Hlo Hhi].
    apply Z.leb_le in Hlo, Hhi.
    unfold App.invariant. cbn. rewrite Em.
    refine (conj Hwf (conj Hfit (conj Hpath (conj Htruthy (conj _ Hpend))))).
    unfold handleLayerChange. intros l.
    destruct (Z.eqb_spec value (-1)); [discriminate|]. intros [= <-].
    exists model. split; [reflexivity | lia].
  - (* ExportRejects *)
    unfold App.handleExport_rejected.
    destruct (App.solveResult s) eqn:Er; exact Hinv.
Qed.

Lemma invariant_run evs : forall s s',
  App.invariant s -> App.run evs s = Some s' -> App.invariant s'.
Proof.
  induction evs as [|ev evs IH]; intros s s' Hinv Hrun; cbn [App.run] in Hrun.
  - now injection Hrun as <-.
  - unfold App.step in Hrun.
    destruct (App.enabled s ev) eqn:Hen; [|discriminate].
    eapply IH; [|exact Hrun]. now apply invariant_handle.
Qed.

Lemma get_flag (mb : MinedBlocks) (i : Z) :
  Forall (fun v => v = 0 \/ v = 1) mb -> 0 <= i < len mb ->
  get mb i = Some 0 \/ get mb i = Some 1.
Proof.
  intros Hall Hi. unfold get. destruct (Z.ltb_spec i 0); [lia|].
  destruct (mb !! Z.to_nat i) as [v|] eqn:Hv.
  - rewrite Forall_forall in Hall.
    destruct (Hall v) as [-> | ->]; [|now left|now right].
    eapply list_elem_of_lookup_2, Hv.
  - apply lookup_ge_None in Hv. unfold len in Hi. lia.
Qed.

(** X19: whatever events the page delivers, starting from the initial
    state: a loaded model has positive dimensions and one value per
    block; a solve result is only present together with a model, and its
    mask has one entry per block of that model, each 0 or 1, so the scene
    never reads a mask entry that is missing; a selected layer lies within
    the model along the slice dimension; and [isLoading] is set exactly
    while a read or a solve is in flight. *)
Theorem App_reachable (evs : list App.Event) (s : App.State) :
  App.run evs App.initial = Some s ->
  (forall model, App.blockModel s = Some model -> App.wellFormed model) /\
  (forall result, App.solveResult s = Some result ->
     exists model, App.blockModel s = Some model /\ App.fits model result) /\
  (forall layer, App.currentLayer s = Some layer ->
     exists model, App.blockModel s = Some model /\
       0 <= layer <= getMaxLayer (App.sliceDimension s) model) /\
  (App.isLoading s = true <-> App.pending s <> App.Idle) /\
  (forall p mb i, App.props s = Some p -> minedBlocks p = Some mb ->
     0 <= i < totalBlocks p -> get mb i = Some 0 \/ get mb i = Some 1).
Proof.
  intros Hrun.
  pose proof (invariant_run evs _ _ invariant_initial Hrun)
    as (Hwf & Hfit & _ & _ & Hlayer & Hpend).
  split; [exact Hwf|]. split; [exact Hfit|]. split; [exact Hlayer|]. split.
  - destruct (App.pending s); [|destruct Hpend as [-> _]..].
    + rewrite Hpend. split; [discriminate | congruence].
    + split; [discriminate | reflexivity].
    + split; [discriminate | reflexivity].
  - intros p mb i Hp Hmb Hi. unfold App.props in Hp.
    destruct (App.blockModel s) as [model|] eqn:Em; [|discriminate].
    injection Hp as <-. cbn [minedBlocks] in Hmb.
    unfold totalBlocks in Hi. cbn [blockModel] in Hi.
    destruct (App.solveResult s) as [result|] eqn:Er; [|discriminate].
    injection Hmb as <-.
    destruct (Hfit result eq_refl) as (model' & [= <-] & Hlen & Hflags).
    apply get_flag; [exact Hflags | lia].
Qed.

(** The session on the 2x2x1 grid ends with the model, a mask of four
    entries and layer 0 selected. *)
Lemma App_reachable_witness :
  App.run session App.initial = Some sessionEnd /\
  App.wellFormed grid221values /\
  App.fits grid221values (mkSolveResult [1; 0; 1; 0] 3) /\
  0 <= 0 <= getMaxLayer SliceZ grid221values.
Proof.
  assert (Hrun : App.run session App.initial = Some sessionEnd)
    by (vm_compute; reflexivity).
  split; [exact Hrun|].
  destruct (App_reachable session sessionEnd Hrun) as (Hwf & Hfit & Hlayer & _).
  split; [exact (Hwf grid221values eq_refl)|].
  destruct (Hfit (mkSolveResult [1; 0; 1; 0] 3) eq_refl) as (model & Em & Hf).
  split; [injection Em as <-; exact Hf|].
  destruct (Hlayer 0 eq_refl) as (model' & Em' & Hl).
  injection Em' as <-. exact Hl.
Defined.
(* ===================================================================== *)
(** ** A view filter that outlives its solution *)
(* ===================================================================== *)

Lemma kept_no_mask p i :
  currentLayer p = None -> minedBlocks p = None -> kept p i = true.
Proof. intros Hl Hm. unfold kept, skipped. now rewrite Hl, Hm. Qed.

Lemma take_seqZ (n m : Z) :
  0 <= n -> take (Z.to_nat n) (seqZ 0 m) = seqZ 0 (Z.min m n).
Proof.
  intros Hn. destruct (Z_le_gt_dec m n) as [Hle|Hgt].
  - rewrite Z.min_l by lia. apply take_ge. rewrite length_seqZ. lia.
  - rewrite Z.min_r by lia.
    replace m with (n + (m - n)) by lia. rewrite seqZ_app by lia.
    apply take_app_length'. rewrite length_seqZ. lia.
Qed.

Lemma BlockInstances_filter_without_mask p :
  minedBlocks p = None -> currentLayer p = None -> viewMode p <> ViewAll ->
  exists rs,
    BlockInstances p = Some rs /\
    instanceToBlockIndex rs
    = seqZ 0 (Z.min (totalBlocks p) MAX_BLOCKS_TO_RENDER) /\
    isLimited rs = false.
Proof.
  intros Hm Hl Hv.
  destruct (BlockInstances_spec p) as (rs & Hrun & Hmap & _ & Hlim).
  assert (Hf : isFilteredView p = true).
  { unfold isFilteredView. destruct (viewMode p); congruence. }
  assert (Hs : skipFactor p = 1).
  { apply skipFactor_filtered. rewrite Hf. apply orb_true_r. }
  exists rs. split; [exact Hrun|]. split.
  - rewrite Hmap, Hs, strided_1.
    rewrite filter_all_true by (intros a _; now apply kept_no_mask).
    unfold capped, isCrossSection. rewrite Hl. now apply take_seqZ.
  - rewrite Hlim, Hs. reflexivity.
Qed.

Lemma run_cons s ev s' evs :
  App.step s ev = Some s' -> App.run (ev :: evs) s = App.run evs s'.
Proof. intros H. cbn [App.run]. now rewrite H. Qed.

Ltac state_fields :=
  cbn [App.enabled App.handle App.hasModel App.hasSolution App.initial
       App.blockModel App.solveResult App.isLoading App.error
       App.dataFilePath App.solveCount App.viewMode App.currentLayer
       App.sliceDimension App.colorScheme App.showWireframe App.pending
       negb andb].

(** X20: a view filter outlives the solution it was chosen for.  Loading
    a model, solving it, choosing 'mined' or 'unmined' and loading a
    second model leaves the filter in place with no solution, and the
    select that could reset it is not rendered.  The scene is then the
    instanced blocks 0, 1, 2, ... of the second model up to the first
    100000 only, not flagged as limited: of a larger model the blocks from
    index 100000 on are not shown. *)
Theorem App_view_filter_outlives_solution
        (first second : Upload) (model1 model2 : BlockModel)
        (outputContent : jsstring) (mode : ViewMode) :
  loads first model1 -> loads second model2 -> mode <> ViewAll ->
  exists s rs,
    App.run (reloadSession first second outputContent mode) App.initial
    = Some s /\
    App.blockModel s = Some model2 /\
    App.solveResult s = None /\
    App.viewMode s = mode /\
    (forall mode', App.enabled s (App.SelectViewMode mode') = false) /\
    App.scene s = Some (InstancedScene rs) /\
    instanceToBlockIndex rs
    = seqZ 0 (Z.min (len (values model2)) MAX_BLOCKS_TO_RENDER) /\
    isLimited rs = false.
Proof.
  intros (Hpath1 & Hx1 & Hy1 & Hz1 & Hparse1)
         (Hpath2 & Hx2 & Hy2 & Hz2 & Hparse2) Hmode.
  pose proof (parseDatFile_dims _ _ _ _ _ Hparse1) as (Enx & Eny & Enz & Elen).
  set (p := mkProps model2 None mode None SliceZ SchemeValue false).
  destruct (BlockInstances_filter_without_mask p eq_refl eq_refl Hmode)
    as (rs & Hrs & Hmap & Hlim).
  assert (Hsolve : exists r,
            runMineflow outputContent (gridNx first) (gridNy first)
                        (gridNz first) = Normal r).
  { rewrite runMineflow_indicator
      by (apply Z.mul_nonneg_nonneg; [apply Z.mul_nonneg_nonneg|]; lia).
    now eexists. }
  destruct Hsolve as (r & Hsolve).
  apply Z.ltb_lt in Hx1, Hy1, Hz1, Hx2, Hy2, Hz2.
  set (f1 := chosenFile first) in *. set (f2 := chosenFile second) in *.
  set (s1 := App.mkState None None true None None 0 ViewAll None SliceZ
               SchemeValue false
               (App.Reading f1 (gridNx first) (gridNy first) (gridNz first))).
  set (s2 := App.mkState (Some model1) None false None (Some f1) 0 ViewAll
               None SliceZ SchemeValue false App.Idle).
  set (s3 := App.mkState (Some model1) None true None (Some f1) 0 ViewAll
               None SliceZ SchemeValue false
               (App.Solving f1 (nx model1) (ny model1) (nz model1))).
  set (s4 := App.mkState (Some model1) (Some r) false None (Some f1) 1
               ViewAll None SliceZ SchemeValue false App.Idle).
  set (s5 := App.mkState (Some model1) (Some r) false None (Some f1) 1
               mode None SliceZ SchemeValue false App.Idle).
  set (s6 := App.mkState (Some model1) (Some r) true None (Some f1) 1
               mode None SliceZ SchemeValue false
               (App.Reading f2 (gridNx second) (gridNy second) (gridNz second))).
  set (s7 := App.mkState (Some model2) None false None (Some f2) 1
               mode None SliceZ SchemeValue false App.Idle).
  assert (H1 : App.step App.initial (clickLoad first) = Some s1).
  { unfold App.step, clickLoad. state_fields. unfold App.handleLoad.
    fold f1. now rewrite Hpath1, Hx1, Hy1, Hz1. }
  assert (H2 : App.step s1 (App.ReadSettles (App.ReadResolved (fileContent first)))
               = Some s2).
  { unfold App.step, s1. state_fields. unfold App.handleFileUpload_resume.
    now rewrite Hparse1. }
  assert (H3 : App.step s2 App.ClickSolve = Some s3).
  { unfold App.step, s2. state_fields. unfold App.panelSolve. state_fields.
    unfold App.handleSolve_call. state_fields. now rewrite Hpath1. }
  assert (H4 : App.step s3 (App.SolveSettles (App.SolverExited outputContent))
               = Some s4).
  { unfold App.step, s3. state_fields. unfold App.handleSolve_resume.
    now rewrite Enx, Eny, Enz, Hsolve. }
  assert (H5 : App.step s4 (App.SelectViewMode mode) = Some s5)
    by reflexivity.
  assert (H6 : App.step s5 (clickLoad second) = Some s6).
  { unfold App.step, clickLoad, s5. state_fields. unfold App.handleLoad.
    fold f2. now rewrite Hpath2, Hx2, Hy2, Hz2. }
  assert (H7 : App.step s6 (App.ReadSettles (App.ReadResolved (fileContent second)))
               = Some s7).
  { unfold App.step, s6. state_fields. unfold App.handleFileUpload_resume.
    now rewrite Hparse2. }
  exists s7, rs. split.
  { unfold reloadSession.
    rewrite (run_cons _ _ _ _ H1), (run_cons _ _ _ _ H2), (run_cons _ _ _ _ H3),
            (run_cons _ _ _ _ H4), (run_cons _ _ _ _ H5), (run_cons _ _ _ _ H6),
            (run_cons _ _ _ _ H7).
    reflexivity. }
  split; [reflexivity|]. split; [reflexivity|]. split; [reflexivity|].
  split; [reflexivity|].
  split.
  { unfold App.scene, App.props.
    cbn [App.blockModel App.solveResult App.viewMode App.currentLayer
         App.sliceDimension App.colorScheme App.showWireframe].
    fold p. apply Visualization3D_instanced; [now left | exact Hrs]. }
  split; [exact Hmap | exact Hlim].
Qed.

(** The 2x2x1 grid loaded, solved, filtered to 'mined' and loaded again:
    all four blocks are shown although none is mined. *)
Lemma App_view_filter_outlives_solution_witness :
  loads uploadFourValues grid221values /\
  exists s rs,
    App.run (reloadSession uploadFourValues uploadFourValues
               outputWithDuplicate ViewMined) App.initial = Some s /\
    App.viewMode s = ViewMined /\
    App.solveResult s = None /\
    App.scene s = Some (InstancedScene rs) /\
    instanceToBlockIndex rs = [0; 1; 2; 3].
Proof.
  assert (Hloads : loads uploadFourValues grid221values).
  { unfold loads. repeat split; vm_compute; reflexivity. }
  split; [exact Hloads|].
  destruct (App_view_filter_outlives_solution
              uploadFourValues uploadFourValues grid221values grid221values
              outputWithDuplicate ViewMined Hloads Hloads)
    as (s & rs & Hrun & _ & Hres & Hmode & _ & Hscene & Hmap & _);
    [discriminate|].
  exists s, rs. split; [exact Hrun|]. split; [exact Hmode|].
  split; [exact Hres|]. split; [exact Hscene|]. exact Hmap.
Defined.

(* ===================================================================== *)
(** ** The pit value on the solver's standard output *)
(* ===================================================================== *)

Lemma trimStart_app_ws ws t :
  Forall (fun c => isWhiteSpace c = true) ws -> trimStart (ws ++ t) = trimStart t.
Proof.
  induction 1 as [|c ws Hc _ IH]; [reflexivity|].
  cbn [app trimStart]. now rewrite Hc.
Qed.


Lemma digits_app_rest ds rest acc :
  Forall (fun a => isDigit a = true) ds -> startsWithDigit rest = false ->
  digits (ds ++ rest) acc = digits ds acc.
Proof.
  intros Hds Hrest. destruct rest as [|c rest]; [now rewrite app_nil_r|].
  apply digits_trailing; [exact Hds|]. cbn [startsWithDigit] in Hrest.
  destruct (digit c); [discriminate | reflexivity].
Qed.







(* ===================================================================== *)
(** ** The surface mesh and the boundary blocks *)
(* ===================================================================== *)

Lemma exposedFaces_boundary model mb (l : list Z) :
  let n := len (flat_map
                  (fun i => map (pair i)
                     (List.filter (spec_exposedFace model mb i) directions))
                  l) in
  let b := len (List.filter (fun i => isBoundaryBlock i model mb) l) in
  b <= n <= 6 * b.
Proof.
  cbn zeta. induction l as [|i l IH]; [unfold len; cbn; lia|].
  cbn [flat_map List.filter]. rewrite len_app, len_map.
  rewrite <- blockQuads_spec.
  pose proof (blockQuads_range model mb i) as Hr.
  destruct (isBoundaryBlock i model mb) eqn:Hb.
  - pose proof (blockQuads_boundary model mb i Hb). rewrite len_cons. lia.
  - unfold blockQuads in *. rewrite Hb in *. lia.
Qed.

(** X22: SurfaceMesh draws quads for the boundary blocks and for no
    others: the number of quads lies between the number of boundary
    blocks and six times that number, and the mesh is empty exactly when
    isBoundaryBlock holds for no block of the model. *)
Theorem SurfaceMesh_boundary_blocks (model : BlockModel) (mb : MinedBlocks)
        (scheme : ColorScheme) :
  let g := SurfaceMesh model mb scheme in
  let b := len (boundaryBlocks model mb) in
  b <= quadCount g <= 6 * b /\
  (quadCount g = 0 <-> boundaryBlocks model mb = []) /\
  (boundaryBlocks model mb = [] -> g = emptyGeometry).
Proof.
  cbn zeta. unfold SurfaceMesh, quadCount, boundaryBlocks.
  destruct (addBlock_fold model mb scheme (calculateStats model (Some mb))
              (seqZ 0 (len (values model))) (mkGeometry [] [] [] []))
    as [_ Hv].
  cbn zeta in Hv. rewrite Hv. cbn [vertices]. rewrite (@len_nil float), Z.add_0_l.
  rewrite Z.mul_comm, Z.div_mul by lia.
  pose proof (exposedFaces_boundary model mb (seqZ 0 (len (values model)))) as Hb.
  cbn zeta in Hb.
  remember (List.filter (fun i => isBoundaryBlock i model mb)
              (seqZ 0 (len (values model)))) as boundary eqn:Eb.
  pose proof (len_nonneg boundary) as Hnn.
  split; [exact Hb|]. split.
  - split.
    + intros H0. destruct boundary as [|i rest]; [reflexivity|].
      pose proof (len_nonneg rest). rewrite len_cons in *. lia.
    + intros ->. rewrite (@len_nil Z) in Hb. lia.
  - intros Hnone. apply fold_left_unchanged. intros i Hi g.
    unfold addBlock.
    destruct (isBoundaryBlock i model mb) eqn:Hbi; [|reflexivity].
    exfalso. assert (Hin : In i boundary).
    { rewrite Eb. apply filter_In. split; [now apply list_elem_of_In | exact Hbi]. }
    rewrite Hnone in Hin. destruct Hin.
Qed.

(** On the 2x2x1 grid with blocks 0, 1 and 3 mined, blocks 0 and 3 are
    the boundary blocks and the mesh has between 2 and 12 quads. *)
Lemma SurfaceMesh_boundary_blocks_witness :
  boundaryBlocks grid221 mask221 = [0; 3] /\
  2 <= quadCount (SurfaceMesh grid221 mask221 SchemeMined) <= 12.
Proof.
  assert (Hb : boundaryBlocks grid221 mask221 = [0; 3])
    by (vm_compute; reflexivity).
  split; [exact Hb|].
  destruct (SurfaceMesh_boundary_blocks grid221 mask221 SchemeMined) as [H _].
  cbn zeta in H. rewrite Hb in H. exact H.
Defined.
(* ===================================================================== *)
(** ** Line endings and surrounding white space *)
(* ===================================================================== *)

Lemma trimStart_nil_app s t : trimStart s = [] -> trimStart (s ++ t) = trimStart t.
Proof.
  induction s as [|c s IH]; [reflexivity|]. cbn [app trimStart].
  destruct (isWhiteSpace c); [exact IH | discriminate].
Qed.

Lemma trimStart_cons_app s t c r :
  trimStart s = c :: r -> trimStart (s ++ t) = c :: r ++ t.
Proof.
  induction s as [|a s IH]; [discriminate|]. cbn [app trimStart].
  destruct (isWhiteSpace a); [exact IH|]. now intros [= -> ->].
Qed.

Lemma trim_snoc_ws s c : isWhiteSpace c = true -> trim (s ++ [c]) = trim s.
Proof.
  intros Hc. unfold trim, trimEnd.
  destruct (trimStart s) as [|d r] eqn:E.
  - rewrite (trimStart_nil_app _ _ E). cbn [trimStart]. now rewrite Hc.
  - rewrite (trimStart_cons_app _ [c] _ _ E).
    change (d :: r ++ [c]) with ((d :: r) ++ [c]).
    rewrite rev_app_distr. cbn [rev app trimStart]. now rewrite Hc.
Qed.

Lemma trim_app_ws s w : whiteSpace w -> trim (s ++ w) = trim s.
Proof.
  intros Hw. revert s. induction Hw as [|c w Hc _ IH]; intros s.
  - now rewrite app_nil_r.
  - replace (s ++ c :: w) with ((s ++ [c]) ++ w) by (now rewrite <- app_assoc).
    rewrite IH. now apply trim_snoc_ws.
Qed.

Lemma trim_outer a s b :
  whiteSpace a -> whiteSpace b -> trim (a ++ s ++ b) = trim s.
Proof.
  intros Ha Hb. rewrite app_assoc, trim_app_ws by exact Hb.
  unfold trim. now rewrite trimStart_app_ws.
Qed.

Lemma join_last sep (l : list jsstring) :
  l <> [] -> exists pre, join sep l = pre ++ List.last l [].
Proof.
  induction l as [|a l IH]; [congruence|]. intros _.
  destruct l as [|b l]; [now exists []|].
  destruct IH as (pre & Hpre); [discriminate|].
  exists (a ++ sep ++ pre). rewrite join_cons2, Hpre.
  change (List.last (a :: b :: l) []) with (List.last (b :: l) []).
  now rewrite <- !app_assoc.
Qed.

Lemma trim_join_text sep (lines : list jsstring) :
  lines <> [] -> textLines lines -> trim (join sep lines) = join sep lines.
Proof.
  intros Hne (_ & Hfirst & Hlast). apply trim_plain_ends.
  - destruct lines as [|a l]; [congruence|]. cbn [hd] in Hfirst.
    destruct (join_head sep a l) as (tail & ->).
    destruct a as [|c a]; [destruct Hfirst | exact Hfirst].
  - destruct (join_last sep lines Hne) as (pre & ->).
    rewrite rev_app_distr. unfold endsPlain, startsPlain in Hlast.
    destruct (rev (List.last lines [])) as [|d r]; [destruct Hlast | exact Hlast].
Qed.

Lemma split_lines_crlf (lines : list jsstring) :
  lines <> [] -> Forall (Forall (fun c => c <> LF)) lines ->
  split_lines (join [CR; LF] lines) = crlfLines lines.
Proof.
  intros Hne Hall. induction Hall as [|a l Ha Hl IH]; [congruence|].
  destruct l as [|b l]; [now apply split_lines_plain|].
  rewrite join_cons2. cbn [crlfLines].
  replace (a ++ [CR; LF] ++ join [CR; LF] (b :: l))
    with ((a ++ [CR]) ++ LF :: join [CR; LF] (b :: l))
    by (now rewrite <- app_assoc).
  rewrite split_lines_app_LF.
  - f_equal. apply IH. discriminate.
  - apply Forall_app. split; [exact Ha|]. repeat constructor. discriminate.
Qed.

Lemma crlfLines_trim (lines : list jsstring) :
  Forall2 (fun a b => trim a = trim b) (crlfLines lines) lines.
Proof.
  induction lines as [|a l IH]; [constructor|].
  destruct l as [|b l]; [repeat constructor|].
  cbn [crlfLines]. constructor; [|exact IH].
  now apply trim_snoc_ws.
Qed.

Lemma sameTrims_length (l1 l2 : list jsstring) :
  Forall2 (fun a b => trim a = trim b) l1 l2 -> len l1 = len l2.
Proof. intros same. unfold len. now rewrite (Forall2_length _ _ _ same). Qed.

Lemma sameTrims_validIndices (l1 l2 : list jsstring) numBlocks :
  Forall2 (fun a b => trim a = trim b) l1 l2 ->
  validIndices numBlocks l1 = validIndices numBlocks l2.
Proof.
  unfold validIndices, omap.
  induction 1 as [|a b r1 r2 Hab _ IH]; [reflexivity|].
  assert (Hv : validIndex numBlocks a = validIndex numBlocks b)
    by (unfold validIndex; now rewrite Hab).
  cbn [list_omap]. now rewrite Hv, IH.
Qed.

Lemma sameTrims_parseFlags (l1 l2 : list jsstring) :
  Forall2 (fun a b => trim a = trim b) l1 l2 ->
  forall i result, parseFlags l1 i result = parseFlags l2 i result.
Proof.
  induction 1 as [|a b r1 r2 Hab _ IH]; intros i result; [reflexivity|].
  cbn [parseFlags]. rewrite Hab.
  destruct (parseInt (trim b)) as [[|[| |]|]|]; try reflexivity; apply IH.
Qed.

Lemma sameTrims_parseLines (l1 l2 : list jsstring) :
  Forall2 (fun a b => trim a = trim b) l1 l2 ->
  forall i values vs,
    parseLines l1 i values = Normal vs <-> parseLines l2 i values = Normal vs.
Proof.
  induction 1 as [|a b r1 r2 Hab _ IH]; intros i values vs; [reflexivity|].
  cbn [parseLines]. rewrite Hab.
  destruct (parseInt (trim b)); [apply IH|]. split; discriminate.
Qed.

(** X23: Windows line ends and white space around the text make no
    difference to the three readers.  For lines without line feed, of
    which the first begins and the last ends with a character that is not
    white space, joined with CR LF or with LF and surrounded by any white
    space (a final line end, say): runMineflow returns the same result,
    parseOutputFile returns the same array or throws the same error, and
    parseDatFile accepts the one text exactly when it accepts the other,
    with the same model. *)
Theorem line_endings_ignored (lines : list jsstring)
        (before1 after1 before2 after2 : jsstring) (nx ny nz numBlocks : Z) :
  lines <> [] -> textLines lines ->
  whiteSpace before1 -> whiteSpace after1 ->
  whiteSpace before2 -> whiteSpace after2 ->
  let crlf := before1 ++ join [CR; LF] lines ++ after1 in
  let lf := before2 ++ join [LF] lines ++ after2 in
  runMineflow crlf nx ny nz = runMineflow lf nx ny nz /\
  parseOutputFile crlf numBlocks = parseOutputFile lf numBlocks /\
  (forall model, parseDatFile crlf nx ny nz = Normal model
                 <-> parseDatFile lf nx ny nz = Normal model).
Proof.
  intros Hne Htext Hb1 Ha1 Hb2 Ha2 crlf lf.
  assert (Hcrlf : split_lines (trim crlf) = crlfLines lines).
  { unfold crlf. rewrite trim_outer, trim_join_text by assumption.
    apply split_lines_crlf; [exact Hne | apply Htext]. }
  assert (Hlf : split_lines (trim lf) = lines).
  { unfold lf. rewrite trim_outer, trim_join_text by assumption.
    apply split_lines_join; [exact Hne | apply Htext]. }
  pose proof (crlfLines_trim lines) as Hsame.
  split; [|split].
  - destruct (Z.ltb_spec (nx * ny * nz) 0) as [Hneg|HN].
    + unfold runMineflow. apply Z.ltb_lt in Hneg. now rewrite Hneg.
    + rewrite !runMineflow_indicator by assumption. cbn zeta.
      rewrite Hcrlf, Hlf.
      now rewrite (sameTrims_validIndices _ _ _ Hsame).
  - unfold parseOutputFile. rewrite Hcrlf, Hlf.
    rewrite (sameTrims_length _ _ Hsame).
    destruct (negb (len lines =? numBlocks)); [reflexivity|].
    apply sameTrims_parseFlags, Hsame.
  - intros model. unfold parseDatFile. rewrite Hcrlf, Hlf.
    rewrite (sameTrims_length _ _ Hsame).
    destruct (negb (len lines =? nx * ny * nz)); [reflexivity|].
    pose proof (sameTrims_parseLines _ _ Hsame 0
                  (replicate (Z.to_nat (nx * ny * nz)) 0)) as Hp.
    destruct (parseLines (crlfLines lines) 0 _) as [v1|e1] eqn:E1;
      destruct (parseLines lines 0 _) as [v2|e2] eqn:E2.
    + pose proof (proj1 (Hp v1) eq_refl) as [= ->]. reflexivity.
    + pose proof (proj1 (Hp v1) eq_refl). discriminate.
    + pose proof (proj2 (Hp v2) eq_refl). discriminate.
    + split; discriminate.
Qed.

(** The values 5, -3, 7 with Windows line ends and a final line end, and
    with Unix line ends: the same 3x1x1 model. *)
Lemma line_endings_ignored_witness :
  parseDatFile (list_ascii_of_string "5" ++ [CR; LF]
                ++ list_ascii_of_string "-3" ++ [CR; LF]
                ++ list_ascii_of_string "7" ++ [CR; LF]) 3 1 1
  = Normal (mkBlockModel 3 1 1 [5; -3; 7]) /\
  parseDatFile (list_ascii_of_string "5
-3
7") 3 1 1
  = Normal (mkBlockModel 3 1 1 [5; -3; 7]).
Proof.
  assert (Hlf : parseDatFile (list_ascii_of_string "5
-3
7") 3 1 1 = Normal (mkBlockModel 3 1 1 [5; -3; 7])) by (vm_compute; reflexivity).
  split; [|exact Hlf].
  assert (Htext : textLines threeLines).
  { unfold textLines. split; [|split; reflexivity].
    repeat constructor; discriminate. }
  assert (Hnone : whiteSpace []) by constructor.
  assert (Hend : whiteSpace [CR; LF]) by (repeat constructor).
  destruct (line_endings_ignored threeLines [] [CR; LF] [] [] 3 1 1 3
              ltac:(discriminate) Htext Hnone Hend Hnone Hnone)
    as (_ & _ & Hdat).
  apply (Hdat (mkBlockModel 3 1 1 [5; -3; 7])). exact Hlf.
Defined.

(* ===================================================================== *)
(** ** Grid input file: values beyond the Int32 range *)
(* ===================================================================== *)





